(** * Key-ring orchestrator and Starknet chain adapter of the wallet

    A shallow embedding of
    - [KeyRingService] (the key-ring orchestrator: selection state, coin-type
      finalization, deletion, signing, derivation-path validation), and
    - [KeyRingStarknetService] (the Starknet chain adapter: signer check,
      version branching of the transaction hash, signature re-encoding),
    together with the properties the design document states about them.

    JavaScript values are modelled as far as the code inspects them: numbers
    are rationals extended with NaN and the two infinities, objects used as
    dictionaries are finite maps, [throw] is the left summand of a sum and
    mutable service state is threaded explicitly. *)

From Stdlib Require Import ZArith NArith QArith Qcanon List String Ascii Bool Lia.
From Stdlib Require Import HexadecimalString HexadecimalN.
From stdpp Require Import base option list strings gmap.

Set Warnings "-register-all".

Local Open Scope Z_scope.
Local Open Scope string_scope.

(** ** JavaScript errors and results *)

(** [new Error(message)]. *)
Inductive JsError : Type :=
| Error (message : string)
| SyntaxError (message : string).

(** A synchronous computation either throws or returns. *)
Definition result (A : Type) : Type := (JsError + A)%type.

Definition throw {A : Type} (e : JsError) : result A := inl e.
Definition ok {A : Type} (a : A) : result A := inr a.

Definition is_thrown {A : Type} (r : result A) : bool :=
  match r with inl _ => true | inr _ => false end.

(** ** JavaScript numbers *)

Module Number.

(** A [number]: a finite value (kept as a rational, which covers every
    finite double), NaN, or a signed infinity. *)
Inductive number : Type :=
| Finite (q : Q)
| NaN
| Infinity (negative : bool).

Definition of_Z (z : Z) : number := Finite (inject_Z z).

(** [Number.isInteger(x)] *)
Definition isInteger (x : number) : bool :=
  match x with
  | Finite q => (Z.pos (Qden (Qred q)) =? 1)%Z
  | NaN | Infinity _ => false
  end.

(** [x < 0] *)
Definition ltZero (x : number) : bool :=
  match x with
  | Finite q => (Qnum q <? 0)%Z
  | NaN => false
  | Infinity negative => negative
  end.

(** [x === y] on numbers: NaN equals nothing, not even itself. *)
Definition strictEq (x y : number) : bool :=
  match x, y with
  | Finite p, Finite q => Qeq_bool p q
  | Infinity a, Infinity b => Bool.eqb a b
  | _, _ => false
  end.

(** Truthiness of a number: [0] and [NaN] are falsy. *)
Definition truthy (x : number) : bool :=
  match x with
  | Finite q => negb (Qnum q =? 0)%Z
  | NaN => false
  | Infinity _ => true
  end.

End Number.

Import Number.

(** ** Derivation-path validation *)

(** [BIP44HDPath] of [./types]. *)
Record BIP44HDPath : Type := {
  account : number;
  change : number;
  addressIndex : number;
}.

(** [KeyRingService.validateBIP44Path]: three guards in this order, each
    written [!Number.isInteger(x) || cond] so that the comparison is only
    reached for integers. *)
Definition validateBIP44Path (bip44Path : BIP44HDPath) : result unit :=
  if negb (isInteger (account bip44Path)) || ltZero (account bip44Path) then
    throw (Error "Invalid account in hd path")
  else if negb (isInteger (change bip44Path))
          || negb (strictEq (change bip44Path) (of_Z 0)
                   || strictEq (change bip44Path) (of_Z 1)) then
    throw (Error "Invalid change in hd path")
  else if negb (isInteger (addressIndex bip44Path))
          || ltZero (addressIndex bip44Path) then
    throw (Error "Invalid address index in hd path")
  else ok tt.

(** ** JavaScript values stored in a vault's [insensitive] object *)

Inductive JsValue : Type :=
| JUndefined
| JNull
| JBool (b : bool)
| JNumber (n : number)
| JString (s : string)
| JArray (items : list JsValue)
| JObject (fields : list (string * JsValue)).

(** Truthiness, as tested by [if (v)] and [!v]. *)
Definition truthy (v : JsValue) : bool :=
  match v with
  | JUndefined | JNull => false
  | JBool b => b
  | JNumber n => Number.truthy n
  | JString s => negb (String.eqb s "")
  | JArray _ | JObject _ => true
  end.

(** [v === s] for a string literal [s]. *)
Definition strictEqString (v : JsValue) (s : string) : bool :=
  match v with
  | JString s' => String.eqb s' s
  | _ => false
  end.

Definition isDefined {A : Type} (o : option A) : bool :=
  match o with Some _ => true | None => false end.

(** A plain object used as a dictionary; [obj[key]] is [undefined] when the
    key is absent. *)
Abbreviation PlainObject := (gmap string JsValue).

Definition prop (obj : PlainObject) (key : string) : JsValue :=
  default JUndefined (obj !! key).

(** [{...a, ...b}]: the keys of [b] win. *)
Definition spread (a b : PlainObject) : PlainObject := b ∪ a.

(** ** Bytes and hexadecimal text *)

(** The digit of a value below sixteen, in lower case. *)
Definition hexDigit (n : N) : ascii :=
  match n with
  | 0%N => "0" | 1%N => "1" | 2%N => "2" | 3%N => "3"
  | 4%N => "4" | 5%N => "5" | 6%N => "6" | 7%N => "7"
  | 8%N => "8" | 9%N => "9" | 10%N => "a" | 11%N => "b"
  | 12%N => "c" | 13%N => "d" | 14%N => "e" | _ => "f"
  end%char.

(** [Buffer.from(bytes).toString("hex")]: two digits per byte. *)
Fixpoint toHexString (bytes : list Byte.byte) : string :=
  match bytes with
  | [] => EmptyString
  | b :: rest =>
      String (hexDigit (Byte.to_N b / 16))
        (String (hexDigit (Byte.to_N b mod 16)) (toHexString rest))
  end.

(** ** The secret store *)

Record Vault : Type := {
  id : string;
  insensitive : PlainObject;
  sensitive : list Byte.byte;
}.

(** Modelled from the spec: [VaultService] of [../vault] is not among the
    sources. The design document lists its interface ([isSignedUp],
    [isLocked], [checkPassword], [getVaults(kind) -> list],
    [getVault(kind,id) -> entry|absent], [removeVault(kind,id)],
    [mergeInsensitive(kind,id,patch)]); the state below holds what these
    read and write: the lock state, the password the store checks against
    and, per kind, the list of entries in the order [getVaults] returns
    them. *)
Record VaultService : Type := {
  isSignedUp : bool;
  isLocked : bool;
  userPassword : string;
  vaultMap : gmap string (list Vault);
}.

(** Modelled from the spec: [getVaults(kind) -> list]. *)
Definition getVaults (vs : VaultService) (kind : string) : list Vault :=
  default [] (vaultMap vs !! kind).

(** Modelled from the spec: [getVault(kind,id) -> entry|absent], the first
    entry of that kind carrying the id. *)
Definition getVault (vs : VaultService) (kind vaultId : string) : option Vault :=
  List.find (fun v => String.eqb (id v) vaultId) (getVaults vs kind).

Definition setVaults (vs : VaultService) (kind : string) (l : list Vault)
  : VaultService :=
  {| isSignedUp := isSignedUp vs;
     isLocked := isLocked vs;
     userPassword := userPassword vs;
     vaultMap := <[kind := l]> (vaultMap vs) |}.

(** Modelled from the spec: [removeVault(kind,id)] drops the entry with
    that id and keeps the others in order. *)
Definition removeVault (vs : VaultService) (kind vaultId : string) : VaultService :=
  setVaults vs kind
    (List.filter (fun v => negb (String.eqb (id v) vaultId)) (getVaults vs kind)).

Definition mergeInsensitive (patch : PlainObject) (v : Vault) : Vault :=
  {| id := id v;
     insensitive := spread (insensitive v) patch;
     sensitive := sensitive v |}.

(** Modelled from the spec: [mergeInsensitive(kind,id,patch)] merges the
    patch into the [insensitive] object of the entry with that id; the keys
    of the patch win, every other key and every other entry is kept. *)
Definition setAndMergeInsensitiveToVault
    (vs : VaultService) (kind vaultId : string) (patch : PlainObject)
  : VaultService :=
  setVaults vs kind
    (List.map (fun v => if String.eqb (id v) vaultId
                        then mergeInsensitive patch v else v)
              (getVaults vs kind)).

(** Modelled from the spec: [checkPassword(password)] fails with
    PasswordMismatch unless the password is the store's. *)
Definition checkUserPassword (vs : VaultService) (password : string) : result unit :=
  if String.eqb password (userPassword vs) then ok tt
  else throw (Error "PasswordMismatch").

(** ** Chain metadata and key-ring strategies *)

(** The part of a [BIP44] entry the orchestrator reads. *)
Record BIP44 : Type := {
  coinType : number;
}.

(** The part of [ChainInfo] the orchestrator reads; [alternativeBIP44s] is
    optional (the code reads it as [alternativeBIP44s ?? []]). *)
Record ChainInfo : Type := {
  chainId : string;
  bip44 : BIP44;
  alternativeBIP44s : option (list BIP44);
}.

(** [chainsService.getChainInfoOrThrow(chainId)] of [../chains]. *)
Class ChainsService : Type := {
  getChainInfoOrThrow : string -> result ChainInfo;
}.

(** [ChainIdHelper.parse(chainId).identifier] of [@keplr-wallet/cosmos]. *)
Class ChainIdHelper : Type := {
  identifier : string -> string;
}.

Inductive DigestMethod : Type :=
| sha256
| keccak256.

(** A promise that has settled. *)
Inductive Promise (A : Type) : Type :=
| Resolved (a : A)
| Rejected (e : JsError).
Arguments Resolved {A} a.
Arguments Rejected {A} e.

(** The [KeyRing] interface of [./types], one implementation per secret
    origin. A strategy may throw or hand back a promise; [coinType] arrives
    as whatever value the orchestrator read ([as number] is only a cast). *)
Record KeyRing : Type := {
  supportedKeyRingType : string;
  keyRing_sign :
    Vault -> JsValue -> list Byte.byte -> DigestMethod -> ChainInfo ->
    result (Promise (list Byte.byte));
}.

(** The strategies handed to the orchestrator's constructor. *)
Class KeyRings : Type := {
  keyRings : list KeyRing;
}.

(** ** The key-ring orchestrator: state *)

(** [WEBPAGE_PORT] of [@keplr-wallet/router], the only port events are
    dispatched to. *)
Inductive Port : Type :=
| WEBPAGE_PORT.

(** One [interactionService.dispatchEvent(port, type, {})]. *)
Record DispatchedEvent : Type := {
  port : Port;
  eventType : string;
}.

(** What [KeyRingService] owns or reaches: the secret store, the observable
    [_selectedVaultId] and the events dispatched so far (oldest first). *)
Record State : Type := {
  vaultService : VaultService;
  _selectedVaultId : option string;
  dispatched : list DispatchedEvent;
}.

(** A method body over a store [S]: it ends by throwing or returning and
    leaves a store behind either way (a throw undoes nothing). *)
Definition Eff (S A : Type) : Type := S -> result A * S.

Definition ret {S A : Type} (a : A) : Eff S A := fun st => (ok a, st).

Definition raise {S A : Type} (message : string) : Eff S A :=
  fun st => (throw (Error message), st).

Definition bind {S A B : Type} (m : Eff S A) (k : A -> Eff S B) : Eff S B :=
  fun st =>
    match m st with
    | (inl e, st') => (inl e, st')
    | (inr a, st') => k a st'
    end.

Definition get {S : Type} : Eff S S := fun st => (ok st, st).

Definition liftResult {S A : Type} (r : result A) : Eff S A := fun st => (r, st).

Declare Scope eff_scope.
Delimit Scope eff_scope with eff.
Notation "'let*' x := m 'in' k" := (bind m (fun x => k))
  (at level 10, x name, m at level 100, k at level 200) : eff_scope.
Notation "'do' m 'then' k" := (bind m (fun _ => k))
  (at level 10, m at level 100, k at level 200) : eff_scope.
Local Open Scope eff_scope.

(** The methods of [KeyRingService] run over its [State]. *)
Definition M (A : Type) : Type := Eff State A.

Definition modifyVaultService (f : VaultService -> VaultService) : M unit :=
  fun st =>
    (ok tt,
     {| vaultService := f (vaultService st);
        _selectedVaultId := _selectedVaultId st;
        dispatched := dispatched st |}).

Definition setSelectedVaultId (v : option string) : M unit :=
  fun st =>
    (ok tt,
     {| vaultService := vaultService st;
        _selectedVaultId := v;
        dispatched := dispatched st |}).

(** [this.interactionService.dispatchEvent(port, type, {})] *)
Definition dispatchEvent (p : Port) (type : string) : M unit :=
  fun st =>
    (ok tt,
     {| vaultService := vaultService st;
        _selectedVaultId := _selectedVaultId st;
        dispatched := dispatched st ++ [{| port := p; eventType := type |}] |}).

(** [if (this.vaultService.isLocked) throw new Error("KeyRing is locked")] *)
Definition ensureUnlocked : M unit :=
  let* st := get in
  if isLocked (vaultService st) then raise "KeyRing is locked" else ret tt.

(** ** The key-ring orchestrator: operations *)

(** The [KeyInfo] entries [getKeyInfos] builds. *)
Record KeyInfo : Type := {
  keyInfo_id : string;
  keyInfo_name : JsValue;
  keyInfo_type : JsValue;
  keyInfo_isSelected : bool;
  keyInfo_insensitive : PlainObject;
}.

(** [this._selectedVaultId === vault.id] *)
Definition isSelectedId (selected : option string) (vaultId : string) : bool :=
  match selected with
  | Some s => String.eqb s vaultId
  | None => false
  end.

(** [KeyRingService.getKeyInfos] *)
Definition getKeyInfos : M (list KeyInfo) :=
  let* st := get in
  ret (List.map
         (fun vault =>
            {| keyInfo_id := id vault;
               keyInfo_name := prop (insensitive vault) "keyRingName";
               keyInfo_type := prop (insensitive vault) "keyRingType";
               keyInfo_isSelected := isSelectedId (_selectedVaultId st) (id vault);
               keyInfo_insensitive := insensitive vault |})
         (getVaults (vaultService st) "keyRing")).

(** The getter [KeyRingService.selectedVaultId]: the stored selection when
    it is a non-empty string naming an existing entry, else the first
    entry's id, else a throw. *)
Definition selectedVaultId : M string :=
  let* st := get in
  match _selectedVaultId st with
  | Some sel =>
      if negb (String.eqb sel "")
         && isDefined (getVault (vaultService st) "keyRing" sel)
      then ret sel
      else
        match getVaults (vaultService st) "keyRing" with
        | [] => raise "Key ring is empty"
        | v :: _ => ret (id v)
        end
  | None =>
      match getVaults (vaultService st) "keyRing" with
      | [] => raise "Key ring is empty"
      | v :: _ => ret (id v)
      end
  end.

(** [KeyRingService.selectKeyRing] *)
Definition selectKeyRing (vaultId : string) : M unit :=
  do ensureUnlocked then
  let* st := get in
  match getVault (vaultService st) "keyRing" vaultId with
  | None => raise "Unknown vault"
  | Some _ =>
      do setSelectedVaultId (Some vaultId) then
      dispatchEvent WEBPAGE_PORT "keystore-changed"
  end.

(** [`keyRing-${ChainIdHelper.parse(chainId).identifier}-coinType`] *)
Definition coinTypeTag `{ChainIdHelper} (chainId : string) : string :=
  "keyRing-" +:+ identifier chainId +:+ "-coinType".

(** [chainInfo.bip44.coinType !== coinType &&
     !(chainInfo.alternativeBIP44s ?? []).find(path => path.coinType === coinType)] *)
Definition coinTypeNotAssociated (chainInfo : ChainInfo) (c : number) : bool :=
  negb (Number.strictEq (coinType (bip44 chainInfo)) c)
  && negb (isDefined
       (List.find (fun path => Number.strictEq (coinType path) c)
                  (default [] (alternativeBIP44s chainInfo)))).

(** [KeyRingService.finalizeMnemonicKeyCoinType] *)
Definition finalizeMnemonicKeyCoinType `{ChainsService} `{ChainIdHelper}
    (vaultId chainId : string) (c : number) : M unit :=
  do ensureUnlocked then
  let* chainInfo := liftResult (getChainInfoOrThrow chainId) in
  if coinTypeNotAssociated chainInfo c then
    raise "Coin type is not associated to chain"
  else
    let* st := get in
    match getVault (vaultService st) "keyRing" vaultId with
    | None => raise "Vault is null"
    | Some vault =>
        if negb (strictEqString (prop (insensitive vault) "keyRingType") "mnemonic")
        then raise "Key is not from mnemonic"
        else if truthy (prop (insensitive vault) (coinTypeTag chainId))
        then raise "Coin type is already finalized"
        else
          modifyVaultService (fun vs =>
            setAndMergeInsensitiveToVault vs "keyRing" vaultId
              {[ coinTypeTag chainId := JNumber c ]})
    end.

(** [KeyRingService.needMnemonicKeyCoinTypeFinalize] *)
Definition needMnemonicKeyCoinTypeFinalize `{ChainIdHelper}
    (vaultId chainId : string) : M bool :=
  do ensureUnlocked then
  let* st := get in
  match getVault (vaultService st) "keyRing" vaultId with
  | None => raise "Vault is null"
  | Some vault =>
      if negb (strictEqString (prop (insensitive vault) "keyRingType") "mnemonic")
      then ret false
      else ret (negb (truthy (prop (insensitive vault) (coinTypeTag chainId))))
  end.

(** [KeyRingService.appendLedgerKeyRing]; it has no lock guard of its own. *)
Definition appendLedgerKeyRing (vaultId : string) (pubKey : list Byte.byte)
    (app : string) : M unit :=
  let* st := get in
  match getVault (vaultService st) "keyRing" vaultId with
  | None => raise "Vault is null"
  | Some vault =>
      if negb (strictEqString (prop (insensitive vault) "keyRingType") "ledger")
      then raise "Key is not from ledger"
      else if truthy (prop (insensitive vault) app)
      then raise "App is already appended"
      else
        modifyVaultService (fun vs =>
          setAndMergeInsensitiveToVault vs "keyRing" vaultId
            {[ app := JObject [("pubKey", JString (toHexString pubKey))] ]})
  end.

(** [KeyRingService.changeKeyRingName] *)
Definition changeKeyRingName (vaultId name : string) : M unit :=
  do ensureUnlocked then
  let* st := get in
  match getVault (vaultService st) "keyRing" vaultId with
  | None => raise "Vault is null"
  | Some _ =>
      modifyVaultService (fun vs =>
        setAndMergeInsensitiveToVault vs "keyRing" vaultId
          {[ "keyRingName" := JString name ]})
  end.

(** [KeyRingService.deleteKeyRing] *)
Definition deleteKeyRing (vaultId password : string) : M bool :=
  do ensureUnlocked then
  let* st := get in
  match getVault (vaultService st) "keyRing" vaultId with
  | None => raise "Vault is null"
  | Some _ =>
      do liftResult (checkUserPassword (vaultService st) password) then
      let* selected := selectedVaultId in
      let wasSelected := String.eqb selected vaultId in
      do modifyVaultService (fun vs => removeVault vs "keyRing" vaultId) then
      do (if wasSelected then
            let* keyInfos := getKeyInfos in
            match keyInfos with
            | first :: _ => setSelectedVaultId (Some (keyInfo_id first))
            | [] => setSelectedVaultId None
            end
          else ret tt) then
      do (if wasSelected
          then dispatchEvent WEBPAGE_PORT "keystore-changed"
          else ret tt) then
      ret wasSelected
  end.

(** [KeyRingService.getVaultKeyRing]: the first strategy whose type tag is
    the vault's [keyRingType]. *)
Definition getVaultKeyRing `{KeyRings} (vault : Vault) : M KeyRing :=
  match List.find
          (fun keyRing =>
             strictEqString (prop (insensitive vault) "keyRingType")
                            (supportedKeyRingType keyRing))
          keyRings with
  | Some keyRing => ret keyRing
  | None => raise "Unsupported keyRing vault"
  end.

(** [KeyRingService.signWithVault]: [Promise.resolve(keyRing.sign(...))]. *)
Definition signWithVault `{KeyRings} (vault : Vault) (c : JsValue)
    (data : list Byte.byte) (digestMethod : DigestMethod)
    (chainInfo : ChainInfo) : M (Promise (list Byte.byte)) :=
  do ensureUnlocked then
  let* keyRing := getVaultKeyRing vault in
  liftResult (keyRing_sign keyRing vault c data digestMethod chainInfo).

(** [KeyRingService.sign]. The object literal merged after the strategy
    call is [{ coinTypeTag: coinType }]: its key is the identifier
    [coinTypeTag] taken as a name, not the tag computed above. *)
Definition sign `{ChainsService} `{ChainIdHelper} `{KeyRings}
    (chainId vaultId : string) (data : list Byte.byte)
    (digestMethod : DigestMethod) : M (Promise (list Byte.byte)) :=
  do ensureUnlocked then
  let* chainInfo := liftResult (getChainInfoOrThrow chainId) in
  let* st := get in
  match getVault (vaultService st) "keyRing" vaultId with
  | None => raise "Vault is null"
  | Some vault =>
      let tag := coinTypeTag chainId in
      let c :=
        if truthy (prop (insensitive vault) tag)
        then prop (insensitive vault) tag
        else JNumber (coinType (bip44 chainInfo)) in
      let* signature := signWithVault vault c data digestMethod chainInfo in
      do modifyVaultService (fun vs =>
           setAndMergeInsensitiveToVault vs "keyRing" (id vault)
             {[ "coinTypeTag" := c ]}) then
      ret signature
  end.

(** [KeyRingService.signSelected] *)
Definition signSelected `{ChainsService} `{ChainIdHelper} `{KeyRings}
    (chainId : string) (data : list Byte.byte) (digestMethod : DigestMethod)
  : M (Promise (list Byte.byte)) :=
  let* selected := selectedVaultId in
  sign chainId selected data digestMethod.

(** ** The Starknet chain adapter: signature re-encoding *)

(** The value of a hexadecimal digit, either case. *)
Definition hexDigitValue (c : ascii) : option N :=
  let n := N_of_ascii c in
  if (48 <=? n)%N && (n <=? 57)%N then Some (n - 48)%N
  else if (97 <=? n)%N && (n <=? 102)%N then Some (n - 87)%N
  else if (65 <=? n)%N && (n <=? 70)%N then Some (n - 55)%N
  else None.

Fixpoint parseHexDigits (acc : N) (digits : string) : option N :=
  match digits with
  | EmptyString => Some acc
  | String c rest =>
      match hexDigitValue c with
      | Some d => parseHexDigits (acc * 16 + d)%N rest
      | None => None
      end
  end.

(** [BigInt(text)] for the texts the adapter builds, [0x] followed by
    hexadecimal digits; a text with no digit, or any other text, is a
    [SyntaxError]. *)
Definition BigInt (text : string) : result Z :=
  match text with
  | String "0" (String "x" (String c rest)) =>
      match parseHexDigits 0 (String c rest) with
      | Some n => ok (Z.of_N n)
      | None => throw (SyntaxError ("Cannot convert " +:+ text +:+ " to a BigInt"))
      end
  | _ => throw (SyntaxError ("Cannot convert " +:+ text +:+ " to a BigInt"))
  end.

(** [n.toString(16)] for an integer. *)
Definition toString16 (n : Z) : string :=
  match n with
  | Z.neg p => "-" +:+ HexadecimalString.NilZero.string_of_uint (N.to_hex_uint (N.pos p))
  | _ => HexadecimalString.NilZero.string_of_uint (N.to_hex_uint (Z.to_N n))
  end.

Definition UINT_128_MAX : Z := 2 ^ 128 - 1.
Definition UINT_256_MAX : Z := 2 ^ 256 - 1.
Definition UINT_256_MIN : Z := 0.

(** Modelled from the spec: [CairoUint256] belongs to the starknet library,
    which is not among the sources. The design document has it reinterpret
    its argument as a 256-bit unsigned integer and split it into the low
    128 bits and the high 128 bits; a value outside the 256-bit range is
    refused. *)
Record CairoUint256 : Type := {
  low : Z;
  high : Z;
}.

Definition CairoUint256_validate (bigNumberish : string) : result Z :=
  match BigInt bigNumberish with
  | inl e => inl e
  | inr bigInt =>
      if (bigInt <? UINT_256_MIN)%Z then
        throw (Error "bigNumberish is smaller than UINT_256_MIN")
      else if (UINT_256_MAX <? bigInt)%Z then
        throw (Error "bigNumberish is bigger than UINT_256_MAX")
      else ok bigInt
  end.

Definition CairoUint256_new (bigNumberish : string) : result CairoUint256 :=
  match CairoUint256_validate bigNumberish with
  | inl e => inl e
  | inr bigInt =>
      ok {| low := Z.land bigInt UINT_128_MAX; high := Z.shiftr bigInt 128 |}
  end.

(** [toUint256HexString()]: both limbs as [0x]-prefixed hexadecimal text. *)
Definition toUint256HexString (u : CairoUint256) : string * string :=
  ("0x" +:+ toString16 (low u), "0x" +:+ toString16 (high u)).

(** The raw signature the key ring hands back; [sig_v] is the recovery
    indicator, [None] standing for [null]. *)
Record RawSignature : Type := {
  sig_r : list Byte.byte;
  sig_s : list Byte.byte;
  sig_v : option Z;
}.

(** [KeyRingStarknetService.formatEthSignature] *)
Definition formatEthSignature (sig : RawSignature) : result (list string) :=
  match sig_v sig with
  | None => throw (Error "Invalid signature")
  | Some v =>
      match CairoUint256_new ("0x" +:+ toHexString (sig_r sig)) with
      | inl e => inl e
      | inr ru =>
          let r := toUint256HexString ru in
          match CairoUint256_new ("0x" +:+ toHexString (sig_s sig)) with
          | inl e => inl e
          | inr su =>
              let s := toUint256HexString su in
              ok [fst r; snd r; fst s; snd s; "0x" +:+ toString16 v]
          end
      end
  end.

(** ** The Starknet chain adapter: version branching *)

(** [Object.values(ETransactionVersion2)] *)
Definition ETransactionVersion2 : list string :=
  [ "0x0"; "0x1"; "0x2";
    "0x100000000000000000000000000000000";
    "0x100000000000000000000000000000001";
    "0x100000000000000000000000000000002" ].

(** [Object.values(ETransactionVersion3)] *)
Definition ETransactionVersion3 : list string :=
  [ "0x3"; "0x100000000000000000000000000000003" ].

(** [values.includes(v)] for a list of strings. *)
Definition includes (values : list string) (v : JsValue) : bool :=
  List.existsb (strictEqString v) values.

(** [intDAM]: [EDataAvailabilityMode.L1] is ["L1"] and [EDAMode.L1] is [0],
    [L2] likewise with [1]. *)
Definition intDAM (dam : JsValue) : result Z :=
  if strictEqString dam "L1" then ok 0
  else if strictEqString dam "L2" then ok 1
  else throw (Error "EDAM conversion").

(** Which of the two rule-sets a version selects, if any. *)
Inductive RuleSet : Type :=
| V2Rules
| V3Rules.

Definition ruleSetOf (version : JsValue) : option RuleSet :=
  if includes ETransactionVersion2 version then Some V2Rules
  else if includes ETransactionVersion3 version then Some V3Rules
  else None.

(** ** The Starknet chain adapter: signing entry points *)

(** A [PubKeySecp256k1] of [@keplr-wallet/crypto], by the two methods the
    adapter calls. *)
Record PubKeySecp256k1 : Type := {
  toBytes : list Byte.byte;
  getStarknetAddress : list Byte.byte -> list Byte.byte -> list Byte.byte;
}.

(** Modular chain metadata, by what the adapter tests:
    ["starknet" in chainInfo]. *)
Record ModularChainInfo : Type := {
  hasStarknet : bool;
}.

(** What [getStarknetKey] resolves to. *)
Record StarknetKey : Type := {
  hexAddress : string;
  pubKey : list Byte.byte;
  address : list Byte.byte;
}.

(** The requests the adapter sends out: to the key ring, and to the
    library routines that compute a digest. Hash arguments are the object
    literals the code builds. *)
Inductive Call : Type :=
| KeyRingGetPubKey (chainId vaultId : string)
| KeyRingSign (chainId vaultId : string) (data : list Byte.byte)
    (digestMethod : DigestMethod)
| GetMessageHash (typedData : JsValue) (signer : string)
| CalculateInvokeTransactionHash (args : PlainObject)
| CalculateDeployAccountTransactionHash (args : PlainObject)
| CalculateDeclareTransactionHash (args : PlainObject).

(** The collaborators of [KeyRingStarknetService]: chain metadata, the key
    ring service and the routines of the starknet library. Each answers a
    request with a value or a throw. *)
Class StarknetCollaborators : Type := {
  getModularChainInfoOrThrow : string -> result ModularChainInfo;
  keyRingService_getPubKey : string -> string -> result PubKeySecp256k1;
  keyRingService_sign :
    string -> string -> list Byte.byte -> DigestMethod -> result RawSignature;
  getMessageHash : JsValue -> string -> result string;
  getExecuteCalldata : JsValue -> JsValue -> result JsValue;
  CallData_compile : JsValue -> result JsValue;
  calculateInvokeTransactionHash : PlainObject -> result string;
  calculateDeployAccountTransactionHash : PlainObject -> result string;
  calculateDeclareTransactionHash : PlainObject -> result string;
  Buffer_from_hex : string -> list Byte.byte;
}.

(** The methods of the adapter run over the list of requests sent so far
    (oldest first). *)
Definition T (A : Type) : Type := Eff (list Call) A.

(** Send a request and take its answer. *)
Definition request {A : Type} (c : Call) (answer : result A) : T A :=
  fun sent => (answer, (sent ++ [c])%list).

(** [Buffer.from("11", "hex")] *)
Definition starknetSalt : list Byte.byte := [Byte.x11].

(** [Buffer.from("02203673...6d94", "hex")] *)
Definition starknetClassHash : list Byte.byte :=
  [
    Byte.x02; Byte.x20; Byte.x36; Byte.x73; Byte.xe7; Byte.x28; Byte.xfa; Byte.x07;
    Byte.xde; Byte.x1c; Byte.x2e; Byte.xa6; Byte.x04; Byte.x05; Byte.x39; Byte.x9f;
    Byte.xfe; Byte.xfa; Byte.xf8; Byte.x75; Byte.xf1; Byte.xb7; Byte.xae; Byte.x54;
    Byte.xe7; Byte.x47; Byte.x65; Byte.x9e; Byte.x1e; Byte.x21; Byte.x6d; Byte.x94 ].

(** [KeyRingStarknetService.getStarknetKey] *)
Definition getStarknetKey `{StarknetCollaborators} (vaultId chainId : string)
  : T StarknetKey :=
  let* chainInfo := liftResult (getModularChainInfoOrThrow chainId) in
  if negb (hasStarknet chainInfo) then raise "Chain is not a starknet chain"
  else
    let* pk := request (KeyRingGetPubKey chainId vaultId)
                       (keyRingService_getPubKey chainId vaultId) in
    let addr := getStarknetAddress pk starknetSalt starknetClassHash in
    ret {| hexAddress := "0x" +:+ toHexString addr;
           pubKey := toBytes pk;
           address := addr |}.

(** [msgHash.replace("0x", "")]: the first occurrence is dropped. *)
Fixpoint replace0x (text : string) : string :=
  match text with
  | String "0" (String "x" rest) => rest
  | String c rest => String c (replace0x rest)
  | EmptyString => EmptyString
  end.

(** The tail shared by the four entry points: sign the digest with the
    keccak convention and re-encode. *)
Definition signDigest `{StarknetCollaborators} (chainId vaultId msgHash : string)
  : T (list string) :=
  let data := Buffer_from_hex (replace0x msgHash) in
  let* sig := request (KeyRingSign chainId vaultId data keccak256)
                      (keyRingService_sign chainId vaultId data keccak256) in
  liftResult (formatEthSignature sig).

(** [KeyRingStarknetService.signStarknetMessage] *)
Definition signStarknetMessage `{StarknetCollaborators}
    (vaultId chainId signer : string) (typedData : JsValue) : T (list string) :=
  let* key := getStarknetKey vaultId chainId in
  if negb (String.eqb (hexAddress key) signer) then raise "Invalid signer"
  else
    let* msgHash := request (GetMessageHash typedData signer)
                            (getMessageHash typedData signer) in
    signDigest chainId vaultId msgHash.

(** The two data-availability fields of a v3 object literal. *)
Definition withDAModes (details args : PlainObject) : result PlainObject :=
  match intDAM (prop details "nonceDataAvailabilityMode") with
  | inl e => inl e
  | inr nonceMode =>
      match intDAM (prop details "feeDataAvailabilityMode") with
      | inl e => inl e
      | inr feeMode =>
          ok (<["feeDataAvailabilityMode" := JNumber (Number.of_Z feeMode)]>
              (<["nonceDataAvailabilityMode" := JNumber (Number.of_Z nonceMode)]>
               args))
      end
  end.

(** [KeyRingStarknetService.signStarknetTransaction] *)
Definition signStarknetTransaction `{StarknetCollaborators}
    (vaultId chainId signer : string) (transactions : JsValue)
    (details : PlainObject) : T (list string) :=
  let* key := getStarknetKey vaultId chainId in
  if negb (String.eqb (hexAddress key) signer) then raise "Invalid signer"
  else
    let* compiledCalldata :=
      liftResult (getExecuteCalldata transactions (prop details "cairoVersion")) in
    let args :=
      <["version" := prop details "version"]>
      (<["compiledCalldata" := compiledCalldata]>
       (<["senderAddress" := prop details "walletAddress"]> details)) in
    let* msgHash :=
      if includes ETransactionVersion2 (prop details "version") then
        request (CalculateInvokeTransactionHash args)
                (calculateInvokeTransactionHash args)
      else if includes ETransactionVersion3 (prop details "version") then
        let* args3 := liftResult (withDAModes details args) in
        request (CalculateInvokeTransactionHash args3)
                (calculateInvokeTransactionHash args3)
      else raise "unsupported signTransaction version" in
    signDigest chainId vaultId msgHash.

(** [KeyRingStarknetService.signStarknetDeployAccountTransaction]; the v2
    literal names the compiled calldata [constructorCalldata], the v3
    literal [compiledConstructorCalldata]. *)
Definition signStarknetDeployAccountTransaction `{StarknetCollaborators}
    (vaultId chainId signer : string) (details : PlainObject) : T (list string) :=
  let* key := getStarknetKey vaultId chainId in
  if negb (String.eqb (hexAddress key) signer) then raise "Invalid signer"
  else
    let* compiledConstructorCalldata :=
      liftResult (CallData_compile (prop details "constructorCalldata")) in
    let* msgHash :=
      if includes ETransactionVersion2 (prop details "version") then
        let args :=
          <["version" := prop details "version"]>
          (<["constructorCalldata" := compiledConstructorCalldata]>
           (<["salt" := prop details "addressSalt"]> details)) in
        request (CalculateDeployAccountTransactionHash args)
                (calculateDeployAccountTransactionHash args)
      else if includes ETransactionVersion3 (prop details "version") then
        let args :=
          <["version" := prop details "version"]>
          (<["compiledConstructorCalldata" := compiledConstructorCalldata]>
           (<["salt" := prop details "addressSalt"]> details)) in
        let* args3 := liftResult (withDAModes details args) in
        request (CalculateDeployAccountTransactionHash args3)
                (calculateDeployAccountTransactionHash args3)
      else raise "unsupported signDeployAccountTransaction version" in
    signDigest chainId vaultId msgHash.

(** [KeyRingStarknetService.signStarknetDeclareTransactionn] *)
Definition signStarknetDeclareTransactionn `{StarknetCollaborators}
    (vaultId chainId signer : string) (details : PlainObject) : T (list string) :=
  let* key := getStarknetKey vaultId chainId in
  if negb (String.eqb (hexAddress key) signer) then raise "Invalid signer"
  else
    let args := <["version" := prop details "version"]> details in
    let* msgHash :=
      if includes ETransactionVersion2 (prop details "version") then
        request (CalculateDeclareTransactionHash args)
                (calculateDeclareTransactionHash args)
      else if includes ETransactionVersion3 (prop details "version") then
        let* args3 := liftResult (withDAModes details args) in
        request (CalculateDeclareTransactionHash args3)
                (calculateDeclareTransactionHash args3)
      else raise "unsupported signDeclareTransaction version" in
    signDigest chainId vaultId msgHash.

(** ** The key-ring orchestrator: the remaining operations *)

(** The getter [KeyRingService.keyRingStatus]; the status is one of the
    strings ["empty"], ["locked"], ["unlocked"]. *)
Definition keyRingStatus (st : State) : string :=
  if negb (isSignedUp (vaultService st))
     || (length (getVaults (vaultService st) "keyRing") =? 0)%nat
  then "empty"
  else if isLocked (vaultService st) then "locked" else "unlocked".

(** [KeyRingService.getKeyRingVaults] *)
Definition getKeyRingVaults : M (list Vault) :=
  let* st := get in
  ret (getVaults (vaultService st) "keyRing").

(** [KeyRingService.getKeyInfo] *)
Definition getKeyInfo (vaultId : string) : M (option KeyInfo) :=
  let* keyInfos := getKeyInfos in
  ret (List.find (fun keyInfo => String.eqb (keyInfo_id keyInfo) vaultId) keyInfos).

(** [KeyRingService.getKeyRingName]:
    [(vault.insensitive["keyRingName"] as string) || "Keplr Account"]. *)
Definition getKeyRingName (vaultId : string) : M JsValue :=
  let* st := get in
  match getVault (vaultService st) "keyRing" vaultId with
  | None => raise "Vault is null"
  | Some vault =>
      if truthy (prop (insensitive vault) "keyRingName")
      then ret (prop (insensitive vault) "keyRingName")
      else ret (JString "Keplr Account")
  end.

(** [KeyRingService.getKeyRingNameSelected] *)
Definition getKeyRingNameSelected : M JsValue :=
  let* selected := selectedVaultId in
  getKeyRingName selected.

(** [keyRing.getPubKey(vault, coinType, chainInfo)] of the [KeyRing]
    interface: like [sign] it may throw or hand back a promise. *)
Class KeyRingPubKeys : Type := {
  keyRing_getPubKey :
    KeyRing -> Vault -> JsValue -> ChainInfo ->
    result (Promise PubKeySecp256k1);
}.

(** [KeyRingService.getPubKeyWithVault] *)
Definition getPubKeyWithVault `{KeyRings} `{KeyRingPubKeys}
    (vault : Vault) (c : JsValue) (chainInfo : ChainInfo)
  : M (Promise PubKeySecp256k1) :=
  do ensureUnlocked then
  let* keyRing := getVaultKeyRing vault in
  liftResult (keyRing_getPubKey keyRing vault c chainInfo).

(** [KeyRingService.getPubKey] *)
Definition getPubKey `{ChainsService} `{ChainIdHelper} `{KeyRings} `{KeyRingPubKeys}
    (chainId vaultId : string) : M (Promise PubKeySecp256k1) :=
  do ensureUnlocked then
  let* chainInfo := liftResult (getChainInfoOrThrow chainId) in
  let* st := get in
  match getVault (vaultService st) "keyRing" vaultId with
  | None => raise "Vault is null"
  | Some vault =>
      let tag := coinTypeTag chainId in
      let c :=
        if truthy (prop (insensitive vault) tag)
        then prop (insensitive vault) tag
        else JNumber (coinType (bip44 chainInfo)) in
      getPubKeyWithVault vault c chainInfo
  end.

(** [KeyRingService.getPubKeySelected] *)
Definition getPubKeySelected `{ChainsService} `{ChainIdHelper} `{KeyRings}
    `{KeyRingPubKeys} (chainId : string) : M (Promise PubKeySecp256k1) :=
  let* selected := selectedVaultId in
  getPubKey chainId selected.

(** [KeyRingService.getPubKeyWithNotFinalizedCoinType] *)
Definition getPubKeyWithNotFinalizedCoinType `{ChainsService} `{ChainIdHelper}
    `{KeyRings} `{KeyRingPubKeys}
    (chainId vaultId : string) (c : number) : M (Promise PubKeySecp256k1) :=
  do ensureUnlocked then
  let* chainInfo := liftResult (getChainInfoOrThrow chainId) in
  if coinTypeNotAssociated chainInfo c then
    raise "Coin type is not associated to chain"
  else
    let* st := get in
    match getVault (vaultService st) "keyRing" vaultId with
    | None => raise "Vault is null"
    | Some vault =>
        if negb (strictEqString (prop (insensitive vault) "keyRingType") "mnemonic")
        then raise "Key is not from mnemonic"
        else if truthy (prop (insensitive vault) (coinTypeTag chainId))
        then raise "Coin type is already finalized"
        else getPubKeyWithVault vault (JNumber c) chainInfo
    end.

(** [vaultService.decrypt(sensitive)] of [../vault]: the plaintext object
    of a ciphertext. *)
Class VaultDecryption : Type := {
  decrypt : list Byte.byte -> PlainObject;
}.

(** [KeyRingService.showSensitiveKeyRingData] *)
Definition showSensitiveKeyRingData `{VaultDecryption}
    (vaultId password : string) : M JsValue :=
  do ensureUnlocked then
  let* st := get in
  match getVault (vaultService st) "keyRing" vaultId with
  | None => raise "Vault is null"
  | Some vault =>
      do liftResult (checkUserPassword (vaultService st) password) then
      if strictEqString (prop (insensitive vault) "keyRingType") "mnemonic"
      then ret (prop (decrypt (sensitive vault)) "mnemonic")
      else if strictEqString (prop (insensitive vault) "keyRingType") "private-key"
      then ret (prop (decrypt (sensitive vault)) "privateKey")
      else raise "Unsupported keyRing type to show sensitive data"
  end.

(** [KeyRingService.getKeyRing]: the first strategy with the given type
    tag; the message ends with the tag. *)
Definition getKeyRing `{KeyRings} (type : string) : M KeyRing :=
  match List.find
          (fun keyRing => String.eqb type (supportedKeyRingType keyRing))
          keyRings with
  | Some keyRing => ret keyRing
  | None => raise ("Unsupported keyRing " +:+ type)
  end.

(** ** The key-ring orchestrator: creating entries *)

(** What a strategy's [createKeyRingVault] is called with: the mnemonic
    strategy gets [(mnemonic, bip44Path)], the ledger strategy
    [(pubKey, app, bip44Path)], the private-key strategy [(privateKey)]. *)
Inductive CreateKeyRingVaultArgs : Type :=
| MnemonicSecret (mnemonic : string) (bip44Path : BIP44HDPath)
| LedgerSecret (pubKey : list Byte.byte) (app : string) (bip44Path : BIP44HDPath)
| PrivateKeySecret (privateKey : list Byte.byte).

(** What [createKeyRingVault] resolves to. *)
Record VaultData : Type := {
  vaultData_insensitive : PlainObject;
  vaultData_sensitive : PlainObject;
}.

(** [keyRing.createKeyRingVault(...)] of the [KeyRing] interface. *)
Class KeyRingVaultCreation : Type := {
  createKeyRingVault : KeyRing -> CreateKeyRingVaultArgs -> result VaultData;
}.

(** [chainsService.getChainInfos()] of [../chains]. *)
Class ChainInfoList : Type := {
  getChainInfos : list ChainInfo;
}.

(** How the secret store names a new entry and encrypts its secret part;
    both belong to [../vault]. *)
Class VaultStorage : Type := {
  newVaultId : VaultService -> string;
  encrypt : PlainObject -> list Byte.byte;
}.

(** Modelled from the spec: [signUp(password)] is the first-time
    initialization of the secret store; afterwards the store is signed up
    and unlocked under that password (the design document's scenario has
    the status become "unlocked" after the first creation). *)
Definition signUp (vs : VaultService) (password : string) : VaultService :=
  {| isSignedUp := true;
     isLocked := false;
     userPassword := password;
     vaultMap := vaultMap vs |}.

(** Modelled from the spec: [addVault(kind, insensitive, sensitive) -> id]
    adds one entry of that kind, after the existing ones, under a new id
    and with the secret part encrypted, and returns the id. The design
    document requires the unlocked state for every operation that touches
    secret data: on a locked store the call throws, with the store's
    "Vault is not unlocked", and adds nothing. *)
Definition addVault `{VaultStorage} (vs : VaultService) (kind : string)
    (ins sens : PlainObject) : result (string * VaultService) :=
  if isLocked vs then throw (Error "Vault is not unlocked")
  else
    let vaultId := newVaultId vs in
    ok (vaultId,
        setVaults vs kind
          (getVaults vs kind
           ++ [ {| id := vaultId; insensitive := ins;
                   sensitive := encrypt sens |} ])).

(** The opening of the three creation methods:
    [if (!this.vaultService.isSignedUp) { if (!password) throw ...;
     await this.vaultService.signUp(password); }];
    an absent and an empty password are both falsy. *)
Definition signUpIfNeeded (password : option string) : M unit :=
  let* st := get in
  if negb (isSignedUp (vaultService st)) then
    match password with
    | Some pw =>
        if String.eqb pw ""
        then raise "Must provide password to sign in to vault"
        else modifyVaultService (fun vs => signUp vs pw)
    | None => raise "Must provide password to sign in to vault"
    end
  else ret tt.

(** [!chainInfo.alternativeBIP44s || chainInfo.alternativeBIP44s.length === 0] *)
Definition hasNoAlternatives (chainInfo : ChainInfo) : bool :=
  match alternativeBIP44s chainInfo with
  | None | Some [] => true
  | Some (_ :: _) => false
  end.

(** The loop of [createMnemonicKeyRing] that fills [coinTypes]: one tag
    per chain without alternatives, a later chain overwriting an earlier
    one with the same tag. *)
Definition singleChoiceCoinTypes `{ChainIdHelper} (chainInfos : list ChainInfo)
  : PlainObject :=
  List.fold_left
    (fun (coinTypes : PlainObject) chainInfo =>
       if hasNoAlternatives chainInfo
       then <[coinTypeTag (chainId chainInfo)
              := JNumber (coinType (bip44 chainInfo))]> coinTypes
       else coinTypes)
    chainInfos ∅.

(** The close of the three creation methods: add the entry, select it,
    dispatch "keystore-changed", return the id; a throw of [addVault]
    ends the method before anything is selected or dispatched. *)
Definition addAndSelect `{VaultStorage} (ins sens : PlainObject) : M string :=
  let* st := get in
  let* added := liftResult (addVault (vaultService st) "keyRing" ins sens) in
  do modifyVaultService (fun _ => snd added) then
  do setSelectedVaultId (Some (fst added)) then
  do dispatchEvent WEBPAGE_PORT "keystore-changed" then
  ret (fst added).

(** [KeyRingService.createMnemonicKeyRing] *)
Definition createMnemonicKeyRing `{ChainIdHelper} `{KeyRings}
    `{KeyRingVaultCreation} `{ChainInfoList} `{VaultStorage}
    (mnemonic : string) (bip44Path : BIP44HDPath) (name : string)
    (password : option string) : M string :=
  do signUpIfNeeded password then
  do liftResult (validateBIP44Path bip44Path) then
  let* keyRing := getKeyRing "mnemonic" in
  let* vaultData :=
    liftResult (createKeyRingVault keyRing (MnemonicSecret mnemonic bip44Path)) in
  let coinTypes := singleChoiceCoinTypes getChainInfos in
  addAndSelect
    (<["keyRingType" := JString (supportedKeyRingType keyRing)]>
     (<["keyRingName" := JString name]>
      (spread (vaultData_insensitive vaultData) coinTypes)))
    (vaultData_sensitive vaultData).

(** [KeyRingService.createLedgerKeyRing] *)
Definition createLedgerKeyRing `{KeyRings} `{KeyRingVaultCreation} `{VaultStorage}
    (pubKey : list Byte.byte) (app : string) (bip44Path : BIP44HDPath)
    (name : string) (password : option string) : M string :=
  do signUpIfNeeded password then
  do liftResult (validateBIP44Path bip44Path) then
  let* keyRing := getKeyRing "ledger" in
  let* vaultData :=
    liftResult (createKeyRingVault keyRing (LedgerSecret pubKey app bip44Path)) in
  addAndSelect
    (<["keyRingType" := JString (supportedKeyRingType keyRing)]>
     (<["keyRingName" := JString name]> (vaultData_insensitive vaultData)))
    (vaultData_sensitive vaultData).

(** [KeyRingService.createPrivateKeyKeyRing]; it validates no path. *)
Definition createPrivateKeyKeyRing `{KeyRings} `{KeyRingVaultCreation}
    `{VaultStorage}
    (privateKey : list Byte.byte) (meta : JsValue) (name : string)
    (password : option string) : M string :=
  do signUpIfNeeded password then
  let* keyRing := getKeyRing "private-key" in
  let* vaultData :=
    liftResult (createKeyRingVault keyRing (PrivateKeySecret privateKey)) in
  addAndSelect
    (<["keyRingMeta" := meta]>
     (<["keyRingType" := JString (supportedKeyRingType keyRing)]>
      (<["keyRingName" := JString name]> (vaultData_insensitive vaultData))))
    (vaultData_sensitive vaultData).

(** ** The Starknet chain adapter: the request entry point and the
    selected-vault wrappers *)

(** What the wrappers and [request] reach besides the collaborators of the
    signing methods: [permissionService.getCurrentChainIdForStarknet]
    (absent for an origin without one) and the getter
    [keyRingService.selectedVaultId]. *)
Class StarknetFrontCollaborators : Type := {
  getCurrentChainIdForStarknet : string -> option string;
  keyRingService_selectedVaultId : result string;
}.

(** [KeyRingStarknetService.getStarknetKeySelected]: the getter is read
    before [getStarknetKey] runs. *)
Definition getStarknetKeySelected `{StarknetCollaborators}
    `{StarknetFrontCollaborators} (chainId : string) : T StarknetKey :=
  let* vaultId := liftResult keyRingService_selectedVaultId in
  getStarknetKey vaultId chainId.

(** The double-quote character, for messages that quote a value. *)
Definition doubleQuote : string := String (Ascii.ascii_of_nat 34) EmptyString.

(** [KeyRingStarknetService.request]; [env.isInternalMsg] is the only part
    of [env] it reads, [_params] is not read. The results are the object
    literals [{ currentChainId, selectedAddress }]. *)
Definition request_ `{StarknetCollaborators} `{StarknetFrontCollaborators}
    (isInternalMsg : bool) (origin type : string) (chainId : option string)
  : T JsValue :=
  if isInternalMsg && negb (isDefined chainId) then
    raise "The chain id must be provided for the internal message."
  else
    match
      match getCurrentChainIdForStarknet origin with
      | Some c => Some c
      | None => chainId
      end
    with
    | None =>
        if String.eqb type "keplr_initStarknetProviderState" then
          ret (JObject [("currentChainId", JNull); ("selectedAddress", JNull)])
        else
          raise (origin +:+
                 " is not permitted. Please disconnect and reconnect to the website.")
    | Some currentChainId =>
        let* key := getStarknetKeySelected currentChainId in
        let selectedAddress := hexAddress key in
        if String.eqb type "keplr_initStarknetProviderState"
           || String.eqb type "keplr_enableStarknetProvider"
        then
          ret (JObject [("currentChainId", JString currentChainId);
                        ("selectedAddress", JString selectedAddress)])
        else
          raise ("The type " +:+ doubleQuote +:+ type +:+ doubleQuote +:+
                 " is not supported.")
    end.

(** [KeyRingStarknetService.signStarknetMessageSelected] *)
Definition signStarknetMessageSelected `{StarknetCollaborators}
    `{StarknetFrontCollaborators}
    (chainId signer : string) (typedData : JsValue) : T (list string) :=
  let* vaultId := liftResult keyRingService_selectedVaultId in
  signStarknetMessage vaultId chainId signer typedData.

(** [KeyRingStarknetService.signStarknetTransactionSelected] *)
Definition signStarknetTransactionSelected `{StarknetCollaborators}
    `{StarknetFrontCollaborators}
    (chainId signer : string) (transactions : JsValue) (details : PlainObject)
  : T (list string) :=
  let* vaultId := liftResult keyRingService_selectedVaultId in
  signStarknetTransaction vaultId chainId signer transactions details.

(** [KeyRingStarknetService.signStarknetDeployAccountTransactionSelected] *)
Definition signStarknetDeployAccountTransactionSelected `{StarknetCollaborators}
    `{StarknetFrontCollaborators}
    (chainId signer : string) (details : PlainObject) : T (list string) :=
  let* vaultId := liftResult keyRingService_selectedVaultId in
  signStarknetDeployAccountTransaction vaultId chainId signer details.

(** [KeyRingStarknetService.signStarknetDeclareTransactionSelected] *)
Definition signStarknetDeclareTransactionSelected `{StarknetCollaborators}
    `{StarknetFrontCollaborators}
    (chainId signer : string) (details : PlainObject) : T (list string) :=
  let* vaultId := liftResult keyRingService_selectedVaultId in
  signStarknetDeclareTransactionn vaultId chainId signer details.

(** ** Vocabulary of the statements *)

(** The state after the secret store was replaced. *)
Definition withVaultService (st : State) (vs : VaultService) : State :=
  {| vaultService := vs;
     _selectedVaultId := _selectedVaultId st;
     dispatched := dispatched st |}.

(** The state after a patch was merged into one entry. *)
Definition merged (st : State) (vaultId : string) (patch : PlainObject) : State :=
  withVaultService st
    (setAndMergeInsensitiveToVault (vaultService st) "keyRing" vaultId patch).

(** The event deletion and selection broadcast. *)
Definition keystoreChanged : DispatchedEvent :=
  {| port := WEBPAGE_PORT; eventType := "keystore-changed" |}.

(** The state a successful [deleteKeyRing] leaves, given what the getter
    returned before the removal. *)
Definition afterDelete (st : State) (vaultId selected : string) : State :=
  let vs := removeVault (vaultService st) "keyRing" vaultId in
  if String.eqb selected vaultId then
    {| vaultService := vs;
       _selectedVaultId :=
         match getVaults vs "keyRing" with
         | first :: _ => Some (id first)
         | [] => None
         end;
       dispatched := dispatched st ++ [keystoreChanged] |}
  else withVaultService st vs.

(** The [insensitive] object of an entry, if the entry exists. *)
Definition insensitiveOf (st : State) (vaultId : string) : option PlainObject :=
  insensitive <$> getVault (vaultService st) "keyRing" vaultId.

(** The stored [keyRingType] of an entry: [None] when there is no such
    entry, [Some None] when the entry lacks the key. *)
Definition keyRingTypeOf (st : State) (vaultId : string) : option (option JsValue) :=
  (fun ins : PlainObject => ins !! "keyRingType") <$> insensitiveOf st vaultId.

(** The orchestrator's operations that write to existing entries, or
    remove one. *)
Inductive Operation : Type :=
| Finalize (vaultId chainId : string) (c : number)
| AppendLedger (vaultId : string) (pubKey : list Byte.byte) (app : string)
| ChangeName (vaultId name : string)
| Sign (chainId vaultId : string) (data : list Byte.byte)
    (digestMethod : DigestMethod)
| Delete (vaultId password : string).

Definition deletes (vaultId : string) (op : Operation) : Prop :=
  match op with
  | Delete v _ => v = vaultId
  | _ => False
  end.

Section Sequences.
Context `{ChainsService} `{ChainIdHelper} `{KeyRings}.

(** The state an operation leaves, whether it returned or threw. *)
Definition perform (op : Operation) (st : State) : State :=
  match op with
  | Finalize vaultId chainId c =>
      snd (finalizeMnemonicKeyCoinType vaultId chainId c st)
  | AppendLedger vaultId pubKey app =>
      snd (appendLedgerKeyRing vaultId pubKey app st)
  | ChangeName vaultId name => snd (changeKeyRingName vaultId name st)
  | Sign chainId vaultId data digestMethod =>
      snd (sign chainId vaultId data digestMethod st)
  | Delete vaultId password => snd (deleteKeyRing vaultId password st)
  end.

Definition performAll (ops : list Operation) (st : State) : State :=
  List.fold_left (fun st op => perform op st) ops st.

End Sequences.

(** An entry is finalized for a tag when it is a mnemonic entry holding a
    truthy value under that tag. *)
Definition finalizedFor (st : State) (vaultId tag : string) : Prop :=
  exists ins,
    insensitiveOf st vaultId = Some ins /\
    strictEqString (prop ins "keyRingType") "mnemonic" = true /\
    truthy (prop ins tag) = true.

(** The tag stored for a chain on an entry, if the entry exists. *)
Definition coinTypeTagOf `{ChainIdHelper} (st : State) (vaultId chainId : string)
  : option (option JsValue) :=
  (fun ins : PlainObject => ins !! coinTypeTag chainId) <$> insensitiveOf st vaultId.

(** The unsigned integer a byte string spells, most significant byte
    first. *)
Fixpoint bigEndian (bytes : list Byte.byte) : N :=
  match bytes with
  | [] => 0%N
  | b :: rest => (Byte.to_N b * 256 ^ N.of_nat (length rest) + bigEndian rest)%N
  end.

(** Thirty-one zero bytes followed by one given byte. *)
Definition paddedByte (b : Byte.byte) : list Byte.byte :=
  (List.repeat Byte.x00 31 ++ [b])%list.

(** The coin type [getPubKey] and [sign] resolve for an entry: the value
    under the chain's tag when it is truthy, the chain's default
    otherwise. *)
Definition effectiveCoinType `{ChainIdHelper} (vault : Vault)
    (chainInfo : ChainInfo) (chainId : string) : JsValue :=
  if truthy (prop (insensitive vault) (coinTypeTag chainId))
  then prop (insensitive vault) (coinTypeTag chainId)
  else JNumber (coinType (bip44 chainInfo)).

(** The state [signUpIfNeeded] leaves when it returns. *)
Definition afterSignUp (st : State) (password : option string) : State :=
  if isSignedUp (vaultService st) then st
  else withVaultService st (signUp (vaultService st) (default "" password)).

(** The state [addAndSelect] leaves when it returns. *)
Definition afterAdd `{VaultStorage} (st : State) (ins sens : PlainObject) : State :=
  {| vaultService :=
       setVaults (vaultService st) "keyRing"
         (getVaults (vaultService st) "keyRing"
          ++ [ {| id := newVaultId (vaultService st);
                  insensitive := ins;
                  sensitive := encrypt sens |} ]);
     _selectedVaultId := Some (newVaultId (vaultService st));
     dispatched := dispatched st ++ [keystoreChanged] |}.

(** The requests that compute a digest. *)
Definition isHashRequest (c : Call) : bool :=
  match c with
  | GetMessageHash _ _
  | CalculateInvokeTransactionHash _
  | CalculateDeployAccountTransactionHash _
  | CalculateDeclareTransactionHash _ => true
  | KeyRingGetPubKey _ _ | KeyRingSign _ _ _ _ => false
  end.

(** What one signing call may send: nothing; the public-key request; then
    one digest request; then one signing request for the same chain and
    vault with the keccak convention. *)
Inductive SigningTrace (chainId vaultId : string) : list Call -> Prop :=
| trace_nothing : SigningTrace chainId vaultId []
| trace_key : SigningTrace chainId vaultId [KeyRingGetPubKey chainId vaultId]
| trace_hash (h : Call) :
    isHashRequest h = true ->
    SigningTrace chainId vaultId [KeyRingGetPubKey chainId vaultId; h]
| trace_signed (h : Call) (data : list Byte.byte) :
    isHashRequest h = true ->
    SigningTrace chainId vaultId
      [KeyRingGetPubKey chainId vaultId; h;
       KeyRingSign chainId vaultId data keccak256].

(** A run that follows [SigningTrace] and, when it returns, has sent all
    three requests. *)
Definition followsSigningTrace (chainId vaultId : string) (sent : list Call)
    (run : result (list string) * list Call) : Prop :=
  exists added,
    snd run = (sent ++ added)%list /\
    SigningTrace chainId vaultId added /\
    (is_thrown (fst run) = false ->
     exists h data,
       added = [KeyRingGetPubKey chainId vaultId; h;
                KeyRingSign chainId vaultId data keccak256]).

(** What a transaction entry point answers when its version or its
    data-availability modes are refused: the throw of the calldata
    compilation, which runs first, or else the refusal itself. *)
Definition refusedWith {A B : Type} (compiled : result A) (e : JsError)
  : result B :=
  match compiled with
  | inl thrown => inl thrown
  | inr _ => inl e
  end.

(** ** A small wallet and fixed collaborators to run the code on *)

Definition cosmoshub : ChainInfo :=
  {| chainId := "cosmoshub-4";
     bip44 := {| coinType := Number.of_Z 118 |};
     alternativeBIP44s := Some [ {| coinType := Number.of_Z 60 |} ] |}.

(** A chain whose default coin type is zero. *)
Definition zerochain : ChainInfo :=
  {| chainId := "zerochain-1";
     bip44 := {| coinType := Number.of_Z 0 |};
     alternativeBIP44s := None |}.

Definition twoChains : ChainsService :=
  {| getChainInfoOrThrow := fun chainId =>
       if String.eqb chainId "cosmoshub-4" then ok cosmoshub
       else if String.eqb chainId "zerochain-1" then ok zerochain
       else throw (Error "There is no chain info") |}.

(** A helper that takes the whole chain id as the identifier. *)
Definition wholeId : ChainIdHelper :=
  {| identifier := fun chainId => chainId |}.

(** A mnemonic strategy whose signature is a fixed byte. *)
Definition mnemonicStrategy : KeyRing :=
  {| supportedKeyRingType := "mnemonic";
     keyRing_sign := fun _ _ _ _ _ => ok (Resolved [Byte.x01]) |}.

Definition oneStrategy : KeyRings := {| keyRings := [mnemonicStrategy] |}.

Definition vaultOf (vaultId type name : string) : Vault :=
  {| id := vaultId;
     insensitive :=
       <["keyRingType" := JString type]> {[ "keyRingName" := JString name ]};
     sensitive := [] |}.

Definition walletOf (locked : bool) (entries : list Vault)
    (selected : option string) : State :=
  {| vaultService :=
       {| isSignedUp := true;
          isLocked := locked;
          userPassword := "correct horse";
          vaultMap := {[ "keyRing" := entries ]} |};
     _selectedVaultId := selected;
     dispatched := [] |}.

(** Two entries, the first one selected, unlocked. *)
Definition wallet : State :=
  walletOf false
    [vaultOf "v1" "mnemonic" "main"; vaultOf "v2" "ledger" "cold"]
    (Some "v1").

(** The wallet of [wallet], locked. *)
Definition lockedWallet : State :=
  walletOf true
    [vaultOf "v1" "mnemonic" "main"; vaultOf "v2" "ledger" "cold"]
    (Some "v1").

Definition someOperations : list Operation :=
  [ ChangeName "v1" "renamed";
    Finalize "v1" "cosmoshub-4" (Number.of_Z 60);
    Sign "cosmoshub-4" "v1" [Byte.x2a] keccak256;
    AppendLedger "v2" [Byte.x01] "Cosmos";
    Delete "v2" "correct horse" ].

(** Collaborators with fixed answers: every chain is a Starknet chain, the
    derived address is [0x0abc], digests and the signature are constants. *)
Definition fixedCollaborators : StarknetCollaborators :=
  {| getModularChainInfoOrThrow := fun _ => ok {| hasStarknet := true |};
     keyRingService_getPubKey := fun _ _ =>
       ok {| toBytes := [Byte.x02];
             getStarknetAddress := fun _ _ => [Byte.x0a; Byte.xbc] |};
     keyRingService_sign := fun _ _ _ _ =>
       ok {| sig_r := paddedByte Byte.x01;
             sig_s := paddedByte Byte.x02;
             sig_v := Some 1 |};
     getMessageHash := fun _ _ => ok "0x1234";
     getExecuteCalldata := fun transactions _ => ok transactions;
     CallData_compile := fun calldata => ok calldata;
     calculateInvokeTransactionHash := fun _ => ok "0xaa";
     calculateDeployAccountTransactionHash := fun _ => ok "0xbb";
     calculateDeclareTransactionHash := fun _ => ok "0xcc";
     Buffer_from_hex := fun _ => [Byte.x12; Byte.x34] |}.

(** A strategy-side public key and a [getPubKey] that resolves to it. *)
Definition fixedPubKey : PubKeySecp256k1 :=
  {| toBytes := [Byte.x02];
     getStarknetAddress := fun _ _ => [Byte.x0a; Byte.xbc] |}.

Definition fixedPubKeys : KeyRingPubKeys :=
  {| keyRing_getPubKey := fun _ _ _ _ => ok (Resolved fixedPubKey) |}.

(** A chain with a single coin type. *)
Definition osmosis : ChainInfo :=
  {| chainId := "osmosis-1";
     bip44 := {| coinType := Number.of_Z 118 |};
     alternativeBIP44s := None |}.

Definition chainList : ChainInfoList :=
  {| getChainInfos := [cosmoshub; osmosis] |}.

Definition threeStrategies : KeyRings :=
  {| keyRings :=
       [ mnemonicStrategy;
         {| supportedKeyRingType := "ledger";
            keyRing_sign := fun _ _ _ _ _ => throw (Error "device not connected") |};
         {| supportedKeyRingType := "private-key";
            keyRing_sign := fun _ _ _ _ _ => ok (Resolved [Byte.x02]) |} ] |}.

(** A strategy side that tries to set the type tag itself. *)
Definition forgingCreation : KeyRingVaultCreation :=
  {| createKeyRingVault := fun _ _ =>
       ok {| vaultData_insensitive :=
               <["keyRingType" := JString "forged"]> {[ "bip44Path" := JNull ]};
             vaultData_sensitive := ∅ |} |}.

Definition fixedStorage : VaultStorage :=
  {| newVaultId := fun _ => "v3"; encrypt := fun _ => [] |}.

Definition goodPath : BIP44HDPath :=
  {| account := Number.of_Z 0; change := Number.of_Z 0;
     addressIndex := Number.of_Z 0 |}.

Definition badPath : BIP44HDPath :=
  {| account := Number.of_Z (-1); change := Number.of_Z 0;
     addressIndex := Number.of_Z 0 |}.

(** The key the fixed collaborators resolve to. *)
Definition fixedKey : StarknetKey :=
  {| hexAddress := "0x0abc"; pubKey := [Byte.x02];
     address := [Byte.x0a; Byte.xbc] |}.

(** Details of a v3-style transaction, and details whose nonce mode is
    not a mode. *)
Definition v3Details : PlainObject :=
  <["version" := JString "0x3"]>
  (<["nonceDataAvailabilityMode" := JString "L1"]>
   (<["feeDataAvailabilityMode" := JString "L2"]> ∅)).

Definition badModeDetails : PlainObject :=
  <["version" := JString "0x3"]>
  (<["nonceDataAvailabilityMode" := JString "L3"]>
   (<["feeDataAvailabilityMode" := JString "L2"]> ∅)).

(** One origin holds a permission, for the chain [SN_MAIN]; the selected
    vault is [v1]. *)
Definition fixedFront : StarknetFrontCollaborators :=
  {| getCurrentChainIdForStarknet := fun origin =>
       if String.eqb origin "https://app.example" then Some "SN_MAIN" else None;
     keyRingService_selectedVaultId := ok "v1" |}.

(** * Properties *)

(** ** Numbers *)

Lemma isInteger_of_Z (z : Z) : Number.isInteger (Number.of_Z z) = true.
Proof.
  unfold Number.isInteger, Number.of_Z.
  rewrite Qred_identity; [reflexivity|].
  simpl. apply Z.gcd_1_r.
Qed.

Lemma ltZero_of_Z (z : Z) : Number.ltZero (Number.of_Z z) = (z <? 0)%Z.
Proof. reflexivity. Qed.

Lemma strictEq_of_Z (a b : Z) :
  Number.strictEq (Number.of_Z a) (Number.of_Z b) = (a =? b)%Z.
Proof.
  unfold Number.strictEq, Number.of_Z, Qeq_bool, inject_Z. simpl.
  now rewrite !Z.mul_1_r.
Qed.

Lemma truthy_of_Z (z : Z) :
  Number.truthy (Number.of_Z z) = negb (z =? 0)%Z.
Proof. reflexivity. Qed.

(** ** Derivation-path validation *)

Lemma validateBIP44Path_ok_iff (p : BIP44HDPath) :
  validateBIP44Path p = ok tt <->
  Number.isInteger (account p) = true /\ Number.ltZero (account p) = false /\
  Number.isInteger (change p) = true /\
  (Number.strictEq (change p) (Number.of_Z 0) = true \/
   Number.strictEq (change p) (Number.of_Z 1) = true) /\
  Number.isInteger (addressIndex p) = true /\
  Number.ltZero (addressIndex p) = false.
Proof.
  unfold validateBIP44Path, throw, ok.
  destruct (Number.isInteger (account p)), (Number.ltZero (account p)),
    (Number.isInteger (change p)),
    (Number.strictEq (change p) (Number.of_Z 0)),
    (Number.strictEq (change p) (Number.of_Z 1)),
    (Number.isInteger (addressIndex p)), (Number.ltZero (addressIndex p));
    simpl; split; intros; try discriminate; try tauto;
    intuition discriminate.
Qed.

(** C8. Derivation-path validation: [account = -1] fails (with "Invalid
    account in hd path") whatever the other two fields hold; [change = 2]
    fails, with "Invalid change in hd path" once the account is valid;
    [addressIndex = -1] fails, with "Invalid address index in hd path" once
    account and change are valid; and every path with a non-negative
    integer account, a change of 0 or 1 and a non-negative integer address
    index passes, in particular with [change = 0] and with [change = 1]. *)
Theorem validateBIP44Path_spec :
  (forall c i : number,
     validateBIP44Path
       {| account := Number.of_Z (-1); change := c; addressIndex := i |}
     = throw (Error "Invalid account in hd path")) /\
  (forall a i : number,
     is_thrown (validateBIP44Path
       {| account := a; change := Number.of_Z 2; addressIndex := i |}) = true) /\
  (forall (a : Z) (i : number), 0 <= a ->
     validateBIP44Path
       {| account := Number.of_Z a; change := Number.of_Z 2; addressIndex := i |}
     = throw (Error "Invalid change in hd path")) /\
  (forall a c : number,
     is_thrown (validateBIP44Path
       {| account := a; change := c; addressIndex := Number.of_Z (-1) |}) = true) /\
  (forall a c : Z, 0 <= a -> c = 0 \/ c = 1 ->
     validateBIP44Path
       {| account := Number.of_Z a; change := Number.of_Z c;
          addressIndex := Number.of_Z (-1) |}
     = throw (Error "Invalid address index in hd path")) /\
  (forall a c i : Z, 0 <= a -> c = 0 \/ c = 1 -> 0 <= i ->
     validateBIP44Path
       {| account := Number.of_Z a; change := Number.of_Z c;
          addressIndex := Number.of_Z i |}
     = ok tt).
Proof.
  refine (conj _ (conj _ (conj _ (conj _ (conj _ _))))).
  - intros c i. reflexivity.
  - intros a i. unfold validateBIP44Path; cbn [account change addressIndex].
    destruct (negb (Number.isInteger a) || Number.ltZero a); reflexivity.
  - intros a i Ha. unfold validateBIP44Path; cbn [account change addressIndex].
    rewrite isInteger_of_Z, ltZero_of_Z.
    destruct (Z.ltb_spec a 0); [lia|]. reflexivity.
  - intros a c. unfold validateBIP44Path; cbn [account change addressIndex].
    destruct (negb (Number.isInteger a) || Number.ltZero a); [reflexivity|].
    destruct (negb (Number.isInteger c) || _); reflexivity.
  - intros a c Ha Hc. unfold validateBIP44Path; cbn [account change addressIndex].
    rewrite !isInteger_of_Z, ltZero_of_Z, !strictEq_of_Z.
    destruct (Z.ltb_spec a 0); [lia|].
    destruct Hc as [-> | ->]; reflexivity.
  - intros a c i Ha Hc Hi. unfold validateBIP44Path; cbn [account change addressIndex].
    rewrite !isInteger_of_Z, !ltZero_of_Z, !strictEq_of_Z.
    destruct (Z.ltb_spec a 0); [lia|].
    destruct (Z.ltb_spec i 0); [lia|].
    destruct Hc as [-> | ->]; reflexivity.
Qed.

Lemma validateBIP44Path_spec_witness :
  validateBIP44Path
    {| account := Number.of_Z 0; change := Number.of_Z 0;
       addressIndex := Number.of_Z 7 |} = ok tt /\
  validateBIP44Path
    {| account := Number.of_Z 3; change := Number.of_Z 1;
       addressIndex := Number.of_Z 0 |} = ok tt /\
  validateBIP44Path
    {| account := Number.of_Z 3; change := Number.of_Z 2;
       addressIndex := Number.of_Z 0 |}
    = throw (Error "Invalid change in hd path").
Proof.
  pose proof validateBIP44Path_spec as (_ & _ & Hchange & _ & _ & Hok).
  split; [| split].
  - apply (Hok 0 0 7); [lia | left; reflexivity | lia].
  - apply (Hok 3 1 0); [lia | right; reflexivity | lia].
  - apply (Hchange 3 (Number.of_Z 0)); lia.
Defined.

(** ** The secret store: lookups after an update *)

Lemma getVaults_setVaults (vs : VaultService) (kind : string) (l : list Vault) :
  getVaults (setVaults vs kind l) kind = l.
Proof. unfold getVaults, setVaults; simpl. by rewrite lookup_insert_eq. Qed.

Lemma isLocked_setVaults (vs : VaultService) (kind : string) (l : list Vault) :
  isLocked (setVaults vs kind l) = isLocked vs.
Proof. reflexivity. Qed.

Lemma find_id_Some (l : list Vault) (v : string) (x : Vault) :
  List.find (fun y => String.eqb (id y) v) l = Some x -> id x = v.
Proof.
  intros H. apply List.find_some in H as [_ H].
  by apply String.eqb_eq in H.
Qed.

Lemma find_id_map (f : Vault -> Vault) (l : list Vault) (v : string) :
  (forall x, id (f x) = id x) ->
  List.find (fun y => String.eqb (id y) v) (List.map f l)
  = f <$> List.find (fun y => String.eqb (id y) v) l.
Proof.
  intros Hid. induction l as [|x l IH]; simpl; [done|].
  rewrite Hid. destruct (String.eqb (id x) v); [done | exact IH].
Qed.

Lemma find_id_filter (l : list Vault) (v w : string) :
  v <> w ->
  List.find (fun y => String.eqb (id y) v)
            (List.filter (fun y => negb (String.eqb (id y) w)) l)
  = List.find (fun y => String.eqb (id y) v) l.
Proof.
  intros Hne. induction l as [|x l IH]; simpl; [done|].
  destruct (String.eqb_spec (id x) w) as [Hw|Hw]; simpl.
  - destruct (String.eqb_spec (id x) v) as [Hv|Hv]; [congruence | exact IH].
  - destruct (String.eqb (id x) v); [done | exact IH].
Qed.

Lemma find_id_filter_same (l : list Vault) (v : string) :
  List.find (fun y => String.eqb (id y) v)
            (List.filter (fun y => negb (String.eqb (id y) v)) l) = None.
Proof.
  induction l as [|x l IH]; simpl; [done|].
  destruct (String.eqb (id x) v) eqn:E; simpl; [exact IH|].
  by rewrite E.
Qed.

Lemma getVault_setAndMerge (vs : VaultService) (vid v : string)
    (patch : PlainObject) :
  getVault (setAndMergeInsensitiveToVault vs "keyRing" vid patch) "keyRing" v
  = (fun x => if String.eqb v vid then mergeInsensitive patch x else x)
      <$> getVault vs "keyRing" v.
Proof.
  unfold getVault, setAndMergeInsensitiveToVault.
  rewrite getVaults_setVaults, find_id_map.
  - destruct (List.find _ (getVaults vs "keyRing")) as [x|] eqn:E; [|done].
    simpl. by rewrite (find_id_Some _ _ _ E).
  - intros x. by destruct (String.eqb (id x) vid).
Qed.

Lemma getVault_removeVault_ne (vs : VaultService) (vid v : string) :
  v <> vid ->
  getVault (removeVault vs "keyRing" vid) "keyRing" v = getVault vs "keyRing" v.
Proof.
  intros Hne. unfold getVault, removeVault.
  rewrite getVaults_setVaults. by apply find_id_filter.
Qed.

Lemma getVault_removeVault_eq (vs : VaultService) (vid : string) :
  getVault (removeVault vs "keyRing" vid) "keyRing" vid = None.
Proof.
  unfold getVault, removeVault.
  rewrite getVaults_setVaults. apply find_id_filter_same.
Qed.

Lemma lookup_spread_singleton_ne (obj : PlainObject) (k k' : string) (x : JsValue) :
  k <> k' -> spread obj {[ k := x ]} !! k' = obj !! k'.
Proof.
  intros Hne. unfold spread.
  rewrite lookup_union_r; [done|]. by apply lookup_singleton_ne.
Qed.

Lemma lookup_spread_singleton_eq (obj : PlainObject) (k : string) (x : JsValue) :
  spread obj {[ k := x ]} !! k = Some x.
Proof.
  unfold spread. apply lookup_union_Some_l. apply lookup_singleton_eq.
Qed.

(** ** Coin-type tags never collide with the fixed keys *)

Section Tags.
Context `{ChainIdHelper}.

Lemma coinTypeTag_not_keyRingType (chainId : string) :
  coinTypeTag chainId <> "keyRingType".
Proof. unfold coinTypeTag; simpl. intros E. inversion E. Qed.

Lemma coinTypeTag_not_keyRingName (chainId : string) :
  coinTypeTag chainId <> "keyRingName".
Proof. unfold coinTypeTag; simpl. intros E. inversion E. Qed.

Lemma coinTypeTag_not_literal (chainId : string) :
  coinTypeTag chainId <> "coinTypeTag".
Proof. unfold coinTypeTag; simpl. intros E. inversion E. Qed.

End Tags.

(** ** The orchestrator's mutating operations, one by one *)

Ltac run_eff :=
  cbv [bind ensureUnlocked get ret raise liftResult modifyVaultService
       setSelectedVaultId dispatchEvent throw ok].

Section Operations.
Context `{ChainsService} `{ChainIdHelper} `{KeyRings}.

(** What a successful finalization did, and that nothing else changes the
    state. *)
Lemma finalize_outcome (vaultId chainId : string) (c : number) (st : State) :
  (exists e, finalizeMnemonicKeyCoinType vaultId chainId c st = (inl e, st)) \/
  (exists vault,
     isLocked (vaultService st) = false /\
     getVault (vaultService st) "keyRing" vaultId = Some vault /\
     strictEqString (prop (insensitive vault) "keyRingType") "mnemonic" = true /\
     truthy (prop (insensitive vault) (coinTypeTag chainId)) = false /\
     finalizeMnemonicKeyCoinType vaultId chainId c st
     = (inr tt, merged st vaultId {[ coinTypeTag chainId := JNumber c ]})).
Proof.
  unfold finalizeMnemonicKeyCoinType. run_eff.
  destruct (isLocked (vaultService st)) eqn:Hl; [left; eauto|].
  destruct (getChainInfoOrThrow chainId) as [e|chainInfo]; [left; eauto|].
  destruct (coinTypeNotAssociated chainInfo c); [left; eauto|].
  destruct (getVault (vaultService st) "keyRing" vaultId) as [vault|] eqn:Hv;
    [|left; eauto].
  destruct (strictEqString _ "mnemonic") eqn:Hm; cbn [negb]; [|left; eauto].
  destruct (truthy _) eqn:Ht; [left; eauto|].
  right. exists vault. auto.
Qed.

Lemma appendLedger_outcome (vaultId : string) (pubKey : list Byte.byte)
    (app : string) (st : State) :
  (exists e, appendLedgerKeyRing vaultId pubKey app st = (inl e, st)) \/
  (exists vault,
     getVault (vaultService st) "keyRing" vaultId = Some vault /\
     strictEqString (prop (insensitive vault) "keyRingType") "ledger" = true /\
     truthy (prop (insensitive vault) app) = false /\
     appendLedgerKeyRing vaultId pubKey app st
     = (inr tt,
        merged st vaultId
          {[ app := JObject [("pubKey", JString (toHexString pubKey))] ]})).
Proof.
  unfold appendLedgerKeyRing. run_eff.
  destruct (getVault (vaultService st) "keyRing" vaultId) as [vault|] eqn:Hv;
    [|left; eauto].
  destruct (strictEqString _ "ledger") eqn:Hm; cbn [negb]; [|left; eauto].
  destruct (truthy _) eqn:Ht; [left; eauto|].
  right. exists vault. auto.
Qed.

Lemma changeKeyRingName_outcome (vaultId name : string) (st : State) :
  (exists e, changeKeyRingName vaultId name st = (inl e, st)) \/
  changeKeyRingName vaultId name st
  = (inr tt, merged st vaultId {[ "keyRingName" := JString name ]}).
Proof.
  unfold changeKeyRingName. run_eff.
  destruct (isLocked (vaultService st)); [left; eauto|].
  destruct (getVault (vaultService st) "keyRing" vaultId); [|left; eauto].
  by right.
Qed.

(** Signing either throws before it wrote anything, or merges one patch
    whose only key is the literal ["coinTypeTag"]; this happens whether the
    strategy's promise resolved or was rejected. *)
Lemma sign_outcome (chainId vaultId : string) (data : list Byte.byte)
    (digestMethod : DigestMethod) (st : State) :
  (exists e, sign chainId vaultId data digestMethod st = (inl e, st)) \/
  (exists signature x,
     getVault (vaultService st) "keyRing" vaultId <> None /\
     sign chainId vaultId data digestMethod st
     = (inr signature, merged st vaultId {[ "coinTypeTag" := x ]})).
Proof.
  unfold sign, signWithVault, getVaultKeyRing. run_eff.
  destruct (isLocked (vaultService st)) eqn:Hl; [left; eauto|].
  destruct (getChainInfoOrThrow chainId) as [e|chainInfo]; [left; eauto|].
  destruct (getVault (vaultService st) "keyRing" vaultId) as [vault|] eqn:Hv;
    [|left; eauto].
  rewrite Hl.
  destruct (List.find _ keyRings) as [keyRing|]; cbn [negb]; [|left; eauto].
  destruct (keyRing_sign keyRing vault _ data digestMethod chainInfo)
    as [e|signature]; cbn [negb]; [left; eauto|].
  right. rewrite (find_id_Some _ _ _ Hv).
  eexists _, _. split; [discriminate | exact eq_refl].
Qed.

End Operations.

(** ** Selection and deletion *)

(** The getter never writes. *)
Lemma selectedVaultId_pure (st : State) : snd (selectedVaultId st) = st.
Proof.
  unfold selectedVaultId. run_eff.
  destruct (_selectedVaultId st) as [sel|].
  - destruct (negb (String.eqb sel "") && _); [reflexivity|].
    destruct (getVaults (vaultService st) "keyRing"); reflexivity.
  - destruct (getVaults (vaultService st) "keyRing"); reflexivity.
Qed.

(** With at least one entry the getter returns. *)
Lemma selectedVaultId_returns (st : State) (vaultId : string) (vault : Vault) :
  getVault (vaultService st) "keyRing" vaultId = Some vault ->
  exists sel, selectedVaultId st = (inr sel, st).
Proof.
  intros Hv. unfold selectedVaultId. run_eff.
  assert (Hne : getVaults (vaultService st) "keyRing" <> []).
  { intros E. unfold getVault in Hv. rewrite E in Hv. discriminate. }
  destruct (_selectedVaultId st) as [sel|].
  - destruct (negb (String.eqb sel "") && _); [eauto|].
    destruct (getVaults (vaultService st) "keyRing"); [congruence | eauto].
  - destruct (getVaults (vaultService st) "keyRing"); [congruence | eauto].
Qed.

Lemma deleteKeyRing_outcome (vaultId password : string) (st : State) :
  (exists e, deleteKeyRing vaultId password st = (inl e, st)) \/
  (exists vault selected,
     isLocked (vaultService st) = false /\
     getVault (vaultService st) "keyRing" vaultId = Some vault /\
     checkUserPassword (vaultService st) password = inr tt /\
     selectedVaultId st = (inr selected, st) /\
     deleteKeyRing vaultId password st
     = (inr (String.eqb selected vaultId), afterDelete st vaultId selected)).
Proof.
  unfold deleteKeyRing.
  cbv [bind ensureUnlocked get ret raise liftResult throw ok].
  destruct (isLocked (vaultService st)) eqn:Hl; [left; eauto|].
  destruct (getVault (vaultService st) "keyRing" vaultId) as [vault|] eqn:Hv;
    [|left; eauto].
  destruct (checkUserPassword (vaultService st) password) as [e|[]] eqn:Hp;
    [left; eauto|].
  destruct (selectedVaultId_returns st vaultId vault Hv) as [selected Hs].
  rewrite Hs. right. exists vault, selected.
  repeat (split; [reflexivity|]).
  unfold afterDelete.
  destruct (String.eqb selected vaultId); [|reflexivity].
  unfold getKeyInfos.
  cbv [bind get ret modifyVaultService setSelectedVaultId dispatchEvent ok].
  cbn [vaultService _selectedVaultId dispatched].
  destruct (getVaults (removeVault (vaultService st) "keyRing" vaultId) "keyRing");
    reflexivity.
Qed.

Lemma eqb_selected_iff (st : State) (selected vaultId : string) :
  selectedVaultId st = (inr selected, st) ->
  String.eqb selected vaultId = true <-> selectedVaultId st = (inr vaultId, st).
Proof.
  intros Hs. rewrite Hs, String.eqb_eq. split; [congruence|].
  intros E. by inversion E.
Qed.

Lemma deleteKeyRing_succeeds
    (st : State) (vaultId password : string) (vault : Vault) :
  isLocked (vaultService st) = false ->
  getVault (vaultService st) "keyRing" vaultId = Some vault ->
  checkUserPassword (vaultService st) password = ok tt ->
  exists selected,
    selectedVaultId st = (inr selected, st) /\
    deleteKeyRing vaultId password st
    = (inr (String.eqb selected vaultId), afterDelete st vaultId selected).
Proof.
  intros Hl Hv Hp.
  destruct (deleteKeyRing_outcome vaultId password st)
    as [[e He] | (vault' & selected & _ & _ & _ & Hs & Hd)]; [|eauto].
  exfalso. revert He. unfold deleteKeyRing.
  cbv [bind ensureUnlocked get ret raise liftResult throw ok].
  rewrite Hl, Hv. unfold ok in Hp. rewrite Hp.
  destruct (selectedVaultId_returns st vaultId vault Hv) as [sel Hsel].
  rewrite Hsel.
  cbv [bind get ret modifyVaultService setSelectedVaultId dispatchEvent ok].
  destruct (String.eqb sel vaultId).
  - unfold getKeyInfos. cbv [bind get ret setSelectedVaultId ok].
    cbn [vaultService].
    destruct (getVaults _ "keyRing"); discriminate.
  - discriminate.
Qed.

(** C7. In an unlocked state, deleting an existing entry with the correct
    password returns and removes exactly that entry. When the deleted
    entry was the selected one (as the getter resolves it), the selection
    becomes the id of the first remaining entry, which exists, or becomes
    absent when none remains; the "keystore-changed" event is dispatched
    exactly when the deleted entry was the selected one. *)
Theorem deleteKeyRing_reselects
    (st : State) (vaultId password : string) (vault : Vault) :
  isLocked (vaultService st) = false ->
  getVault (vaultService st) "keyRing" vaultId = Some vault ->
  checkUserPassword (vaultService st) password = ok tt ->
  exists (wasSelected : bool) (st' : State),
    deleteKeyRing vaultId password st = (ok wasSelected, st') /\
    (wasSelected = true <-> selectedVaultId st = (ok vaultId, st)) /\
    getVaults (vaultService st') "keyRing"
    = List.filter (fun v => negb (String.eqb (id v) vaultId))
                  (getVaults (vaultService st) "keyRing") /\
    dispatched st'
    = (dispatched st ++ (if wasSelected then [keystoreChanged] else []))%list /\
    (wasSelected = true ->
     match getVaults (vaultService st') "keyRing" with
     | first :: _ =>
         _selectedVaultId st' = Some (id first) /\
         getVault (vaultService st') "keyRing" (id first) = Some first
     | [] => _selectedVaultId st' = None
     end) /\
    (wasSelected = false -> _selectedVaultId st' = _selectedVaultId st).
Proof.
  intros Hl Hv Hp.
  destruct (deleteKeyRing_succeeds st vaultId password vault Hl Hv Hp)
    as (selected & Hs & Hd).
  exists (String.eqb selected vaultId), (afterDelete st vaultId selected).
  split; [exact Hd|]. split; [by apply eqb_selected_iff|].
  unfold afterDelete.
  destruct (String.eqb selected vaultId); cbn [vaultService _selectedVaultId dispatched withVaultService].
  + split; [apply getVaults_setVaults|]. split; [reflexivity|].
    split; [|discriminate]. intros _.
    destruct (getVaults (removeVault (vaultService st) "keyRing" vaultId) "keyRing")
      as [|first rest] eqn:E; [reflexivity|].
    split; [reflexivity|].
    unfold getVault. rewrite E. cbn [List.find].
    by rewrite String.eqb_refl.
  + split; [apply getVaults_setVaults|]. split; [by rewrite app_nil_r|].
    split; [discriminate | reflexivity].
Qed.

(** C10. In an unlocked state and for an existing entry, whenever
    [deleteKeyRing] returns, the boolean it returns is [true] exactly when
    the getter [selectedVaultId] resolved to the deleted entry before the
    removal; and it does return when the password is the store's. *)
Theorem deleteKeyRing_returns_wasSelected
    (st : State) (vaultId password : string) :
  isLocked (vaultService st) = false ->
  getVault (vaultService st) "keyRing" vaultId <> None ->
  (forall (b : bool) (st' : State),
     deleteKeyRing vaultId password st = (ok b, st') ->
     (b = true <-> selectedVaultId st = (ok vaultId, st))) /\
  (checkUserPassword (vaultService st) password = ok tt ->
   exists (b : bool) (st' : State),
     deleteKeyRing vaultId password st = (ok b, st')).
Proof.
  intros Hl Hv. split.
  - intros b st' Hd.
    destruct (deleteKeyRing_outcome vaultId password st)
      as [[e He] | (vault' & selected & _ & _ & _ & Hs & Hd')].
    + rewrite He in Hd. discriminate.
    + rewrite Hd' in Hd. inversion Hd; subst.
      by apply eqb_selected_iff.
  - intros Hp.
    destruct (getVault (vaultService st) "keyRing" vaultId) as [vault|] eqn:E;
      [|congruence].
    destruct (deleteKeyRing_succeeds st vaultId password vault Hl E Hp)
      as (selected & _ & Hd).
    eauto.
Qed.

(** ** Deletion run on the small wallet *)

Lemma deleteKeyRing_reselects_witness :
  exists (wasSelected : bool) (st' : State),
    deleteKeyRing "v1" "correct horse" wallet = (ok wasSelected, st') /\
    (wasSelected = true <-> selectedVaultId wallet = (ok "v1", wallet)) /\
    getVaults (vaultService st') "keyRing"
    = List.filter (fun v => negb (String.eqb (id v) "v1"))
                  (getVaults (vaultService wallet) "keyRing") /\
    dispatched st'
    = (dispatched wallet ++ (if wasSelected then [keystoreChanged] else []))%list /\
    (wasSelected = true ->
     match getVaults (vaultService st') "keyRing" with
     | first :: _ =>
         _selectedVaultId st' = Some (id first) /\
         getVault (vaultService st') "keyRing" (id first) = Some first
     | [] => _selectedVaultId st' = None
     end) /\
    (wasSelected = false -> _selectedVaultId st' = _selectedVaultId wallet).
Proof.
  apply (deleteKeyRing_reselects wallet "v1" "correct horse"
           (vaultOf "v1" "mnemonic" "main")); reflexivity.
Defined.

Lemma deleteKeyRing_returns_wasSelected_witness :
  (forall (b : bool) (st' : State),
     deleteKeyRing "v2" "correct horse" wallet = (ok b, st') ->
     (b = true <-> selectedVaultId wallet = (ok "v2", wallet))) /\
  (checkUserPassword (vaultService wallet) "correct horse" = ok tt ->
   exists (b : bool) (st' : State),
     deleteKeyRing "v2" "correct horse" wallet = (ok b, st')).
Proof.
  apply (deleteKeyRing_returns_wasSelected wallet "v2" "correct horse").
  - reflexivity.
  - vm_compute. discriminate.
Defined.

(** Deleting the selected first entry of [wallet] returns [true], selects
    the remaining entry and broadcasts once; deleting the other entry
    returns [false] and broadcasts nothing. *)
Example deleteKeyRing_selected_run :
  let (r, st') := deleteKeyRing "v1" "correct horse" wallet in
  r = ok true /\ _selectedVaultId st' = Some "v2" /\
  dispatched st' = [keystoreChanged].
Proof. vm_compute. repeat split. Qed.

Example deleteKeyRing_other_run :
  let (r, st') := deleteKeyRing "v2" "correct horse" wallet in
  r = ok false /\ _selectedVaultId st' = Some "v1" /\ dispatched st' = [].
Proof. vm_compute. repeat split. Qed.

(** ** Sequences of mutating operations *)

Section SequenceFacts.
Context `{ChainsService} `{ChainIdHelper} `{KeyRings}.

Lemma insensitiveOf_merged (st : State) (vid v : string) (patch : PlainObject) :
  insensitiveOf (merged st vid patch) v
  = (fun ins => if String.eqb v vid then spread ins patch else ins)
      <$> insensitiveOf st v.
Proof.
  unfold insensitiveOf, merged, withVaultService; cbn [vaultService].
  rewrite getVault_setAndMerge.
  destruct (getVault (vaultService st) "keyRing" v) as [x|]; [|done].
  simpl. by destruct (String.eqb v vid).
Qed.

(** Merging a one-key patch leaves every other key of every entry alone. *)
Lemma lookup_merged_ne (st : State) (vid v k k' : string) (x : JsValue) :
  k <> k' ->
  (fun ins : PlainObject => ins !! k') <$> insensitiveOf (merged st vid {[ k := x ]}) v
  = (fun ins : PlainObject => ins !! k') <$> insensitiveOf st v.
Proof.
  intros Hne. rewrite insensitiveOf_merged.
  destruct (insensitiveOf st v) as [ins|]; [|done]. simpl.
  destruct (String.eqb v vid); [|done].
  by rewrite lookup_spread_singleton_ne.
Qed.

Lemma insensitiveOf_afterDelete (st : State) (vid sel v : string) :
  v <> vid -> insensitiveOf (afterDelete st vid sel) v = insensitiveOf st v.
Proof.
  intros Hne. unfold insensitiveOf, afterDelete.
  destruct (String.eqb sel vid); cbn [vaultService withVaultService];
    by rewrite getVault_removeVault_ne.
Qed.

Lemma strictEqString_true (x : JsValue) (s : string) :
  strictEqString x s = true -> x = JString s.
Proof.
  destruct x; simpl; try discriminate.
  intros E. apply String.eqb_eq in E. by subst.
Qed.

(** One operation that does not delete the entry keeps its [keyRingType]. *)
Lemma perform_keyRingType (op : Operation) (st : State) (v : string) :
  ~ deletes v op -> keyRingTypeOf (perform op st) v = keyRingTypeOf st v.
Proof.
  intros Hnd. unfold keyRingTypeOf.
  destruct op as [vid cid c | vid pk app | vid name | cid vid data dm | vid pw];
    cbn [perform].
  - destruct (finalize_outcome vid cid c st) as [[e ->] | (x & _ & _ & _ & _ & ->)];
      [done|]. cbn [snd].
    apply lookup_merged_ne, coinTypeTag_not_keyRingType.
  - destruct (appendLedger_outcome vid pk app st)
      as [[e ->] | (x & Hv & Hty & Hfalsy & ->)]; [done|]. cbn [snd].
    apply lookup_merged_ne. intros ->.
    apply strictEqString_true in Hty. rewrite Hty in Hfalsy. discriminate.
  - destruct (changeKeyRingName_outcome vid name st) as [[e ->] | ->]; [done|].
    cbn [snd]. by apply lookup_merged_ne.
  - destruct (sign_outcome cid vid data dm st)
      as [[e ->] | (sg & x & _ & ->)]; [done|]. cbn [snd].
    by apply lookup_merged_ne.
  - destruct (deleteKeyRing_outcome vid pw st)
      as [[e ->] | (x & sel & _ & _ & _ & _ & ->)]; [done|]. cbn [snd].
    rewrite insensitiveOf_afterDelete; [done|].
    intros ->. by apply Hnd.
Qed.

(** Every operation keeps the lock state. *)
Lemma perform_isLocked (op : Operation) (st : State) :
  isLocked (vaultService (perform op st)) = isLocked (vaultService st).
Proof.
  destruct op as [vid cid c | vid pk app | vid name | cid vid data dm | vid pw];
    cbn [perform].
  - by destruct (finalize_outcome vid cid c st) as [[e ->] | (x & _ & _ & _ & _ & ->)].
  - by destruct (appendLedger_outcome vid pk app st)
      as [[e ->] | (x & _ & _ & _ & ->)].
  - by destruct (changeKeyRingName_outcome vid name st) as [[e ->] | ->].
  - by destruct (sign_outcome cid vid data dm st) as [[e ->] | (sg & x & _ & ->)].
  - destruct (deleteKeyRing_outcome vid pw st)
      as [[e ->] | (x & sel & _ & _ & _ & _ & ->)]; [done|].
    cbn [snd]. unfold afterDelete. by destruct (String.eqb sel vid).
Qed.

(** C9. Along any sequence of [finalizeMnemonicKeyCoinType],
    [appendLedgerKeyRing], [changeKeyRingName], [sign] and [deleteKeyRing]
    calls, none of which deletes the entry itself, the entry stays and its
    [keyRingType] is the one it started with. *)
Theorem keyRingType_immutable (ops : list Operation) (st : State) (v : string) :
  Forall (fun op => ~ deletes v op) ops ->
  keyRingTypeOf (performAll ops st) v = keyRingTypeOf st v.
Proof.
  intros Hops. revert st.
  induction Hops as [|op ops Hop _ IH]; intros st; [reflexivity|].
  cbn [performAll List.fold_left]. fold (performAll ops (perform op st)).
  rewrite IH. by apply perform_keyRingType.
Qed.

End SequenceFacts.

(** ** Coin-type finalization *)

Lemma prop_spread_singleton_ne (obj : PlainObject) (k k' : string) (x : JsValue) :
  k <> k' -> prop (spread obj {[ k := x ]}) k' = prop obj k'.
Proof. intros Hne. unfold prop. by rewrite lookup_spread_singleton_ne. Qed.

Lemma prop_spread_singleton_eq (obj : PlainObject) (k : string) (x : JsValue) :
  prop (spread obj {[ k := x ]}) k = x.
Proof. unfold prop. by rewrite lookup_spread_singleton_eq. Qed.

Lemma finalizedFor_merged (st : State) (vid v k tag : string) (x : JsValue) :
  (v = vid -> k <> "keyRingType" /\ k <> tag) ->
  finalizedFor st v tag -> finalizedFor (merged st vid {[ k := x ]}) v tag.
Proof.
  intros Hk (ins & Hins & Hty & Htag). unfold finalizedFor.
  rewrite insensitiveOf_merged, Hins. simpl.
  destruct (String.eqb_spec v vid) as [E|E]; [|eauto].
  destruct (Hk E) as [Hk1 Hk2].
  eexists. split; [reflexivity|].
  by rewrite !prop_spread_singleton_ne.
Qed.

Section Finalization.
Context `{ChainsService} `{ChainIdHelper} `{KeyRings}.

Lemma finalize_establishes (vaultId chainId : string) (c : number)
    (st st' : State) :
  finalizeMnemonicKeyCoinType vaultId chainId c st = (ok tt, st') ->
  Number.truthy c = true ->
  isLocked (vaultService st') = false /\
  finalizedFor st' vaultId (coinTypeTag chainId).
Proof.
  intros Hrun Hc.
  destruct (finalize_outcome vaultId chainId c st)
    as [[e He] | (x & Hl & Hv & Hty & _ & Hfin)].
  { rewrite He in Hrun. discriminate. }
  rewrite Hfin in Hrun. inversion Hrun; subst st'. split; [exact Hl|].
  unfold finalizedFor. rewrite insensitiveOf_merged.
  unfold insensitiveOf. rewrite Hv. simpl. rewrite String.eqb_refl.
  eexists. split; [reflexivity|]. split.
  - rewrite prop_spread_singleton_ne; [exact Hty|].
    apply coinTypeTag_not_keyRingType.
  - by rewrite prop_spread_singleton_eq.
Qed.

Lemma perform_finalizedFor (op : Operation) (st : State) (v chainId : string) :
  ~ deletes v op ->
  finalizedFor st v (coinTypeTag chainId) ->
  finalizedFor (perform op st) v (coinTypeTag chainId).
Proof.
  intros Hnd Hfin.
  destruct op as [vid cid c | vid pk app | vid name | cid vid data dm | vid pw];
    cbn [perform].
  - destruct (finalize_outcome vid cid c st)
      as [[e ->] | (x & _ & Hv & _ & Hfalsy & ->)]; [done|]. cbn [snd].
    apply finalizedFor_merged; [|done]. intros ->.
    split; [apply coinTypeTag_not_keyRingType|]. intros E.
    destruct Hfin as (ins & Hins & _ & Htag).
    unfold insensitiveOf in Hins. rewrite Hv in Hins. simpl in Hins.
    inversion Hins; subst ins. rewrite E in Hfalsy. congruence.
  - destruct (appendLedger_outcome vid pk app st)
      as [[e ->] | (x & Hv & Hty & _ & ->)]; [done|]. cbn [snd].
    apply finalizedFor_merged; [|done]. intros ->. exfalso.
    destruct Hfin as (ins & Hins & Hmn & _).
    unfold insensitiveOf in Hins. rewrite Hv in Hins. simpl in Hins.
    inversion Hins; subst ins.
    apply strictEqString_true in Hty, Hmn. congruence.
  - destruct (changeKeyRingName_outcome vid name st) as [[e ->] | ->]; [done|].
    cbn [snd]. apply finalizedFor_merged; [|done]. intros _.
    split; [done|]. intros E. by apply (coinTypeTag_not_keyRingName chainId).
  - destruct (sign_outcome cid vid data dm st)
      as [[e ->] | (sg & x & _ & ->)]; [done|]. cbn [snd].
    apply finalizedFor_merged; [|done]. intros _.
    split; [done|]. intros E. by apply (coinTypeTag_not_literal chainId).
  - destruct (deleteKeyRing_outcome vid pw st)
      as [[e ->] | (x & sel & _ & _ & _ & _ & ->)]; [done|]. cbn [snd].
    unfold finalizedFor. rewrite insensitiveOf_afterDelete; [done|].
    intros ->. by apply Hnd.
Qed.

Lemma performAll_finalizedFor (ops : list Operation) (st : State)
    (v chainId : string) :
  Forall (fun op => ~ deletes v op) ops ->
  isLocked (vaultService st) = false ->
  finalizedFor st v (coinTypeTag chainId) ->
  isLocked (vaultService (performAll ops st)) = false /\
  finalizedFor (performAll ops st) v (coinTypeTag chainId).
Proof.
  intros Hops. revert st.
  induction Hops as [|op ops Hop _ IH]; intros st Hl Hfin; [done|].
  cbn [performAll List.fold_left]. fold (performAll ops (perform op st)).
  apply IH.
  - by rewrite perform_isLocked.
  - by apply perform_finalizedFor.
Qed.

(** On a finalized pair a further finalization throws and writes nothing:
    the coin-type guard comes first, the already-finalized guard after
    it. *)
Lemma finalize_again (vaultId chainId : string) (c : number)
    (chainInfo : ChainInfo) (st : State) :
  isLocked (vaultService st) = false ->
  finalizedFor st vaultId (coinTypeTag chainId) ->
  getChainInfoOrThrow chainId = ok chainInfo ->
  finalizeMnemonicKeyCoinType vaultId chainId c st
  = (throw (Error (if coinTypeNotAssociated chainInfo c
                   then "Coin type is not associated to chain"
                   else "Coin type is already finalized")), st).
Proof.
  intros Hl (ins & Hins & Hty & Htag) Hci.
  unfold insensitiveOf in Hins.
  destruct (getVault (vaultService st) "keyRing" vaultId) as [x|] eqn:Hv;
    [|discriminate].
  simpl in Hins. inversion Hins; subst ins.
  unfold finalizeMnemonicKeyCoinType. run_eff.
  rewrite Hl. unfold ok in Hci. rewrite Hci.
  destruct (coinTypeNotAssociated chainInfo c); [reflexivity|].
  by rewrite Hv, Hty, Htag.
Qed.

Lemma need_finalize_false (vaultId chainId : string) (st : State) :
  isLocked (vaultService st) = false ->
  finalizedFor st vaultId (coinTypeTag chainId) ->
  needMnemonicKeyCoinTypeFinalize vaultId chainId st = (ok false, st).
Proof.
  intros Hl (ins & Hins & Hty & Htag).
  unfold insensitiveOf in Hins.
  destruct (getVault (vaultService st) "keyRing" vaultId) as [x|] eqn:Hv;
    [|discriminate].
  simpl in Hins. inversion Hins; subst ins.
  unfold needMnemonicKeyCoinTypeFinalize. run_eff.
  by rewrite Hl, Hv, Hty, Htag.
Qed.

End Finalization.

Section FinalizationClaims.
Context `{ChainsService} `{ChainIdHelper} `{KeyRings}.

(** A finalization that returned was given a coin type of the chain. *)
Lemma finalize_returned_associated (vaultId chainId : string) (c : number)
    (st st' : State) :
  finalizeMnemonicKeyCoinType vaultId chainId c st = (ok tt, st') ->
  exists chainInfo,
    getChainInfoOrThrow chainId = ok chainInfo /\
    coinTypeNotAssociated chainInfo c = false.
Proof.
  unfold finalizeMnemonicKeyCoinType. run_eff.
  destruct (isLocked (vaultService st)); [discriminate|].
  destruct (getChainInfoOrThrow chainId) as [e|chainInfo]; [discriminate|].
  destruct (coinTypeNotAssociated chainInfo c) eqn:E; [discriminate|].
  eauto.
Qed.

(** C1, as the code has it. Once [finalizeMnemonicKeyCoinType] returned
    for a pair with a non-zero coin type, then after any further sequence
    of the orchestrator's writing operations that does not delete the
    entry: a call with the same coin type throws "Coin type is already
    finalized"; a call with any coin type throws and writes nothing, with
    "Coin type is already finalized" when the coin type is the chain's
    default or an alternative and with "Coin type is not associated to
    chain" otherwise; and [needMnemonicKeyCoinTypeFinalize] returns
    [false]. *)
Theorem finalize_once (vaultId chainId : string) (c : number)
    (st st' : State) (ops : list Operation) :
  finalizeMnemonicKeyCoinType vaultId chainId c st = (ok tt, st') ->
  Number.truthy c = true ->
  Forall (fun op => ~ deletes vaultId op) ops ->
  finalizeMnemonicKeyCoinType vaultId chainId c (performAll ops st')
  = (throw (Error "Coin type is already finalized"), performAll ops st') /\
  (exists chainInfo,
     getChainInfoOrThrow chainId = ok chainInfo /\
     forall c' : number,
       finalizeMnemonicKeyCoinType vaultId chainId c' (performAll ops st')
       = (throw (Error (if coinTypeNotAssociated chainInfo c'
                        then "Coin type is not associated to chain"
                        else "Coin type is already finalized")),
          performAll ops st')) /\
  needMnemonicKeyCoinTypeFinalize vaultId chainId (performAll ops st')
  = (ok false, performAll ops st').
Proof.
  intros Hrun Hc Hops.
  destruct (finalize_returned_associated _ _ _ _ _ Hrun) as (chainInfo & Hci & Hassoc).
  destruct (finalize_establishes _ _ _ _ _ Hrun Hc) as [Hl Hfin].
  destruct (performAll_finalizedFor ops st' vaultId chainId Hops Hl Hfin)
    as [Hl' Hfin'].
  split; [|split].
  - rewrite (finalize_again vaultId chainId c chainInfo _ Hl' Hfin' Hci).
    by rewrite Hassoc.
  - exists chainInfo. split; [exact Hci|]. intros c'.
    by apply finalize_again.
  - by apply need_finalize_false.
Qed.

(** C6. With the key ring unlocked, as finalization requires, a coin type
    that is neither the chain's default nor one of its alternatives makes
    [finalizeMnemonicKeyCoinType] throw "Coin type is not associated to
    chain" and leave the whole state as it was, entries and selection
    included; this holds for every vault id, whether or not it has an
    entry, since the coin-type guard comes before the vault lookup. *)
Theorem finalize_unsupported_coinType (vaultId chainId : string) (c : number)
    (chainInfo : ChainInfo) (st : State) :
  isLocked (vaultService st) = false ->
  getChainInfoOrThrow chainId = ok chainInfo ->
  Number.strictEq (coinType (bip44 chainInfo)) c = false ->
  (forall path, In path (default [] (alternativeBIP44s chainInfo)) ->
                Number.strictEq (coinType path) c = false) ->
  finalizeMnemonicKeyCoinType vaultId chainId c st
  = (throw (Error "Coin type is not associated to chain"), st).
Proof.
  intros Hl Hci Hdef Halt.
  assert (Hna : coinTypeNotAssociated chainInfo c = true).
  { unfold coinTypeNotAssociated. rewrite Hdef. simpl.
    destruct (List.find _ _) as [path|] eqn:E; [|reflexivity].
    apply List.find_some in E as [Hin Heq].
    rewrite (Halt path Hin) in Heq. discriminate. }
  unfold finalizeMnemonicKeyCoinType. run_eff.
  unfold ok in Hci. by rewrite Hl, Hci, Hna.
Qed.

(** C2. A call to [sign], whatever it returns, leaves the coin-type tag
    [keyRing-<identifier>-coinType] of every chain on every entry as it
    was, the target entry included: the patch it merges has the literal
    key ["coinTypeTag"], which is no chain's tag. *)
Theorem sign_keeps_coinTypeTags (chainId vaultId : string)
    (data : list Byte.byte) (digestMethod : DigestMethod) (st : State)
    (v chainId' : string) :
  coinTypeTagOf (snd (sign chainId vaultId data digestMethod st)) v chainId'
  = coinTypeTagOf st v chainId'.
Proof.
  unfold coinTypeTagOf.
  destruct (sign_outcome chainId vaultId data digestMethod st)
    as [[e ->] | (sg & x & _ & ->)]; [done|]. cbn [snd].
  apply lookup_merged_ne. intros E.
  by apply (coinTypeTag_not_literal chainId').
Qed.

(** What [sign] does write: the key ["coinTypeTag"] of the target entry. *)
Lemma sign_writes_literal_key (chainId vaultId : string)
    (data : list Byte.byte) (digestMethod : DigestMethod) (st st' : State)
    (signature : Promise (list Byte.byte)) :
  sign chainId vaultId data digestMethod st = (ok signature, st') ->
  exists ins x,
    insensitiveOf st' vaultId = Some ins /\ ins !! "coinTypeTag" = Some x.
Proof.
  intros Hrun.
  destruct (sign_outcome chainId vaultId data digestMethod st)
    as [[e He] | (sg & x & Hv & Hs)].
  { rewrite He in Hrun. discriminate. }
  rewrite Hs in Hrun. inversion Hrun; subst.
  rewrite insensitiveOf_merged. unfold insensitiveOf.
  destruct (getVault (vaultService st) "keyRing" vaultId) as [vault|]; [|done].
  simpl. rewrite String.eqb_refl.
  eexists _, x. split; [reflexivity|]. apply lookup_spread_singleton_eq.
Qed.

End FinalizationClaims.

(** ** The operations run on the small wallet *)

Lemma someOperations_keep (v : string) :
  v <> "v2" -> Forall (fun op => ~ deletes v op) someOperations.
Proof.
  intros Hne. unfold someOperations.
  repeat (apply List.Forall_cons; [simpl; first [tauto | congruence]|]).
  apply List.Forall_nil.
Qed.

Lemma keyRingType_immutable_witness :
  keyRingTypeOf
    (@performAll twoChains wholeId oneStrategy someOperations wallet) "v1"
  = keyRingTypeOf wallet "v1".
Proof.
  apply (@keyRingType_immutable twoChains wholeId oneStrategy
           someOperations wallet "v1").
  apply someOperations_keep. discriminate.
Defined.

(** The operations of [someOperations] do run: the name changes, the
    coin type 60 is stored, signing adds its literal key, and the type
    tag stays. *)
Example someOperations_run :
  let st := @performAll twoChains wholeId oneStrategy someOperations wallet in
  let field (k : string) :=
    (fun ins : PlainObject => ins !! k) <$> insensitiveOf st "v1" in
  field "keyRingType" = Some (Some (JString "mnemonic")) /\
  field "keyRingName" = Some (Some (JString "renamed")) /\
  field "keyRing-cosmoshub-4-coinType" = Some (Some (JNumber (Number.of_Z 60))) /\
  field "coinTypeTag" = Some (Some (JNumber (Number.of_Z 60))) /\
  insensitiveOf st "v2" = None.
Proof. vm_compute. repeat split. Qed.

Lemma finalize_once_witness :
  let st' :=
    snd (@finalizeMnemonicKeyCoinType twoChains wholeId
           "v1" "cosmoshub-4" (Number.of_Z 118) wallet) in
  let st'' := @performAll twoChains wholeId oneStrategy someOperations st' in
  @finalizeMnemonicKeyCoinType twoChains wholeId
    "v1" "cosmoshub-4" (Number.of_Z 118) st''
  = (throw (Error "Coin type is already finalized"), st'') /\
  (exists chainInfo,
     @getChainInfoOrThrow twoChains "cosmoshub-4" = ok chainInfo /\
     forall c' : number,
       @finalizeMnemonicKeyCoinType twoChains wholeId "v1" "cosmoshub-4" c' st''
       = (throw (Error (if coinTypeNotAssociated chainInfo c'
                        then "Coin type is not associated to chain"
                        else "Coin type is already finalized")), st'')) /\
  @needMnemonicKeyCoinTypeFinalize wholeId "v1" "cosmoshub-4" st''
  = (ok false, st'').
Proof.
  apply (@finalize_once twoChains wholeId oneStrategy
           "v1" "cosmoshub-4" (Number.of_Z 118) wallet).
  - reflexivity.
  - reflexivity.
  - apply someOperations_keep. discriminate.
Defined.

(** C1 as stated fails: after a finalization that returned, a second call
    with a coin type the chain does not list throws "Coin type is not
    associated to chain", not "Coin type is already finalized". *)
Lemma finalize_again_unsupported_counterexample :
  let first :=
    @finalizeMnemonicKeyCoinType twoChains wholeId
      "v1" "cosmoshub-4" (Number.of_Z 118) wallet in
  let second :=
    @finalizeMnemonicKeyCoinType twoChains wholeId
      "v1" "cosmoshub-4" (Number.of_Z 999) (snd first) in
  fst first = ok tt /\
  fst second = throw (Error "Coin type is not associated to chain") /\
  fst second <> throw (Error "Coin type is already finalized").
Proof.
  vm_compute. split; [reflexivity|]. split; [reflexivity|]. discriminate.
Qed.

(** The falsy coin type: on a chain whose coin type is [0] the stored tag
    is [0], the guard [if (vault.insensitive[coinTypeTag])] does not see
    it, a second finalization returns again and the pair still counts as
    in need of finalization. *)
Example finalize_zero_coinType_twice :
  let first :=
    @finalizeMnemonicKeyCoinType twoChains wholeId
      "v1" "zerochain-1" (Number.of_Z 0) wallet in
  let second :=
    @finalizeMnemonicKeyCoinType twoChains wholeId
      "v1" "zerochain-1" (Number.of_Z 0) (snd first) in
  fst first = ok tt /\ fst second = ok tt /\
  fst (@needMnemonicKeyCoinTypeFinalize wholeId "v1" "zerochain-1" (snd first))
  = ok true.
Proof. vm_compute. repeat split. Qed.

Lemma finalize_unsupported_coinType_witness :
  @finalizeMnemonicKeyCoinType twoChains wholeId
    "v1" "cosmoshub-4" (Number.of_Z 999) wallet
  = (throw (Error "Coin type is not associated to chain"), wallet).
Proof.
  apply (@finalize_unsupported_coinType twoChains wholeId
           "v1" "cosmoshub-4" (Number.of_Z 999) cosmoshub wallet).
  - reflexivity.
  - reflexivity.
  - reflexivity.
  - intros path [<- | []]. reflexivity.
Defined.

(** On a locked key ring the lock guard answers first, before the coin
    type is looked at; the state is as it was there too. *)
Example finalize_unsupported_locked_run :
  coinTypeNotAssociated cosmoshub (Number.of_Z 999) = true /\
  @finalizeMnemonicKeyCoinType twoChains wholeId
    "v1" "cosmoshub-4" (Number.of_Z 999) lockedWallet
  = (throw (Error "KeyRing is locked"), lockedWallet).
Proof. split; reflexivity. Qed.

(** A signing call that returns: the strategy's promise comes back, the
    chain's tag stays absent and the literal key holds the coin type. *)
Example sign_run :
  let (r, st') :=
    @sign twoChains wholeId oneStrategy "cosmoshub-4" "v1" [Byte.x2a] keccak256
      wallet in
  r = ok (Resolved [Byte.x01]) /\
  @coinTypeTagOf wholeId st' "v1" "cosmoshub-4" = Some None /\
  (fun ins : PlainObject => ins !! "coinTypeTag") <$> insensitiveOf st' "v1"
  = Some (Some (JNumber (Number.of_Z 118))).
Proof. vm_compute. repeat split. Qed.

(** ** Signature re-encoding *)

Lemma hexDigitValue_hexDigit (n : N) :
  (n < 16)%N -> hexDigitValue (hexDigit n) = Some n.
Proof.
  intros Hn.
  assert (Hcases : In n (List.map N.of_nat (List.seq 0 16))).
  { apply List.in_map_iff. exists (N.to_nat n). split; [lia|].
    apply List.in_seq. lia. }
  simpl in Hcases.
  repeat (destruct Hcases as [<- | Hcases]; [reflexivity|]).
  destruct Hcases.
Qed.

Lemma byte_to_N_lt (b : Byte.byte) : (Byte.to_N b < 256)%N.
Proof. destruct b; reflexivity. Qed.

Lemma parseHexDigits_toHexString (bytes : list Byte.byte) (acc : N) :
  parseHexDigits acc (toHexString bytes)
  = Some (acc * 256 ^ N.of_nat (length bytes) + bigEndian bytes)%N.
Proof.
  revert acc. induction bytes as [|b rest IH]; intros acc.
  - simpl. f_equal. lia.
  - pose proof (byte_to_N_lt b) as Hb.
    cbn [toHexString parseHexDigits].
    rewrite !hexDigitValue_hexDigit.
    + rewrite IH. f_equal. cbn [length bigEndian].
      rewrite Nat2N.inj_succ, N.pow_succ_r'.
      pose proof (N.div_mod (Byte.to_N b) 16 ltac:(lia)) as Hdm.
      set (hi := (Byte.to_N b / 16)%N) in *.
      set (lo := (Byte.to_N b mod 16)%N) in *.
      rewrite Hdm. ring.
    + apply N.mod_lt. lia.
    + apply N.Div0.div_lt_upper_bound. lia.
Qed.

Lemma bigEndian_lt (bytes : list Byte.byte) :
  (bigEndian bytes < 256 ^ N.of_nat (length bytes))%N.
Proof.
  induction bytes as [|b rest IH]; [reflexivity|].
  cbn [length bigEndian]. rewrite Nat2N.inj_succ, N.pow_succ_r'.
  pose proof (byte_to_N_lt b). nia.
Qed.

Lemma bigEndian_app (a b : list Byte.byte) :
  bigEndian (a ++ b)
  = (bigEndian a * 256 ^ N.of_nat (length b) + bigEndian b)%N.
Proof.
  induction a as [|x a IH]; [simpl; lia|].
  cbn [app bigEndian]. rewrite IH, length_app, Nat2N.inj_add, N.pow_add_r.
  ring.
Qed.

Lemma append_0x (text : string) :
  "0x" +:+ text = String "0" (String "x" text).
Proof. reflexivity. Qed.

Lemma BigInt_toHexString (bytes : list Byte.byte) :
  bytes <> [] ->
  BigInt ("0x" +:+ toHexString bytes) = ok (Z.of_N (bigEndian bytes)).
Proof.
  intros Hne. destruct bytes as [|b rest]; [congruence|].
  pose proof (parseHexDigits_toHexString (b :: rest) 0) as Hp.
  cbn [toHexString] in *. unfold BigInt. rewrite append_0x. cbv beta iota.
  rewrite Hp. unfold ok. do 2 f_equal; lia.
Qed.

(** The limbs [CairoUint256] computes for up to 32 bytes. *)
Lemma CairoUint256_new_bytes (bytes : list Byte.byte) :
  bytes <> [] -> (length bytes <= 32)%nat ->
  CairoUint256_new ("0x" +:+ toHexString bytes)
  = ok {| low := Z.of_N (bigEndian bytes) mod 2 ^ 128;
          high := Z.of_N (bigEndian bytes) / 2 ^ 128 |}.
Proof.
  intros Hne Hlen. unfold CairoUint256_new, CairoUint256_validate.
  rewrite BigInt_toHexString by exact Hne. unfold ok.
  pose proof (bigEndian_lt bytes) as Hlt.
  assert (Hpow : (256 ^ N.of_nat (length bytes) <= 256 ^ 32)%N).
  { apply N.pow_le_mono_r; lia. }
  assert (Hmax : (256 ^ 32)%N = Z.to_N (2 ^ 256)) by reflexivity.
  assert (0 <= Z.of_N (bigEndian bytes) < 2 ^ 256) as [H0 H256] by lia.
  unfold UINT_256_MIN, UINT_256_MAX, UINT_128_MAX.
  destruct (Z.ltb_spec (Z.of_N (bigEndian bytes)) 0); [lia|].
  destruct (Z.ltb_spec (2 ^ 256 - 1) (Z.of_N (bigEndian bytes))); [lia|].
  f_equal. f_equal.
  - change (2 ^ 128 - 1) with (Z.ones 128). apply Z.land_ones. lia.
  - apply Z.shiftr_div_pow2. lia.
Qed.

(** For exactly 32 bytes the limbs are the two halves of the byte
    string. *)
Lemma limbs_of_32_bytes (bytes : list Byte.byte) :
  length bytes = 32%nat ->
  Z.of_N (bigEndian bytes) mod 2 ^ 128 = Z.of_N (bigEndian (skipn 16 bytes)) /\
  Z.of_N (bigEndian bytes) / 2 ^ 128 = Z.of_N (bigEndian (firstn 16 bytes)).
Proof.
  intros Hlen.
  rewrite <- (firstn_skipn 16 bytes) at 1 3.
  rewrite bigEndian_app.
  assert (Hs : length (skipn 16 bytes) = 16%nat) by (rewrite length_skipn; lia).
  pose proof (bigEndian_lt (skipn 16 bytes)) as Hlt.
  rewrite Hs in *.
  change (256 ^ N.of_nat 16)%N with (Z.to_N (2 ^ 128)) in *.
  set (hi := bigEndian (firstn 16 bytes)) in *.
  set (lo := bigEndian (skipn 16 bytes)) in *.
  assert (E : Z.of_N (hi * Z.to_N (2 ^ 128) + lo) = Z.of_N hi * 2 ^ 128 + Z.of_N lo)
    by lia.
  rewrite E. split.
  - rewrite Z.add_comm, Z.mod_add by lia. apply Z.mod_small. lia.
  - rewrite Z.add_comm, Z.div_add by lia. rewrite Z.div_small; lia.
Qed.

Lemma formatEthSignature_limbs (r s : list Byte.byte) (v : Z) :
  r <> [] -> s <> [] -> (length r <= 32)%nat -> (length s <= 32)%nat ->
  formatEthSignature {| sig_r := r; sig_s := s; sig_v := Some v |}
  = ok [ "0x" +:+ toString16 (Z.of_N (bigEndian r) mod 2 ^ 128);
         "0x" +:+ toString16 (Z.of_N (bigEndian r) / 2 ^ 128);
         "0x" +:+ toString16 (Z.of_N (bigEndian s) mod 2 ^ 128);
         "0x" +:+ toString16 (Z.of_N (bigEndian s) / 2 ^ 128);
         "0x" +:+ toString16 v ].
Proof.
  intros Hr Hs Hlr Hls. unfold formatEthSignature. cbn [sig_r sig_s sig_v].
  rewrite !CairoUint256_new_bytes by assumption.
  reflexivity.
Qed.

(** C3. Re-encoding a raw signature: without a recovery indicator it
    throws "Invalid signature"; with one, and with [r] and [s] of 32 bytes
    each, it returns the five fields [r-low, r-high, s-low, s-high, v] as
    [0x]-prefixed hexadecimal text, where the low limb is the integer
    spelled by the last 16 bytes and the high limb the integer spelled by
    the first 16 bytes, that is the value modulo and divided by [2^128];
    for [r = 0x00..01], [s = 0x00..02] and indicator 1 the fields are
    [0x1, 0x0, 0x2, 0x0, 0x1]. *)
Theorem formatEthSignature_spec :
  (forall r s : list Byte.byte,
     formatEthSignature {| sig_r := r; sig_s := s; sig_v := None |}
     = throw (Error "Invalid signature")) /\
  (forall (r s : list Byte.byte) (v : Z),
     length r = 32%nat -> length s = 32%nat ->
     formatEthSignature {| sig_r := r; sig_s := s; sig_v := Some v |}
     = ok [ "0x" +:+ toString16 (Z.of_N (bigEndian (skipn 16 r)));
            "0x" +:+ toString16 (Z.of_N (bigEndian (firstn 16 r)));
            "0x" +:+ toString16 (Z.of_N (bigEndian (skipn 16 s)));
            "0x" +:+ toString16 (Z.of_N (bigEndian (firstn 16 s)));
            "0x" +:+ toString16 v ] /\
     Z.of_N (bigEndian (skipn 16 r)) = Z.of_N (bigEndian r) mod 2 ^ 128 /\
     Z.of_N (bigEndian (firstn 16 r)) = Z.of_N (bigEndian r) / 2 ^ 128 /\
     Z.of_N (bigEndian (skipn 16 s)) = Z.of_N (bigEndian s) mod 2 ^ 128 /\
     Z.of_N (bigEndian (firstn 16 s)) = Z.of_N (bigEndian s) / 2 ^ 128) /\
  formatEthSignature
    {| sig_r := paddedByte Byte.x01; sig_s := paddedByte Byte.x02;
       sig_v := Some 1 |}
  = ok [ "0x1"; "0x0"; "0x2"; "0x0"; "0x1" ].
Proof.
  split; [reflexivity|]. split.
  - intros r s v Hr Hs.
    destruct (limbs_of_32_bytes r Hr) as [Hrl Hrh].
    destruct (limbs_of_32_bytes s Hs) as [Hsl Hsh].
    rewrite <- Hrl, <- Hrh, <- Hsl, <- Hsh.
    split; [|done].
    apply formatEthSignature_limbs.
    + intros ->. discriminate.
    + intros ->. discriminate.
    + lia.
    + lia.
  - vm_compute. reflexivity.
Qed.

Lemma formatEthSignature_spec_witness :
  formatEthSignature
    {| sig_r := List.repeat Byte.xff 32;
       sig_s := (List.repeat Byte.x00 16 ++ List.repeat Byte.x11 16)%list;
       sig_v := Some 0 |}
  = ok [ "0xffffffffffffffffffffffffffffffff";
         "0xffffffffffffffffffffffffffffffff";
         "0x11111111111111111111111111111111";
         "0x0";
         "0x0" ].
Proof.
  destruct formatEthSignature_spec as (_ & Hlimbs & _).
  destruct (Hlimbs (List.repeat Byte.xff 32)
              (List.repeat Byte.x00 16 ++ List.repeat Byte.x11 16)%list 0
              eq_refl eq_refl) as [Hrun _].
  exact Hrun.
Defined.

(** Outside 32 bytes the constructor of [CairoUint256] may refuse: no byte
    gives a text without digits, 33 bytes may exceed the range. *)
Example formatEthSignature_empty_r :
  formatEthSignature
    {| sig_r := []; sig_s := paddedByte Byte.x02; sig_v := Some 1 |}
  = throw (SyntaxError "Cannot convert 0x to a BigInt").
Proof. vm_compute. reflexivity. Qed.

Example formatEthSignature_long_r :
  formatEthSignature
    {| sig_r := List.repeat Byte.x01 33; sig_s := paddedByte Byte.x02;
       sig_v := Some 1 |}
  = throw (Error "bigNumberish is bigger than UINT_256_MAX").
Proof. vm_compute. reflexivity. Qed.

(** ** The signer check and the version branch *)

Lemma intDAM_L1 : intDAM (JString "L1") = ok 0.
Proof. reflexivity. Qed.

Lemma intDAM_L2 : intDAM (JString "L2") = ok 1.
Proof. reflexivity. Qed.

Lemma intDAM_other (dam : JsValue) :
  dam <> JString "L1" -> dam <> JString "L2" ->
  intDAM dam = throw (Error "EDAM conversion").
Proof.
  intros H1 H2. unfold intDAM.
  destruct (strictEqString dam "L1") eqn:E1.
  { apply strictEqString_true in E1. contradiction. }
  destruct (strictEqString dam "L2") eqn:E2.
  { apply strictEqString_true in E2. contradiction. }
  reflexivity.
Qed.

(** The two enumerations share no value, so the order of the two tests
    does not matter. *)
Lemma ruleSetOf_V3 (version : JsValue) :
  includes ETransactionVersion3 version = true -> ruleSetOf version = Some V3Rules.
Proof.
  unfold ruleSetOf, includes, ETransactionVersion3. cbn [List.existsb].
  rewrite orb_false_r. intros Hv.
  apply orb_true_iff in Hv as [Hv | Hv];
    apply strictEqString_true in Hv; subst version; reflexivity.
Qed.

Section Adapter.
Context `{StarknetCollaborators}.

Ltac run_adapter :=
  cbv [bind get ret raise liftResult request throw ok].

(** Resolving the key sends one request, for the public key, or none. *)
Lemma getStarknetKey_sent (vaultId chainId : string) (key : StarknetKey)
    (sent sent' : list Call) :
  getStarknetKey vaultId chainId sent = (ok key, sent') ->
  sent' = (sent ++ [KeyRingGetPubKey chainId vaultId])%list.
Proof.
  unfold getStarknetKey. run_adapter.
  destruct (getModularChainInfoOrThrow chainId) as [e|chainInfo]; [discriminate|].
  destruct (negb (hasStarknet chainInfo)); [discriminate|].
  destruct (keyRingService_getPubKey chainId vaultId) as [e|pk]; [discriminate|].
  intros E. by inversion E.
Qed.

(** C5. When the address derived from the target vault is not the claimed
    signer, each of the four signing entry points throws "Invalid signer";
    the only request sent by then is the one for the public key, so no
    digest routine was called, no signing request reached the key ring and
    no signature comes back. *)
Theorem signer_mismatch_rejected (vaultId chainId signer : string)
    (key : StarknetKey) (sent sent' : list Call) :
  getStarknetKey vaultId chainId sent = (ok key, sent') ->
  hexAddress key <> signer ->
  sent' = (sent ++ [KeyRingGetPubKey chainId vaultId])%list /\
  (forall typedData,
     signStarknetMessage vaultId chainId signer typedData sent
     = (throw (Error "Invalid signer"), sent')) /\
  (forall transactions details,
     signStarknetTransaction vaultId chainId signer transactions details sent
     = (throw (Error "Invalid signer"), sent')) /\
  (forall details,
     signStarknetDeployAccountTransaction vaultId chainId signer details sent
     = (throw (Error "Invalid signer"), sent')) /\
  (forall details,
     signStarknetDeclareTransactionn vaultId chainId signer details sent
     = (throw (Error "Invalid signer"), sent')).
Proof.
  intros Hkey Hne.
  assert (Hneq : String.eqb (hexAddress key) signer = false)
    by (by apply String.eqb_neq).
  split; [by eapply getStarknetKey_sent|].
  unfold ok in Hkey.
  refine (conj _ (conj _ (conj _ _))); intros;
    [ unfold signStarknetMessage | unfold signStarknetTransaction
    | unfold signStarknetDeployAccountTransaction
    | unfold signStarknetDeclareTransactionn ];
    unfold bind at 1; rewrite Hkey, Hneq; reflexivity.
Qed.

(** The version branch of [signStarknetTransaction], once the signer
    matched and the calldata compiled: a v2-style version sends the
    literal with [senderAddress], [compiledCalldata] and [version] to the
    hash routine; a v3-style version sends the same literal with the two
    data-availability modes replaced by their numbers; any other version
    throws before a digest routine is called. *)
Lemma signStarknetTransaction_branch (vaultId chainId signer : string)
    (transactions compiledCalldata : JsValue) (details : PlainObject)
    (key : StarknetKey) (sent sent' : list Call) :
  getStarknetKey vaultId chainId sent = (ok key, sent') ->
  hexAddress key = signer ->
  getExecuteCalldata transactions (prop details "cairoVersion") = ok compiledCalldata ->
  let args :=
    <["version" := prop details "version"]>
    (<["compiledCalldata" := compiledCalldata]>
     (<["senderAddress" := prop details "walletAddress"]> details)) in
  match ruleSetOf (prop details "version") with
  | Some V2Rules =>
      signStarknetTransaction vaultId chainId signer transactions details sent
      = bind (request (CalculateInvokeTransactionHash args)
                      (calculateInvokeTransactionHash args))
             (signDigest chainId vaultId) sent'
  | Some V3Rules =>
      forall nonceMode feeMode,
        intDAM (prop details "nonceDataAvailabilityMode") = ok nonceMode ->
        intDAM (prop details "feeDataAvailabilityMode") = ok feeMode ->
        let args3 :=
          <["feeDataAvailabilityMode" := JNumber (Number.of_Z feeMode)]>
          (<["nonceDataAvailabilityMode" := JNumber (Number.of_Z nonceMode)]>
           args) in
        signStarknetTransaction vaultId chainId signer transactions details sent
        = bind (request (CalculateInvokeTransactionHash args3)
                        (calculateInvokeTransactionHash args3))
               (signDigest chainId vaultId) sent'
  | None =>
      signStarknetTransaction vaultId chainId signer transactions details sent
      = (throw (Error "unsupported signTransaction version"), sent')
  end.
Proof.
  intros Hkey Hsigner Hcd args.
  assert (Heq : String.eqb (hexAddress key) signer = true)
    by (by apply String.eqb_eq).
  unfold ok in Hkey, Hcd. subst args.
  unfold ruleSetOf, signStarknetTransaction. run_adapter.
  rewrite Hkey, Heq. cbn [negb]. rewrite Hcd.
  destruct (includes ETransactionVersion2 (prop details "version")).
  - reflexivity.
  - destruct (includes ETransactionVersion3 (prop details "version")).
    + intros nonceMode feeMode Hn Hf.
      unfold withDAModes. rewrite Hn, Hf. reflexivity.
    + reflexivity.
Qed.

End Adapter.

(** ** The adapter run against the fixed collaborators *)

Lemma signer_mismatch_rejected_witness :
  let sent' := [KeyRingGetPubKey "SN_MAIN" "v1"] in
  sent' = ([] ++ [KeyRingGetPubKey "SN_MAIN" "v1"])%list /\
  (forall typedData,
     @signStarknetMessage fixedCollaborators "v1" "SN_MAIN" "0xdead" typedData []
     = (throw (Error "Invalid signer"), sent')) /\
  (forall transactions details,
     @signStarknetTransaction fixedCollaborators
       "v1" "SN_MAIN" "0xdead" transactions details []
     = (throw (Error "Invalid signer"), sent')) /\
  (forall details,
     @signStarknetDeployAccountTransaction fixedCollaborators
       "v1" "SN_MAIN" "0xdead" details []
     = (throw (Error "Invalid signer"), sent')) /\
  (forall details,
     @signStarknetDeclareTransactionn fixedCollaborators
       "v1" "SN_MAIN" "0xdead" details []
     = (throw (Error "Invalid signer"), sent')).
Proof.
  apply (@signer_mismatch_rejected fixedCollaborators "v1" "SN_MAIN" "0xdead"
           {| hexAddress := "0x0abc"; pubKey := [Byte.x02];
              address := [Byte.x0a; Byte.xbc] |} []).
  - reflexivity.
  - discriminate.
Defined.

(** With the matching signer the message is hashed, the digest signed
    with the keccak convention and the signature re-encoded; the three
    requests go out in that order. *)
Example signStarknetMessage_run :
  @signStarknetMessage fixedCollaborators "v1" "SN_MAIN" "0x0abc" JNull []
  = (ok [ "0x1"; "0x0"; "0x2"; "0x0"; "0x1" ],
     [ KeyRingGetPubKey "SN_MAIN" "v1";
       GetMessageHash JNull "0x0abc";
       KeyRingSign "SN_MAIN" "v1" [Byte.x12; Byte.x34] keccak256 ]).
Proof. vm_compute. reflexivity. Qed.

(** A version outside both enumerations is refused before any digest
    routine is called. *)
Example signStarknetTransaction_unsupported_run :
  @signStarknetTransaction fixedCollaborators "v1" "SN_MAIN" "0x0abc"
    (JArray []) {[ "version" := JString "0x4" ]} []
  = (throw (Error "unsupported signTransaction version"),
     [ KeyRingGetPubKey "SN_MAIN" "v1" ]).
Proof. vm_compute. reflexivity. Qed.

(** * Further properties of the orchestrator *)

(** ** The selection getter and [selectKeyRing] *)

Lemma getVault_head (vs : VaultService) (v : Vault) (rest : list Vault) :
  getVaults vs "keyRing" = v :: rest ->
  getVault vs "keyRing" (id v) = Some v.
Proof.
  intros E. unfold getVault. rewrite E. cbn [List.find].
  by rewrite String.eqb_refl.
Qed.

Lemma selectedVaultId_empty (st : State) :
  getVaults (vaultService st) "keyRing" = [] ->
  selectedVaultId st = (throw (Error "Key ring is empty"), st).
Proof.
  intros E. unfold selectedVaultId. run_eff. unfold getVault. rewrite E.
  destruct (_selectedVaultId st) as [sel|]; [|reflexivity].
  cbn [List.find isDefined]. by rewrite andb_false_r.
Qed.

Lemma selectedVaultId_fallback (st : State) (first : Vault) (rest : list Vault) :
  getVaults (vaultService st) "keyRing" = first :: rest ->
  (forall sel, _selectedVaultId st = Some sel ->
               sel = "" \/ getVault (vaultService st) "keyRing" sel = None) ->
  selectedVaultId st = (ok (id first), st).
Proof.
  intros E Hstale. unfold selectedVaultId. run_eff.
  destruct (_selectedVaultId st) as [sel|]; [|by rewrite E].
  destruct (Hstale sel eq_refl) as [-> | Hv].
  - cbn [String.eqb negb andb]. by rewrite E.
  - rewrite Hv, andb_false_r. by rewrite E.
Qed.

(** X1. The getter [selectedVaultId] writes nothing. It throws "Key ring is
    empty" exactly when there is no key-ring entry; otherwise it returns
    the id of an existing entry: the stored selection when that is a
    non-empty id of an existing entry, the id of the first entry in every
    other case. *)
Theorem selectedVaultId_spec (st : State) :
  (getVaults (vaultService st) "keyRing" = [] ->
   selectedVaultId st = (throw (Error "Key ring is empty"), st)) /\
  (getVaults (vaultService st) "keyRing" <> [] ->
   exists sel vault,
     selectedVaultId st = (ok sel, st) /\
     getVault (vaultService st) "keyRing" sel = Some vault) /\
  (forall sel vault,
     _selectedVaultId st = Some sel -> sel <> "" ->
     getVault (vaultService st) "keyRing" sel = Some vault ->
     selectedVaultId st = (ok sel, st)) /\
  (forall first rest,
     getVaults (vaultService st) "keyRing" = first :: rest ->
     (forall sel, _selectedVaultId st = Some sel ->
                  sel = "" \/ getVault (vaultService st) "keyRing" sel = None) ->
     selectedVaultId st = (ok (id first), st)).
Proof.
  refine (conj _ (conj _ (conj _ _))).
  - apply selectedVaultId_empty.
  - intros Hne. unfold selectedVaultId. run_eff.
    destruct (_selectedVaultId st) as [sel|].
    + destruct (getVault (vaultService st) "keyRing" sel) as [vault|] eqn:Hv.
      * destruct (negb (String.eqb sel "")); cbn [andb isDefined].
        { eauto. }
        destruct (getVaults (vaultService st) "keyRing") as [|v rest] eqn:E;
          [congruence|].
        exists (id v), v. split; [reflexivity|]. by eapply getVault_head.
      * rewrite andb_false_r.
        destruct (getVaults (vaultService st) "keyRing") as [|v rest] eqn:E;
          [congruence|].
        exists (id v), v. split; [reflexivity|]. by eapply getVault_head.
    + destruct (getVaults (vaultService st) "keyRing") as [|v rest] eqn:E;
        [congruence|].
      exists (id v), v. split; [reflexivity|]. by eapply getVault_head.
  - intros sel vault Hsel Hne Hv. unfold selectedVaultId. run_eff.
    rewrite Hsel, Hv. apply String.eqb_neq in Hne. by rewrite Hne.
  - intros first rest. apply selectedVaultId_fallback.
Qed.

Lemma selectedVaultId_spec_witness :
  exists sel vault,
    selectedVaultId wallet = (ok sel, wallet) /\
    getVault (vaultService wallet) "keyRing" sel = Some vault.
Proof.
  destruct (selectedVaultId_spec wallet) as (_ & Hsome & _).
  apply Hsome. discriminate.
Defined.

(** X2. [selectKeyRing] throws "KeyRing is locked" when locked and "Unknown
    vault" for an id without entry, and then changes nothing. Otherwise it
    stores the id as selection, dispatches "keystore-changed" once and
    leaves the secret store alone; for a non-empty id the getter then
    returns that id. *)
Theorem selectKeyRing_spec (vaultId : string) (st : State) :
  (isLocked (vaultService st) = true ->
   selectKeyRing vaultId st = (throw (Error "KeyRing is locked"), st)) /\
  (isLocked (vaultService st) = false ->
   getVault (vaultService st) "keyRing" vaultId = None ->
   selectKeyRing vaultId st = (throw (Error "Unknown vault"), st)) /\
  (forall vault,
     isLocked (vaultService st) = false ->
     getVault (vaultService st) "keyRing" vaultId = Some vault ->
     let st' :=
       {| vaultService := vaultService st;
          _selectedVaultId := Some vaultId;
          dispatched := dispatched st ++ [keystoreChanged] |} in
     selectKeyRing vaultId st = (ok tt, st') /\
     (vaultId <> "" -> selectedVaultId st' = (ok vaultId, st'))).
Proof.
  refine (conj _ (conj _ _)).
  - intros Hl. unfold selectKeyRing. run_eff. by rewrite Hl.
  - intros Hl Hv. unfold selectKeyRing. run_eff. by rewrite Hl, Hv.
  - intros vault Hl Hv st'. split.
    + unfold selectKeyRing. run_eff. by rewrite Hl, Hv.
    + intros Hne. unfold selectedVaultId. run_eff. subst st'.
      cbn [_selectedVaultId vaultService]. rewrite Hv.
      apply String.eqb_neq in Hne. by rewrite Hne.
Qed.

Lemma selectKeyRing_spec_witness :
  let st' :=
    {| vaultService := vaultService wallet;
       _selectedVaultId := Some "v2";
       dispatched := dispatched wallet ++ [keystoreChanged] |} in
  selectKeyRing "v2" wallet = (ok tt, st') /\
  ("v2" <> "" -> selectedVaultId st' = (ok "v2", st')).
Proof.
  destruct (selectKeyRing_spec "v2" wallet) as (_ & _ & Hok).
  apply (Hok (vaultOf "v2" "ledger" "cold")); reflexivity.
Defined.

(** ** Key infos *)

Lemma find_keyInfo_map (f : Vault -> KeyInfo) (l : list Vault) (v : string) :
  (forall x, keyInfo_id (f x) = id x) ->
  List.find (fun k => String.eqb (keyInfo_id k) v) (List.map f l)
  = f <$> List.find (fun y => String.eqb (id y) v) l.
Proof.
  intros Hid. induction l as [|x l IH]; simpl; [done|].
  rewrite Hid. destruct (String.eqb (id x) v); [done | exact IH].
Qed.

(** X3. [getKeyInfo] answers for exactly the ids [getVault] knows, writes
    nothing, and describes the same entry: its id, its [keyRingName] and
    [keyRingType] fields and its whole [insensitive] object; the
    [isSelected] flag compares the id with the stored selection. *)
Theorem getKeyInfo_spec (vaultId : string) (st : State) :
  getKeyInfo vaultId st
  = (ok ((fun vault =>
            {| keyInfo_id := vaultId;
               keyInfo_name := prop (insensitive vault) "keyRingName";
               keyInfo_type := prop (insensitive vault) "keyRingType";
               keyInfo_isSelected := isSelectedId (_selectedVaultId st) vaultId;
               keyInfo_insensitive := insensitive vault |})
           <$> getVault (vaultService st) "keyRing" vaultId),
     st).
Proof.
  unfold getKeyInfo, getKeyInfos. run_eff.
  rewrite find_keyInfo_map by reflexivity. unfold getVault.
  destruct (List.find _ (getVaults (vaultService st) "keyRing")) as [x|] eqn:E;
    [|reflexivity].
  cbn [fmap option_fmap option_map]. by rewrite (find_id_Some _ _ _ E).
Qed.

(** X4. The [isSelected] flags follow the stored selection, not the
    getter: when nothing is stored, or the stored id has no entry, no
    key info is flagged, although the getter still resolves to the first
    entry. *)
Theorem getKeyInfos_stale_selection (st : State) (first : Vault)
    (rest : list Vault) :
  getVaults (vaultService st) "keyRing" = first :: rest ->
  (forall sel, _selectedVaultId st = Some sel ->
               getVault (vaultService st) "keyRing" sel = None) ->
  exists keyInfos,
    getKeyInfos st = (ok keyInfos, st) /\
    length keyInfos = S (length rest) /\
    Forall (fun keyInfo => keyInfo_isSelected keyInfo = false) keyInfos /\
    selectedVaultId st = (ok (id first), st).
Proof.
  intros E Hstale. eexists. split; [reflexivity|].
  split; [by rewrite length_map, E|]. split.
  - apply List.Forall_forall. intros k Hin.
    apply List.in_map_iff in Hin as (x & <- & Hx). cbn [keyInfo_isSelected].
    destruct (_selectedVaultId st) as [sel|] eqn:Hsel; [|reflexivity].
    cbn [isSelectedId]. destruct (String.eqb_spec sel (id x)) as [->|]; [|done].
    specialize (Hstale _ eq_refl). unfold getVault in Hstale.
    apply List.find_none with (x := x) in Hstale; [|exact Hx].
    by rewrite String.eqb_refl in Hstale.
  - apply (selectedVaultId_fallback st first rest E).
    intros sel Hsel. right. by apply Hstale.
Qed.

Lemma getKeyInfos_stale_selection_witness :
  exists keyInfos,
    getKeyInfos (walletOf false [vaultOf "v1" "mnemonic" "main"] (Some "gone"))
    = (ok keyInfos,
       walletOf false [vaultOf "v1" "mnemonic" "main"] (Some "gone")) /\
    length keyInfos = 1%nat /\
    Forall (fun keyInfo => keyInfo_isSelected keyInfo = false) keyInfos /\
    selectedVaultId (walletOf false [vaultOf "v1" "mnemonic" "main"] (Some "gone"))
    = (ok "v1", walletOf false [vaultOf "v1" "mnemonic" "main"] (Some "gone")).
Proof.
  apply (getKeyInfos_stale_selection
           (walletOf false [vaultOf "v1" "mnemonic" "main"] (Some "gone"))
           (vaultOf "v1" "mnemonic" "main") []).
  - reflexivity.
  - intros sel E. inversion E. reflexivity.
Defined.

(** ** The lock guard *)

Section LockGuard.
Context `{ChainsService} `{ChainIdHelper} `{KeyRings} `{KeyRingPubKeys}
        `{VaultDecryption}.

(** X5. While the status is "locked", every guarded method throws
    "KeyRing is locked" before it reads or writes anything else:
    [selectKeyRing], [finalizeMnemonicKeyCoinType],
    [needMnemonicKeyCoinTypeFinalize], [changeKeyRingName],
    [deleteKeyRing], [getPubKey], [getPubKeyWithNotFinalizedCoinType],
    [sign] and [showSensitiveKeyRingData]; the state stays as it was. *)
Theorem locked_status_blocks (st : State) :
  keyRingStatus st = "locked" ->
  (forall v, selectKeyRing v st = (throw (Error "KeyRing is locked"), st)) /\
  (forall v cid c,
     finalizeMnemonicKeyCoinType v cid c st
     = (throw (Error "KeyRing is locked"), st)) /\
  (forall v cid,
     needMnemonicKeyCoinTypeFinalize v cid st
     = (throw (Error "KeyRing is locked"), st)) /\
  (forall v name,
     changeKeyRingName v name st = (throw (Error "KeyRing is locked"), st)) /\
  (forall v pw,
     deleteKeyRing v pw st = (throw (Error "KeyRing is locked"), st)) /\
  (forall cid v, getPubKey cid v st = (throw (Error "KeyRing is locked"), st)) /\
  (forall cid v c,
     getPubKeyWithNotFinalizedCoinType cid v c st
     = (throw (Error "KeyRing is locked"), st)) /\
  (forall cid v data dm,
     sign cid v data dm st = (throw (Error "KeyRing is locked"), st)) /\
  (forall v pw,
     showSensitiveKeyRingData v pw st = (throw (Error "KeyRing is locked"), st)).
Proof.
  intros Hstatus.
  assert (Hl : isLocked (vaultService st) = true).
  { unfold keyRingStatus in Hstatus.
    destruct (negb _ || _); [discriminate|].
    destruct (isLocked (vaultService st)); [reflexivity | discriminate]. }
  refine (conj _ (conj _ (conj _ (conj _ (conj _ (conj _ (conj _ (conj _ _))))))));
    intros;
    [ unfold selectKeyRing | unfold finalizeMnemonicKeyCoinType
    | unfold needMnemonicKeyCoinTypeFinalize | unfold changeKeyRingName
    | unfold deleteKeyRing | unfold getPubKey
    | unfold getPubKeyWithNotFinalizedCoinType | unfold sign
    | unfold showSensitiveKeyRingData ];
    run_eff; by rewrite Hl.
Qed.

End LockGuard.

Lemma locked_status_blocks_witness :
  keyRingStatus lockedWallet = "locked" /\
  forall cid v data dm,
    @sign twoChains wholeId oneStrategy cid v data dm lockedWallet
    = (throw (Error "KeyRing is locked"), lockedWallet).
Proof.
  split; [reflexivity|].
  pose proof (@locked_status_blocks twoChains wholeId oneStrategy
                {| keyRing_getPubKey := fun _ _ _ _ =>
                     throw (Error "no public key") |}
                {| decrypt := fun _ => ∅ |}
                lockedWallet eq_refl) as Hall.
  exact (proj1 (proj2 (proj2 (proj2 (proj2 (proj2 (proj2 (proj2 Hall)))))))).
Defined.

(** ** Coin-type finalization: when it returns and what it writes *)

Section FinalizationEffect.
Context `{ChainsService} `{ChainIdHelper}.

(** X6. [finalizeMnemonicKeyCoinType] returns exactly when the key ring is
    unlocked, the chain is known, the coin type is the chain's default or
    one of its alternatives, the entry exists, is a mnemonic entry and
    holds no truthy value under the chain's tag; in every other case it
    throws and the state stays as it was. *)
Theorem finalize_returns_iff (vaultId chainId : string) (c : number)
    (st : State) :
  ((exists st', finalizeMnemonicKeyCoinType vaultId chainId c st = (ok tt, st'))
   <->
   isLocked (vaultService st) = false /\
   exists chainInfo vault,
     getChainInfoOrThrow chainId = ok chainInfo /\
     coinTypeNotAssociated chainInfo c = false /\
     getVault (vaultService st) "keyRing" vaultId = Some vault /\
     strictEqString (prop (insensitive vault) "keyRingType") "mnemonic" = true /\
     truthy (prop (insensitive vault) (coinTypeTag chainId)) = false) /\
  ((forall st', finalizeMnemonicKeyCoinType vaultId chainId c st <> (ok tt, st')) ->
   exists e, finalizeMnemonicKeyCoinType vaultId chainId c st = (throw e, st)).
Proof.
  split.
  - unfold finalizeMnemonicKeyCoinType. run_eff.
    destruct (isLocked (vaultService st)).
    { split; [intros [st' E]; discriminate | intros [E _]; discriminate]. }
    destruct (getChainInfoOrThrow chainId) as [e|chainInfo].
    { split; [intros [st' E]; discriminate|].
      intros (_ & ci & vault & E & _). discriminate. }
    destruct (coinTypeNotAssociated chainInfo c) eqn:Hna.
    { split; [intros [st' E]; discriminate|].
      intros (_ & ci & vault & E & Hna' & _). inversion E; subst. congruence. }
    destruct (getVault (vaultService st) "keyRing" vaultId) as [vault|].
    2:{ split; [intros [st' E]; discriminate|].
        intros (_ & ci & v & _ & _ & E & _). discriminate. }
    destruct (strictEqString (prop (insensitive vault) "keyRingType") "mnemonic")
      eqn:Hm; cbn [negb].
    2:{ split; [intros [st' E]; discriminate|].
        intros (_ & ci & v & _ & _ & E & Hm' & _). inversion E; subst. congruence. }
    destruct (truthy (prop (insensitive vault) (coinTypeTag chainId))) eqn:Ht.
    { split; [intros [st' E]; discriminate|].
      intros (_ & ci & v & _ & _ & E & _ & Ht'). inversion E; subst. congruence. }
    split; [|eauto].
    intros _. split; [reflexivity|]. exists chainInfo, vault. auto.
  - intros Hno.
    destruct (finalize_outcome vaultId chainId c st)
      as [[e He] | (x & _ & _ & _ & _ & Hfin)]; [eauto|].
    exfalso. by eapply Hno.
Qed.

Lemma finalize_stores (vaultId chainId : string) (c : number)
    (st st' : State) :
  finalizeMnemonicKeyCoinType vaultId chainId c st = (ok tt, st') ->
  coinTypeTagOf st' vaultId chainId = Some (Some (JNumber c)).
Proof.
  intros Hrun.
  destruct (finalize_outcome vaultId chainId c st)
    as [[e He] | (x & _ & Hv & _ & _ & Hfin)].
  { rewrite He in Hrun. discriminate. }
  rewrite Hfin in Hrun. inversion Hrun; subst st'.
  unfold coinTypeTagOf. rewrite insensitiveOf_merged.
  unfold insensitiveOf. rewrite Hv. simpl. rewrite String.eqb_refl.
  by rewrite lookup_spread_singleton_eq.
Qed.

(** X7. What a finalization that returned wrote: the entry now holds the
    coin type under the chain's tag; every other key of that entry, every
    other entry, the order of the entries, the selection and the dispatched
    events are as before. *)
Theorem finalize_effect (vaultId chainId : string) (c : number)
    (st st' : State) :
  finalizeMnemonicKeyCoinType vaultId chainId c st = (ok tt, st') ->
  coinTypeTagOf st' vaultId chainId = Some (Some (JNumber c)) /\
  (forall k, k <> coinTypeTag chainId ->
     (fun ins : PlainObject => ins !! k) <$> insensitiveOf st' vaultId
     = (fun ins : PlainObject => ins !! k) <$> insensitiveOf st vaultId) /\
  (forall v, v <> vaultId ->
     getVault (vaultService st') "keyRing" v
     = getVault (vaultService st) "keyRing" v) /\
  List.map id (getVaults (vaultService st') "keyRing")
  = List.map id (getVaults (vaultService st) "keyRing") /\
  _selectedVaultId st' = _selectedVaultId st /\
  dispatched st' = dispatched st.
Proof.
  intros Hrun.
  destruct (finalize_outcome vaultId chainId c st)
    as [[e He] | (x & _ & Hv & _ & _ & Hfin)].
  { rewrite He in Hrun. discriminate. }
  rewrite Hfin in Hrun. inversion Hrun; subst st'. clear Hrun.
  refine (conj _ (conj _ (conj _ (conj _ (conj _ _))))).
  - apply (finalize_stores vaultId chainId c st). by rewrite Hfin.
  - intros k Hk. by apply lookup_merged_ne.
  - intros v Hne. unfold merged, withVaultService. cbn [vaultService].
    rewrite getVault_setAndMerge.
    apply String.eqb_neq in Hne. rewrite Hne.
    by destruct (getVault (vaultService st) "keyRing" v).
  - unfold merged, withVaultService, setAndMergeInsensitiveToVault.
    cbn [vaultService]. rewrite getVaults_setVaults, List.map_map.
    apply List.map_ext. intros v. by destruct (String.eqb (id v) vaultId).
  - reflexivity.
  - reflexivity.
Qed.

(** X8. [needMnemonicKeyCoinTypeFinalize] is the test for whether a
    finalization can still go through: for a known chain and a coin type
    the chain lists, it returns [true] exactly when
    [finalizeMnemonicKeyCoinType] would return. *)
Theorem need_true_iff_finalize_returns (vaultId chainId : string) (c : number)
    (chainInfo : ChainInfo) (st : State) :
  getChainInfoOrThrow chainId = ok chainInfo ->
  coinTypeNotAssociated chainInfo c = false ->
  needMnemonicKeyCoinTypeFinalize vaultId chainId st = (ok true, st)
  <-> exists st', finalizeMnemonicKeyCoinType vaultId chainId c st = (ok tt, st').
Proof.
  intros Hci Hna. unfold ok in Hci.
  unfold needMnemonicKeyCoinTypeFinalize, finalizeMnemonicKeyCoinType. run_eff.
  rewrite Hci, Hna.
  destruct (isLocked (vaultService st)).
  { split; [discriminate | intros [st' E]; discriminate]. }
  destruct (getVault (vaultService st) "keyRing" vaultId) as [vault|].
  2:{ split; [discriminate | intros [st' E]; discriminate]. }
  destruct (strictEqString (prop (insensitive vault) "keyRingType") "mnemonic");
    cbn [negb].
  2:{ split; [discriminate | intros [st' E]; discriminate]. }
  destruct (truthy (prop (insensitive vault) (coinTypeTag chainId))); cbn [negb].
  { split; [discriminate | intros [st' E]; discriminate]. }
  split; [eauto | reflexivity].
Qed.

End FinalizationEffect.

Lemma finalize_effect_witness :
  let st' :=
    snd (@finalizeMnemonicKeyCoinType twoChains wholeId
           "v1" "cosmoshub-4" (Number.of_Z 60) wallet) in
  @coinTypeTagOf wholeId st' "v1" "cosmoshub-4"
  = Some (Some (JNumber (Number.of_Z 60))) /\
  (forall k, k <> @coinTypeTag wholeId "cosmoshub-4" ->
     (fun ins : PlainObject => ins !! k) <$> insensitiveOf st' "v1"
     = (fun ins : PlainObject => ins !! k) <$> insensitiveOf wallet "v1") /\
  (forall v, v <> "v1" ->
     getVault (vaultService st') "keyRing" v
     = getVault (vaultService wallet) "keyRing" v) /\
  List.map id (getVaults (vaultService st') "keyRing")
  = List.map id (getVaults (vaultService wallet) "keyRing") /\
  _selectedVaultId st' = _selectedVaultId wallet /\
  dispatched st' = dispatched wallet.
Proof.
  apply (@finalize_effect twoChains wholeId
           "v1" "cosmoshub-4" (Number.of_Z 60) wallet).
  reflexivity.
Defined.

Lemma need_true_iff_finalize_returns_witness :
  @needMnemonicKeyCoinTypeFinalize wholeId "v1" "cosmoshub-4" wallet
  = (ok true, wallet)
  <-> exists st',
      @finalizeMnemonicKeyCoinType twoChains wholeId
        "v1" "cosmoshub-4" (Number.of_Z 60) wallet = (ok tt, st').
Proof.
  apply (@need_true_iff_finalize_returns twoChains wholeId
           "v1" "cosmoshub-4" (Number.of_Z 60) cosmoshub wallet);
    reflexivity.
Defined.

Lemma finalize_returns_iff_witness :
  exists e,
    @finalizeMnemonicKeyCoinType twoChains wholeId
      "v1" "cosmoshub-4" (Number.of_Z 118) lockedWallet
    = (throw e, lockedWallet).
Proof.
  apply (proj2 (@finalize_returns_iff twoChains wholeId
                  "v1" "cosmoshub-4" (Number.of_Z 118) lockedWallet)).
  intros st'. vm_compute. discriminate.
Defined.

(** ** Names and ledger apps *)

Lemma insensitiveOf_Some (st : State) (v : string) (vault : Vault) :
  getVault (vaultService st) "keyRing" v = Some vault ->
  insensitiveOf st v = Some (insensitive vault).
Proof. intros E. unfold insensitiveOf. by rewrite E. Qed.

Lemma getKeyRingName_eq (v : string) (st : State) :
  getKeyRingName v st
  = (match insensitiveOf st v with
     | None => throw (Error "Vault is null")
     | Some ins =>
         ok (if truthy (prop ins "keyRingName")
             then prop ins "keyRingName"
             else JString "Keplr Account")
     end, st).
Proof.
  unfold getKeyRingName, insensitiveOf. run_eff.
  destruct (getVault (vaultService st) "keyRing" v) as [vault|]; [|reflexivity].
  cbn [fmap option_fmap option_map].
  by destruct (truthy (prop (insensitive vault) "keyRingName")).
Qed.

(** X9. Renaming round trip: after [changeKeyRingName] returned,
    [getKeyRingName] of that entry returns the new name, or "Keplr Account"
    when the new name is empty; the names of the other entries are as
    before. *)
Theorem changeKeyRingName_getKeyRingName (vaultId name : string)
    (st st' : State) :
  changeKeyRingName vaultId name st = (ok tt, st') ->
  getKeyRingName vaultId st'
  = (ok (JString (if String.eqb name "" then "Keplr Account" else name)), st') /\
  (forall v, v <> vaultId ->
     fst (getKeyRingName v st') = fst (getKeyRingName v st)).
Proof.
  intros Hrun.
  destruct (changeKeyRingName_outcome vaultId name st) as [[e He] | Hok].
  { rewrite He in Hrun. discriminate. }
  rewrite Hok in Hrun. inversion Hrun; subst st'. clear Hrun.
  assert (Hv : getVault (vaultService st) "keyRing" vaultId <> None).
  { intros E. revert Hok. unfold changeKeyRingName. run_eff.
    destruct (isLocked (vaultService st)); [discriminate|].
    rewrite E. discriminate. }
  split.
  - rewrite getKeyRingName_eq, insensitiveOf_merged.
    unfold insensitiveOf.
    destruct (getVault (vaultService st) "keyRing" vaultId) as [vault|];
      [|congruence].
    cbn [fmap option_fmap option_map]. rewrite String.eqb_refl.
    rewrite prop_spread_singleton_eq. cbn [truthy].
    by destruct (String.eqb name "").
  - intros v Hne. rewrite !getKeyRingName_eq, insensitiveOf_merged.
    apply String.eqb_neq in Hne. rewrite Hne.
    by destruct (insensitiveOf st v).
Qed.

Lemma changeKeyRingName_getKeyRingName_witness :
  let st' := snd (changeKeyRingName "v1" "" wallet) in
  getKeyRingName "v1" st' = (ok (JString "Keplr Account"), st') /\
  (forall v, v <> "v1" ->
     fst (getKeyRingName v st') = fst (getKeyRingName v wallet)).
Proof.
  apply (changeKeyRingName_getKeyRingName "v1" "" wallet). reflexivity.
Defined.

(** X10. A ledger app is appended once: after [appendLedgerKeyRing]
    returned, the entry holds [{ pubKey: <hex of the key> }] under the app
    name, and appending under the same app name again, with any key,
    throws "App is already appended" and writes nothing. *)
Theorem appendLedgerKeyRing_once (vaultId : string) (pubKey : list Byte.byte)
    (app : string) (st st' : State) :
  appendLedgerKeyRing vaultId pubKey app st = (ok tt, st') ->
  (fun ins : PlainObject => ins !! app) <$> insensitiveOf st' vaultId
  = Some (Some (JObject [("pubKey", JString (toHexString pubKey))])) /\
  (forall pubKey',
     appendLedgerKeyRing vaultId pubKey' app st'
     = (throw (Error "App is already appended"), st')).
Proof.
  intros Hrun.
  destruct (appendLedger_outcome vaultId pubKey app st)
    as [[e He] | (vault & Hv & Hty & Hfalsy & Hok)].
  { rewrite He in Hrun. discriminate. }
  rewrite Hok in Hrun. inversion Hrun; subst st'. clear Hrun.
  assert (Happ : app <> "keyRingType").
  { intros ->. apply strictEqString_true in Hty. rewrite Hty in Hfalsy.
    discriminate. }
  assert (Hins : insensitiveOf
                   (merged st vaultId
                      {[ app := JObject [("pubKey", JString (toHexString pubKey))] ]})
                   vaultId
                 = Some (spread (insensitive vault)
                      {[ app := JObject [("pubKey", JString (toHexString pubKey))] ]})).
  { rewrite insensitiveOf_merged, (insensitiveOf_Some _ _ _ Hv).
    cbn [fmap option_fmap option_map]. by rewrite String.eqb_refl. }
  set (st' := merged st vaultId _) in *.
  split.
  - rewrite Hins. cbn [fmap option_fmap option_map].
    by rewrite lookup_spread_singleton_eq.
  - intros pubKey'. unfold insensitiveOf in Hins.
    destruct (getVault (vaultService st') "keyRing" vaultId) as [vault'|] eqn:Hv';
      [|discriminate].
    cbn [fmap option_fmap option_map] in Hins. inversion Hins as [Hins'].
    unfold appendLedgerKeyRing. run_eff.
    rewrite Hv', Hins', prop_spread_singleton_ne by done.
    by rewrite Hty, prop_spread_singleton_eq.
Qed.

Lemma appendLedgerKeyRing_once_witness :
  let st' := snd (appendLedgerKeyRing "v2" [Byte.x0a; Byte.xff] "Cosmos" wallet) in
  (fun ins : PlainObject => ins !! "Cosmos") <$> insensitiveOf st' "v2"
  = Some (Some (JObject [("pubKey", JString "0aff")])) /\
  (forall pubKey',
     appendLedgerKeyRing "v2" pubKey' "Cosmos" st'
     = (throw (Error "App is already appended"), st')).
Proof.
  apply (appendLedgerKeyRing_once "v2" [Byte.x0a; Byte.xff] "Cosmos" wallet).
  reflexivity.
Defined.

(** ** Deletion: failures and what is left *)

(** X11. A [deleteKeyRing] that does not go through changes nothing and
    dispatches nothing: locked gives "KeyRing is locked", then a missing
    entry gives "Vault is null", then a password the store refuses gives
    the store's error. *)
Theorem deleteKeyRing_failures (vaultId password : string) (st : State) :
  (isLocked (vaultService st) = true ->
   deleteKeyRing vaultId password st = (throw (Error "KeyRing is locked"), st)) /\
  (isLocked (vaultService st) = false ->
   getVault (vaultService st) "keyRing" vaultId = None ->
   deleteKeyRing vaultId password st = (throw (Error "Vault is null"), st)) /\
  (forall e,
     isLocked (vaultService st) = false ->
     getVault (vaultService st) "keyRing" vaultId <> None ->
     checkUserPassword (vaultService st) password = throw e ->
     deleteKeyRing vaultId password st = (throw e, st)) /\
  (forall e st', deleteKeyRing vaultId password st = (throw e, st') -> st' = st).
Proof.
  refine (conj _ (conj _ (conj _ _))).
  - intros Hl. unfold deleteKeyRing. run_eff. by rewrite Hl.
  - intros Hl Hv. unfold deleteKeyRing. run_eff. by rewrite Hl, Hv.
  - intros e Hl Hv Hp. unfold deleteKeyRing. run_eff. unfold throw in Hp.
    rewrite Hl.
    destruct (getVault (vaultService st) "keyRing" vaultId); [|congruence].
    by rewrite Hp.
  - intros e st' Hrun.
    destruct (deleteKeyRing_outcome vaultId password st)
      as [[e' He] | (x & sel & _ & _ & _ & _ & Hok)].
    + rewrite He in Hrun. by inversion Hrun.
    + rewrite Hok in Hrun. discriminate.
Qed.

Lemma deleteKeyRing_failures_witness :
  deleteKeyRing "v1" "wrong" wallet = (throw (Error "PasswordMismatch"), wallet).
Proof.
  destruct (deleteKeyRing_failures "v1" "wrong" wallet) as (_ & _ & Hpw & _).
  apply Hpw; [reflexivity | discriminate | reflexivity].
Defined.

(** X12. After a [deleteKeyRing] that returned, the deleted id has no
    entry any more and every other id resolves to the entry it had; when
    no entry is left the status is "empty" and the getter throws "Key ring
    is empty". *)
Theorem deleteKeyRing_removes (vaultId password : string) (b : bool)
    (st st' : State) :
  deleteKeyRing vaultId password st = (ok b, st') ->
  getVault (vaultService st') "keyRing" vaultId = None /\
  (forall v, v <> vaultId ->
     getVault (vaultService st') "keyRing" v
     = getVault (vaultService st) "keyRing" v) /\
  (getVaults (vaultService st') "keyRing" = [] ->
   keyRingStatus st' = "empty" /\
   selectedVaultId st' = (throw (Error "Key ring is empty"), st')).
Proof.
  intros Hrun.
  destruct (deleteKeyRing_outcome vaultId password st)
    as [[e He] | (x & sel & _ & _ & _ & _ & Hok)].
  { rewrite He in Hrun. discriminate. }
  rewrite Hok in Hrun. inversion Hrun; subst b st'. clear Hrun.
  assert (Hvs : vaultService (afterDelete st vaultId sel)
                = removeVault (vaultService st) "keyRing" vaultId).
  { unfold afterDelete. by destruct (String.eqb sel vaultId). }
  rewrite Hvs. refine (conj _ (conj _ _)).
  - apply getVault_removeVault_eq.
  - intros v Hne. by apply getVault_removeVault_ne.
  - intros Hempty. split.
    + unfold keyRingStatus. rewrite Hvs, Hempty. cbn [length Nat.eqb].
      by rewrite orb_true_r.
    + apply selectedVaultId_empty. by rewrite Hvs.
Qed.

Lemma deleteKeyRing_removes_witness :
  let st0 := walletOf false [vaultOf "v1" "mnemonic" "main"] (Some "v1") in
  let st' := snd (deleteKeyRing "v1" "correct horse" st0) in
  getVault (vaultService st') "keyRing" "v1" = None /\
  (forall v, v <> "v1" ->
     getVault (vaultService st') "keyRing" v
     = getVault (vaultService st0) "keyRing" v) /\
  (getVaults (vaultService st') "keyRing" = [] ->
   keyRingStatus st' = "empty" /\
   selectedVaultId st' = (throw (Error "Key ring is empty"), st')).
Proof.
  apply (deleteKeyRing_removes "v1" "correct horse" true
           (walletOf false [vaultOf "v1" "mnemonic" "main"] (Some "v1"))).
  reflexivity.
Defined.

(** ** Public keys, signatures and the coin type they are derived with *)

Section Derivation.
Context `{ChainsService} `{ChainIdHelper} `{KeyRings} `{KeyRingPubKeys}.

Lemma getPubKeyWithVault_pure (vault : Vault) (c : JsValue)
    (chainInfo : ChainInfo) (st : State) :
  snd (getPubKeyWithVault vault c chainInfo st) = st.
Proof.
  unfold getPubKeyWithVault, getVaultKeyRing. run_eff.
  destruct (isLocked (vaultService st)); [reflexivity|].
  destruct (List.find _ keyRings) as [keyRing|]; [|reflexivity].
  by destruct (keyRing_getPubKey keyRing vault c chainInfo).
Qed.

Lemma signWithVault_pure (vault : Vault) (c : JsValue) (data : list Byte.byte)
    (dm : DigestMethod) (chainInfo : ChainInfo) (st : State) :
  snd (signWithVault vault c data dm chainInfo st) = st.
Proof.
  unfold signWithVault, getVaultKeyRing. run_eff.
  destruct (isLocked (vaultService st)); [reflexivity|].
  destruct (List.find _ keyRings) as [keyRing|]; [|reflexivity].
  by destruct (keyRing_sign keyRing vault c data dm chainInfo).
Qed.

Lemma coinType_resolution (chainId vaultId : string)
    (chainInfo : ChainInfo) (vault : Vault) (st : State) :
  getChainInfoOrThrow chainId = ok chainInfo ->
  getVault (vaultService st) "keyRing" vaultId = Some vault ->
  getPubKey chainId vaultId st
  = getPubKeyWithVault vault (effectiveCoinType vault chainInfo chainId)
      chainInfo st /\
  (forall data dm,
     fst (sign chainId vaultId data dm st)
     = fst (signWithVault vault (effectiveCoinType vault chainInfo chainId)
              data dm chainInfo st)).
Proof.
  intros Hci Hv. unfold ok in Hci. split.
  - unfold getPubKey, getPubKeyWithVault, effectiveCoinType. run_eff.
    destruct (isLocked (vaultService st)) eqn:Hl; [reflexivity|].
    by rewrite Hci, Hv, Hl.
  - intros data dm.
    unfold sign, signWithVault, getVaultKeyRing, effectiveCoinType. run_eff.
    destruct (isLocked (vaultService st)) eqn:Hl; [reflexivity|].
    rewrite Hci, Hv, Hl.
    destruct (List.find _ keyRings) as [keyRing|]; [|reflexivity].
    by destruct (keyRing_sign keyRing vault _ data dm chainInfo).
Qed.

(** X13. [getPubKey] and [sign] derive with the same strategy and the same
    coin type: for a known chain and an existing entry, both hand the
    entry, the effective coin type (the stored tag value when truthy, else
    the chain's default) and the chain to the strategy picked by the
    entry's [keyRingType], and return what it returns. *)
Theorem getPubKey_sign_same_coinType (chainId vaultId : string)
    (chainInfo : ChainInfo) (vault : Vault) (st : State) :
  getChainInfoOrThrow chainId = ok chainInfo ->
  getVault (vaultService st) "keyRing" vaultId = Some vault ->
  getPubKey chainId vaultId st
  = getPubKeyWithVault vault (effectiveCoinType vault chainInfo chainId)
      chainInfo st /\
  (forall data dm,
     fst (sign chainId vaultId data dm st)
     = fst (signWithVault vault (effectiveCoinType vault chainInfo chainId)
              data dm chainInfo st)).
Proof. apply coinType_resolution. Qed.

(** X14. Finalization takes effect on derivation: once
    [finalizeMnemonicKeyCoinType] returned with a non-zero coin type, both
    [getPubKey] and [sign] for that entry and chain derive with exactly
    that coin type. *)
Theorem finalized_coinType_is_used (vaultId chainId : string) (c : number)
    (st st' : State) :
  finalizeMnemonicKeyCoinType vaultId chainId c st = (ok tt, st') ->
  Number.truthy c = true ->
  exists vault' chainInfo,
    getVault (vaultService st') "keyRing" vaultId = Some vault' /\
    getChainInfoOrThrow chainId = ok chainInfo /\
    getPubKey chainId vaultId st'
    = getPubKeyWithVault vault' (JNumber c) chainInfo st' /\
    (forall data dm,
       fst (sign chainId vaultId data dm st')
       = fst (signWithVault vault' (JNumber c) data dm chainInfo st')).
Proof.
  intros Hrun Hc.
  destruct (finalize_returned_associated _ _ _ _ _ Hrun) as (chainInfo & Hci & _).
  destruct (finalize_establishes _ _ _ _ _ Hrun Hc)
    as [_ (ins & Hins & _ & Htag)].
  pose proof (finalize_stores _ _ _ _ _ Hrun) as Hstored.
  unfold coinTypeTagOf in Hstored. rewrite Hins in Hstored.
  cbn [fmap option_fmap option_map] in Hstored.
  unfold insensitiveOf in Hins.
  destruct (getVault (vaultService st') "keyRing" vaultId) as [vault'|] eqn:Hv';
    [|discriminate].
  cbn [fmap option_fmap option_map] in Hins. inversion Hins; subst ins.
  exists vault', chainInfo. split; [reflexivity|]. split; [exact Hci|].
  assert (Heff : effectiveCoinType vault' chainInfo chainId = JNumber c).
  { unfold effectiveCoinType. rewrite Htag. unfold prop.
    inversion Hstored as [Hlook]. by rewrite Hlook. }
  rewrite <- Heff. by apply coinType_resolution.
Qed.

(** X15. [getPubKeyWithNotFinalizedCoinType] has the guards of
    [finalizeMnemonicKeyCoinType]: whenever the finalization would throw,
    it throws the same error; whenever the finalization would return, it
    hands the entry, the requested coin type and the chain to the
    strategy. It never writes. *)
Theorem notFinalized_pubKey_guards (chainId vaultId : string) (c : number)
    (st : State) :
  (forall e,
     finalizeMnemonicKeyCoinType vaultId chainId c st = (throw e, st) ->
     getPubKeyWithNotFinalizedCoinType chainId vaultId c st = (throw e, st)) /\
  (forall st',
     finalizeMnemonicKeyCoinType vaultId chainId c st = (ok tt, st') ->
     exists vault chainInfo,
       getVault (vaultService st) "keyRing" vaultId = Some vault /\
       getChainInfoOrThrow chainId = ok chainInfo /\
       getPubKeyWithNotFinalizedCoinType chainId vaultId c st
       = getPubKeyWithVault vault (JNumber c) chainInfo st) /\
  snd (getPubKeyWithNotFinalizedCoinType chainId vaultId c st) = st.
Proof.
  unfold finalizeMnemonicKeyCoinType, getPubKeyWithNotFinalizedCoinType.
  run_eff.
  destruct (isLocked (vaultService st)) eqn:Hl.
  { split; [intros e E; by inversion E|]. split; [intros st' E; discriminate | reflexivity]. }
  destruct (getChainInfoOrThrow chainId) as [e0|chainInfo].
  { split; [intros e E; by inversion E|]. split; [intros st' E; discriminate | reflexivity]. }
  destruct (coinTypeNotAssociated chainInfo c).
  { split; [intros e E; by inversion E|]. split; [intros st' E; discriminate | reflexivity]. }
  destruct (getVault (vaultService st) "keyRing" vaultId) as [vault|].
  2:{ split; [intros e E; by inversion E|]. split; [intros st' E; discriminate | reflexivity]. }
  destruct (negb (strictEqString (prop (insensitive vault) "keyRingType") "mnemonic")).
  { split; [intros e E; by inversion E|]. split; [intros st' E; discriminate | reflexivity]. }
  destruct (truthy (prop (insensitive vault) (coinTypeTag chainId))).
  { split; [intros e E; by inversion E|]. split; [intros st' E; discriminate | reflexivity]. }
  split; [intros e E; discriminate|]. split.
  - intros st' _. exists vault, chainInfo. by repeat split.
  - apply getPubKeyWithVault_pure.
Qed.

(** X16. The queries write nothing, whether they return or throw:
    [needMnemonicKeyCoinTypeFinalize], [getKeyRingName],
    [getKeyRingNameSelected], [getKeyInfos], [getKeyRingVaults],
    [getPubKey] and [getPubKeySelected]. *)
Theorem queries_write_nothing (st : State) :
  (forall v cid, snd (needMnemonicKeyCoinTypeFinalize v cid st) = st) /\
  (forall v, snd (getKeyRingName v st) = st) /\
  snd (getKeyRingNameSelected st) = st /\
  snd (getKeyInfos st) = st /\
  snd (getKeyRingVaults st) = st /\
  (forall cid v, snd (getPubKey cid v st) = st) /\
  (forall cid, snd (getPubKeySelected cid st) = st).
Proof.
  assert (Hpk : forall cid v, snd (getPubKey cid v st) = st).
  { intros cid v. unfold getPubKey. run_eff.
    destruct (isLocked (vaultService st)); [reflexivity|].
    destruct (getChainInfoOrThrow cid) as [e|chainInfo]; [reflexivity|].
    destruct (getVault (vaultService st) "keyRing" v) as [vault|]; [|reflexivity].
    apply getPubKeyWithVault_pure. }
  refine (conj _ (conj _ (conj _ (conj _ (conj _ (conj _ _)))))).
  - intros v cid. unfold needMnemonicKeyCoinTypeFinalize. run_eff.
    destruct (isLocked (vaultService st)); [reflexivity|].
    destruct (getVault (vaultService st) "keyRing" v) as [vault|]; [|reflexivity].
    by destruct (negb _).
  - intros v. by rewrite getKeyRingName_eq.
  - unfold getKeyRingNameSelected. unfold bind.
    pose proof (selectedVaultId_pure st) as Hp.
    destruct (selectedVaultId st) as [[e|sel] st0]; cbn [snd] in Hp; subst st0;
      [reflexivity|].
    by rewrite getKeyRingName_eq.
  - reflexivity.
  - reflexivity.
  - exact Hpk.
  - intros cid. unfold getPubKeySelected. unfold bind.
    pose proof (selectedVaultId_pure st) as Hp.
    destruct (selectedVaultId st) as [[e|sel] st0]; cbn [snd] in Hp; subst st0;
      [reflexivity|].
    apply Hpk.
Qed.

(** X17. [sign] returns a signature exactly when the key ring is unlocked,
    the chain is known, the entry exists, some strategy carries the
    entry's [keyRingType] and the first such strategy, called with the
    effective coin type, hands back a promise; that promise is what
    [sign] returns. *)
Theorem sign_returns_iff (chainId vaultId : string) (data : list Byte.byte)
    (dm : DigestMethod) (signature : Promise (list Byte.byte)) (st : State) :
  (exists st', sign chainId vaultId data dm st = (ok signature, st'))
  <->
  isLocked (vaultService st) = false /\
  exists chainInfo vault keyRing,
    getChainInfoOrThrow chainId = ok chainInfo /\
    getVault (vaultService st) "keyRing" vaultId = Some vault /\
    List.find
      (fun keyRing =>
         strictEqString (prop (insensitive vault) "keyRingType")
                        (supportedKeyRingType keyRing))
      keyRings = Some keyRing /\
    keyRing_sign keyRing vault (effectiveCoinType vault chainInfo chainId)
      data dm chainInfo = ok signature.
Proof.
  unfold sign, signWithVault, getVaultKeyRing, effectiveCoinType. run_eff.
  destruct (isLocked (vaultService st)) eqn:Hl.
  { split; [intros [st' E]; discriminate | intros [E _]; discriminate]. }
  destruct (getChainInfoOrThrow chainId) as [e|chainInfo].
  { split; [intros [st' E]; discriminate|].
    intros (_ & ci & v & k & E & _). discriminate. }
  destruct (getVault (vaultService st) "keyRing" vaultId) as [vault|].
  2:{ split; [intros [st' E]; discriminate|].
      intros (_ & ci & v & k & _ & E & _). discriminate. }
  rewrite Hl.
  destruct (List.find _ keyRings) as [keyRing|] eqn:Hf.
  2:{ split; [intros [st' E]; discriminate|].
      intros (_ & ci & v & k & E1 & E2 & E3 & _).
      inversion E2; subst v. rewrite Hf in E3. discriminate. }
  destruct (keyRing_sign keyRing vault _ data dm chainInfo) as [e|sg] eqn:Hs.
  { split; [intros [st' E]; discriminate|].
    intros (_ & ci & v & k & E1 & E2 & E3 & E4).
    inversion E1; subst ci. inversion E2; subst v.
    rewrite Hf in E3. inversion E3; subst k. rewrite Hs in E4. discriminate. }
  split.
  - intros [st' E]. inversion E; subst sg. split; [reflexivity|].
    exists chainInfo, vault, keyRing. by repeat split.
  - intros (_ & ci & v & k & E1 & E2 & E3 & E4).
    inversion E1; subst ci. inversion E2; subst v.
    rewrite Hf in E3. inversion E3; subst k. rewrite Hs in E4.
    inversion E4; subst sg. eauto.
Qed.

End Derivation.

Lemma getPubKey_sign_same_coinType_witness :
  @getPubKey twoChains wholeId oneStrategy fixedPubKeys "cosmoshub-4" "v1" wallet
  = @getPubKeyWithVault oneStrategy fixedPubKeys
      (vaultOf "v1" "mnemonic" "main")
      (@effectiveCoinType wholeId (vaultOf "v1" "mnemonic" "main")
         cosmoshub "cosmoshub-4")
      cosmoshub wallet /\
  (forall data dm,
     fst (@sign twoChains wholeId oneStrategy "cosmoshub-4" "v1" data dm wallet)
     = fst (@signWithVault oneStrategy (vaultOf "v1" "mnemonic" "main")
              (@effectiveCoinType wholeId (vaultOf "v1" "mnemonic" "main")
                 cosmoshub "cosmoshub-4")
              data dm cosmoshub wallet)).
Proof.
  apply (@getPubKey_sign_same_coinType twoChains wholeId oneStrategy fixedPubKeys
           "cosmoshub-4" "v1" cosmoshub (vaultOf "v1" "mnemonic" "main") wallet);
    reflexivity.
Defined.

Lemma finalized_coinType_is_used_witness :
  let st' :=
    snd (@finalizeMnemonicKeyCoinType twoChains wholeId
           "v1" "cosmoshub-4" (Number.of_Z 60) wallet) in
  exists vault' chainInfo,
    getVault (vaultService st') "keyRing" "v1" = Some vault' /\
    @getChainInfoOrThrow twoChains "cosmoshub-4" = ok chainInfo /\
    @getPubKey twoChains wholeId oneStrategy fixedPubKeys "cosmoshub-4" "v1" st'
    = @getPubKeyWithVault oneStrategy fixedPubKeys
        vault' (JNumber (Number.of_Z 60)) chainInfo st' /\
    (forall data dm,
       fst (@sign twoChains wholeId oneStrategy "cosmoshub-4" "v1" data dm st')
       = fst (@signWithVault oneStrategy vault' (JNumber (Number.of_Z 60))
                data dm chainInfo st')).
Proof.
  apply (@finalized_coinType_is_used twoChains wholeId oneStrategy fixedPubKeys
           "v1" "cosmoshub-4" (Number.of_Z 60) wallet);
    reflexivity.
Defined.

Lemma notFinalized_pubKey_guards_witness :
  exists vault chainInfo,
    getVault (vaultService wallet) "keyRing" "v1" = Some vault /\
    @getChainInfoOrThrow twoChains "cosmoshub-4" = ok chainInfo /\
    @getPubKeyWithNotFinalizedCoinType twoChains wholeId oneStrategy fixedPubKeys
      "cosmoshub-4" "v1" (Number.of_Z 60) wallet
    = @getPubKeyWithVault oneStrategy fixedPubKeys
        vault (JNumber (Number.of_Z 60)) chainInfo wallet.
Proof.
  destruct (@notFinalized_pubKey_guards twoChains wholeId oneStrategy fixedPubKeys
              "cosmoshub-4" "v1" (Number.of_Z 60) wallet) as (_ & Hret & _).
  eapply Hret. reflexivity.
Defined.

(** The public key comes back with the coin type in force: the chain's
    default before, the finalized one after. *)
Example getPubKey_run :
  fst (@getPubKey twoChains wholeId oneStrategy fixedPubKeys
         "cosmoshub-4" "v1" wallet) = ok (Resolved fixedPubKey) /\
  @effectiveCoinType wholeId (vaultOf "v1" "mnemonic" "main")
    cosmoshub "cosmoshub-4" = JNumber (Number.of_Z 118).
Proof. vm_compute. split; reflexivity. Qed.

(** ** Creating entries *)

Lemma find_app_None {A : Type} (p : A -> bool) (l l' : list A) :
  List.find p l = None -> List.find p (l ++ l') = List.find p l'.
Proof.
  induction l as [|x l IH]; [done|]. cbn [List.find app].
  destruct (p x); [discriminate | exact IH].
Qed.


Section Creation.
Context `{ChainIdHelper} `{KeyRings} `{KeyRingVaultCreation} `{ChainInfoList}
        `{VaultStorage}.

Lemma signUpIfNeeded_outcome (password : option string) (st : State) :
  signUpIfNeeded password st
  = (throw (Error "Must provide password to sign in to vault"), st) \/
  signUpIfNeeded password st = (ok tt, afterSignUp st password).
Proof.
  unfold signUpIfNeeded, afterSignUp. run_eff.
  destruct st as [vs sel ev]. cbn [vaultService].
  destruct (isSignedUp vs); cbn [negb]; [by right|].
  destruct password as [pw|]; [|by left].
  destruct (String.eqb pw ""); [by left | by right].
Qed.

Lemma afterSignUp_frame (st : State) (password : option string) :
  getVaults (vaultService (afterSignUp st password)) "keyRing"
  = getVaults (vaultService st) "keyRing" /\
  _selectedVaultId (afterSignUp st password) = _selectedVaultId st /\
  dispatched (afterSignUp st password) = dispatched st.
Proof.
  unfold afterSignUp. by destruct (isSignedUp (vaultService st)).
Qed.

(** A store that is locked after the opening was signed up before, and
    the opening left it alone. *)
Lemma afterSignUp_locked (st : State) (password : option string) :
  isLocked (vaultService (afterSignUp st password)) = true ->
  afterSignUp st password = st.
Proof.
  unfold afterSignUp. by destruct (isSignedUp (vaultService st)).
Qed.

Lemma addAndSelect_eq (ins sens : PlainObject) (st : State) :
  isLocked (vaultService st) = false ->
  addAndSelect ins sens st
  = (ok (newVaultId (vaultService st)), afterAdd st ins sens).
Proof.
  intros Hl. unfold addAndSelect, addVault. run_eff. by rewrite Hl.
Qed.

Lemma addAndSelect_locked (ins sens : PlainObject) (st : State) :
  isLocked (vaultService st) = true ->
  addAndSelect ins sens st = (throw (Error "Vault is not unlocked"), st).
Proof.
  intros Hl. unfold addAndSelect, addVault. run_eff. by rewrite Hl.
Qed.

Lemma getKeyRing_found (type : string) (keyRing : KeyRing) (st : State) :
  List.find (fun k => String.eqb type (supportedKeyRingType k)) keyRings
  = Some keyRing ->
  getKeyRing type st = (ok keyRing, st) /\ supportedKeyRingType keyRing = type.
Proof.
  intros Hf. unfold getKeyRing. rewrite Hf. split; [reflexivity|].
  apply List.find_some in Hf as [_ E]. apply String.eqb_eq in E. by symmetry.
Qed.

(** The tags [singleChoiceCoinTypes] holds, a later chain winning. *)
Lemma singleChoiceCoinTypes_lookup (chainInfos : list ChainInfo) :
  (forall ci, In ci chainInfos -> hasNoAlternatives ci = true ->
     exists ci',
       In ci' chainInfos /\ hasNoAlternatives ci' = true /\
       coinTypeTag (chainId ci') = coinTypeTag (chainId ci) /\
       singleChoiceCoinTypes chainInfos !! coinTypeTag (chainId ci)
       = Some (JNumber (coinType (bip44 ci')))) /\
  (forall k,
     (forall ci, In ci chainInfos -> hasNoAlternatives ci = true ->
                 k <> coinTypeTag (chainId ci)) ->
     singleChoiceCoinTypes chainInfos !! k = None).
Proof.
  unfold singleChoiceCoinTypes.
  induction chainInfos as [|a l IH] using List.rev_ind.
  - split; [intros ci []|]. intros k _. apply lookup_empty.
  - rewrite List.fold_left_app. cbn [List.fold_left].
    destruct IH as [IH1 IH2]. split.
    + intros ci Hin Hno. apply List.in_app_iff in Hin.
      destruct (hasNoAlternatives a) eqn:Ha.
      * destruct (decide (coinTypeTag (chainId a) = coinTypeTag (chainId ci)))
          as [E|E].
        { exists a. split; [apply List.in_app_iff; right; by left|].
          split; [exact Ha|]. split; [exact E|].
          rewrite <- E. apply lookup_insert_eq. }
        destruct Hin as [Hin | [-> | []]]; [|congruence].
        destruct (IH1 ci Hin Hno) as (ci' & Hin' & Hno' & Htag & Hl).
        exists ci'. split; [apply List.in_app_iff; by left|].
        split; [exact Hno'|]. split; [exact Htag|].
        by rewrite lookup_insert_ne.
      * destruct Hin as [Hin | [-> | []]]; [|congruence].
        destruct (IH1 ci Hin Hno) as (ci' & Hin' & Hno' & Htag & Hl).
        exists ci'. split; [apply List.in_app_iff; by left|]. done.
    + intros k Hk.
      assert (Hl : forall ci, In ci l -> hasNoAlternatives ci = true ->
                              k <> coinTypeTag (chainId ci)).
      { intros ci Hin. apply Hk. apply List.in_app_iff. by left. }
      destruct (hasNoAlternatives a) eqn:Ha; [|by apply IH2].
      rewrite lookup_insert_ne; [by apply IH2|].
      intros E. apply (Hk a); [apply List.in_app_iff; right; by left | exact Ha |].
      by symmetry.
Qed.

Lemma createMnemonicKeyRing_locked (mnemonic : string)
    (bip44Path : BIP44HDPath) (name : string) (password : option string)
    (keyRing : KeyRing) (vaultData : VaultData) (st : State) :
  signUpIfNeeded password st = (ok tt, afterSignUp st password) ->
  validateBIP44Path bip44Path = ok tt ->
  List.find (fun k => String.eqb "mnemonic" (supportedKeyRingType k)) keyRings
  = Some keyRing ->
  createKeyRingVault keyRing (MnemonicSecret mnemonic bip44Path) = ok vaultData ->
  isLocked (vaultService (afterSignUp st password)) = true ->
  createMnemonicKeyRing mnemonic bip44Path name password st
  = (throw (Error "Vault is not unlocked"), st).
Proof.
  intros Hsu Hpath Hf Hcv Hl.
  destruct (getKeyRing_found "mnemonic" keyRing (afterSignUp st password) Hf)
    as [Hkr Hty].
  unfold createMnemonicKeyRing. unfold ok in *. run_eff.
  rewrite Hsu, Hpath, Hkr, Hcv, addAndSelect_locked by exact Hl.
  by rewrite afterSignUp_locked.
Qed.

Lemma createMnemonicKeyRing_eq (mnemonic : string)
    (bip44Path : BIP44HDPath) (name : string) (password : option string)
    (keyRing : KeyRing) (vaultData : VaultData) (st : State) :
  signUpIfNeeded password st = (ok tt, afterSignUp st password) ->
  validateBIP44Path bip44Path = ok tt ->
  List.find (fun k => String.eqb "mnemonic" (supportedKeyRingType k)) keyRings
  = Some keyRing ->
  createKeyRingVault keyRing (MnemonicSecret mnemonic bip44Path) = ok vaultData ->
  isLocked (vaultService (afterSignUp st password)) = false ->
  exists ins,
    createMnemonicKeyRing mnemonic bip44Path name password st
    = (ok (newVaultId (vaultService (afterSignUp st password))),
       afterAdd (afterSignUp st password) ins (vaultData_sensitive vaultData)) /\
    ins !! "keyRingType" = Some (JString "mnemonic") /\
    ins !! "keyRingName" = Some (JString name) /\
    (forall ci, In ci getChainInfos -> hasNoAlternatives ci = true ->
       exists ci',
         In ci' getChainInfos /\ hasNoAlternatives ci' = true /\
         coinTypeTag (chainId ci') = coinTypeTag (chainId ci) /\
         ins !! coinTypeTag (chainId ci) = Some (JNumber (coinType (bip44 ci')))) /\
    (forall k,
       k <> "keyRingType" -> k <> "keyRingName" ->
       (forall ci, In ci getChainInfos -> hasNoAlternatives ci = true ->
                   k <> coinTypeTag (chainId ci)) ->
       ins !! k = vaultData_insensitive vaultData !! k).
Proof.
  intros Hsu Hpath Hf Hcv Hunlocked.
  destruct (getKeyRing_found "mnemonic" keyRing (afterSignUp st password) Hf)
    as [Hkr Hty].
  destruct (singleChoiceCoinTypes_lookup getChainInfos) as [Htags Hothers].
  exists (<["keyRingType" := JString (supportedKeyRingType keyRing)]>
          (<["keyRingName" := JString name]>
           (spread (vaultData_insensitive vaultData)
                   (singleChoiceCoinTypes getChainInfos)))).
  split; [|split; [|split; [|split]]].
  - unfold createMnemonicKeyRing. unfold ok in *. run_eff.
    by rewrite Hsu, Hpath, Hkr, Hcv, addAndSelect_eq.
  - rewrite Hty. apply lookup_insert_eq.
  - rewrite lookup_insert_ne by done. apply lookup_insert_eq.
  - intros ci Hin Hno.
    destruct (Htags ci Hin Hno) as (ci' & Hin' & Hno' & Htag & Hl).
    exists ci'. split; [exact Hin'|]. split; [exact Hno'|]. split; [exact Htag|].
    rewrite lookup_insert_ne by (intros E; by apply (coinTypeTag_not_keyRingType (chainId ci))).
    rewrite lookup_insert_ne by (intros E; by apply (coinTypeTag_not_keyRingName (chainId ci))).
    unfold spread. by apply lookup_union_Some_l.
  - intros k Hk1 Hk2 Hk3.
    rewrite !lookup_insert_ne by done.
    unfold spread. rewrite lookup_union_r; [reflexivity|]. by apply Hothers.
Qed.

(** X18. [createMnemonicKeyRing], when sign-up, path validation, strategy
    lookup and the strategy's [createKeyRingVault] all go through. On a
    store that is then locked, the secret store refuses the new entry: the
    call throws "Vault is not unlocked" and the state is as it was. On an
    unlocked store it returns the new id, adds one entry after the
    existing ones, selects it and dispatches "keystore-changed" once. In
    the new entry [keyRingType] is "mnemonic" and [keyRingName] is the
    given name whatever the strategy put under these keys; every chain
    without alternative coin types has its tag set to the coin type of a
    chain without alternatives carrying that tag; every other key is as
    the strategy gave it. *)
Theorem createMnemonicKeyRing_returns (mnemonic : string)
    (bip44Path : BIP44HDPath) (name : string) (password : option string)
    (keyRing : KeyRing) (vaultData : VaultData) (st : State) :
  signUpIfNeeded password st = (ok tt, afterSignUp st password) ->
  validateBIP44Path bip44Path = ok tt ->
  List.find (fun k => String.eqb "mnemonic" (supportedKeyRingType k)) keyRings
  = Some keyRing ->
  createKeyRingVault keyRing (MnemonicSecret mnemonic bip44Path) = ok vaultData ->
  (isLocked (vaultService (afterSignUp st password)) = true ->
   createMnemonicKeyRing mnemonic bip44Path name password st
   = (throw (Error "Vault is not unlocked"), st)) /\
  (isLocked (vaultService (afterSignUp st password)) = false ->
   exists ins,
     createMnemonicKeyRing mnemonic bip44Path name password st
     = (ok (newVaultId (vaultService (afterSignUp st password))),
        afterAdd (afterSignUp st password) ins (vaultData_sensitive vaultData)) /\
     ins !! "keyRingType" = Some (JString "mnemonic") /\
     ins !! "keyRingName" = Some (JString name) /\
     (forall ci, In ci getChainInfos -> hasNoAlternatives ci = true ->
        exists ci',
          In ci' getChainInfos /\ hasNoAlternatives ci' = true /\
          coinTypeTag (chainId ci') = coinTypeTag (chainId ci) /\
          ins !! coinTypeTag (chainId ci) = Some (JNumber (coinType (bip44 ci')))) /\
     (forall k,
        k <> "keyRingType" -> k <> "keyRingName" ->
        (forall ci, In ci getChainInfos -> hasNoAlternatives ci = true ->
                    k <> coinTypeTag (chainId ci)) ->
        ins !! k = vaultData_insensitive vaultData !! k)).
Proof.
  intros Hsu Hpath Hf Hcv. split; intros Hl.
  - exact (createMnemonicKeyRing_locked mnemonic bip44Path name password
             keyRing vaultData st Hsu Hpath Hf Hcv Hl).
  - exact (createMnemonicKeyRing_eq mnemonic bip44Path name password
             keyRing vaultData st Hsu Hpath Hf Hcv Hl).
Qed.

(** X19. [createLedgerKeyRing] and [createPrivateKeyKeyRing], when every
    step before the secret store goes through. On a store that is then
    locked both throw "Vault is not unlocked" and leave the state as it
    was. On an unlocked store they add one entry after the existing ones,
    select it and dispatch once; [keyRingType] is "ledger" resp.
    "private-key" and [keyRingName] the given name whatever the strategy
    put there, the private-key entry also holds the given [keyRingMeta],
    and every other key is the strategy's. *)
Theorem createLedger_createPrivateKey_return (name : string)
    (password : option string) (keyRing : KeyRing) (vaultData : VaultData)
    (st : State) :
  signUpIfNeeded password st = (ok tt, afterSignUp st password) ->
  (forall pubKey app bip44Path,
     validateBIP44Path bip44Path = ok tt ->
     List.find (fun k => String.eqb "ledger" (supportedKeyRingType k)) keyRings
     = Some keyRing ->
     createKeyRingVault keyRing (LedgerSecret pubKey app bip44Path) = ok vaultData ->
     (isLocked (vaultService (afterSignUp st password)) = true ->
      createLedgerKeyRing pubKey app bip44Path name password st
      = (throw (Error "Vault is not unlocked"), st)) /\
     (isLocked (vaultService (afterSignUp st password)) = false ->
      exists ins,
        createLedgerKeyRing pubKey app bip44Path name password st
        = (ok (newVaultId (vaultService (afterSignUp st password))),
           afterAdd (afterSignUp st password) ins
             (vaultData_sensitive vaultData)) /\
        ins !! "keyRingType" = Some (JString "ledger") /\
        ins !! "keyRingName" = Some (JString name) /\
        (forall k, k <> "keyRingType" -> k <> "keyRingName" ->
                   ins !! k = vaultData_insensitive vaultData !! k))) /\
  (forall privateKey meta,
     List.find (fun k => String.eqb "private-key" (supportedKeyRingType k)) keyRings
     = Some keyRing ->
     createKeyRingVault keyRing (PrivateKeySecret privateKey) = ok vaultData ->
     (isLocked (vaultService (afterSignUp st password)) = true ->
      createPrivateKeyKeyRing privateKey meta name password st
      = (throw (Error "Vault is not unlocked"), st)) /\
     (isLocked (vaultService (afterSignUp st password)) = false ->
      exists ins,
        createPrivateKeyKeyRing privateKey meta name password st
        = (ok (newVaultId (vaultService (afterSignUp st password))),
           afterAdd (afterSignUp st password) ins
             (vaultData_sensitive vaultData)) /\
        ins !! "keyRingType" = Some (JString "private-key") /\
        ins !! "keyRingName" = Some (JString name) /\
        ins !! "keyRingMeta" = Some meta /\
        (forall k, k <> "keyRingType" -> k <> "keyRingName" -> k <> "keyRingMeta" ->
                   ins !! k = vaultData_insensitive vaultData !! k))).
Proof.
  intros Hsu. split.
  - intros pubKey app bip44Path Hpath Hf Hcv.
    destruct (getKeyRing_found "ledger" keyRing (afterSignUp st password) Hf)
      as [Hkr Hty].
    split; intros Hl.
    { unfold createLedgerKeyRing. unfold ok in *. run_eff.
      rewrite Hsu, Hpath, Hkr, Hcv, addAndSelect_locked by exact Hl.
      by rewrite afterSignUp_locked. }
    exists (<["keyRingType" := JString (supportedKeyRingType keyRing)]>
            (<["keyRingName" := JString name]> (vaultData_insensitive vaultData))).
    split; [|split; [|split]].
    + unfold createLedgerKeyRing. unfold ok in *. run_eff.
      by rewrite Hsu, Hpath, Hkr, Hcv, addAndSelect_eq.
    + rewrite Hty. apply lookup_insert_eq.
    + rewrite lookup_insert_ne by done. apply lookup_insert_eq.
    + intros k Hk1 Hk2. by rewrite !lookup_insert_ne.
  - intros privateKey meta Hf Hcv.
    destruct (getKeyRing_found "private-key" keyRing (afterSignUp st password) Hf)
      as [Hkr Hty].
    split; intros Hl.
    { unfold createPrivateKeyKeyRing. unfold ok in *. run_eff.
      rewrite Hsu, Hkr, Hcv, addAndSelect_locked by exact Hl.
      by rewrite afterSignUp_locked. }
    exists (<["keyRingMeta" := meta]>
            (<["keyRingType" := JString (supportedKeyRingType keyRing)]>
             (<["keyRingName" := JString name]> (vaultData_insensitive vaultData)))).
    split; [|split; [|split; [|split]]].
    + unfold createPrivateKeyKeyRing. unfold ok in *. run_eff.
      by rewrite Hsu, Hkr, Hcv, addAndSelect_eq.
    + rewrite lookup_insert_ne by done. rewrite Hty. apply lookup_insert_eq.
    + rewrite !lookup_insert_ne by done. apply lookup_insert_eq.
    + apply lookup_insert_eq.
    + intros k Hk1 Hk2 Hk3. by rewrite !lookup_insert_ne.
Qed.

(** X20. A creation that is refused adds nothing: without sign-up and
    without a non-empty password all three methods throw "Must provide
    password to sign in to vault" and leave the state as it was; with a
    path that [validateBIP44Path] refuses, [createMnemonicKeyRing] and
    [createLedgerKeyRing] throw and leave the entries, the selection and
    the dispatched events as they were. *)
Theorem creation_refused (name : string) (password : option string) (st : State) :
  (isSignedUp (vaultService st) = false ->
   password = None \/ password = Some "" ->
   (forall mnemonic bip44Path,
      createMnemonicKeyRing mnemonic bip44Path name password st
      = (throw (Error "Must provide password to sign in to vault"), st)) /\
   (forall pubKey app bip44Path,
      createLedgerKeyRing pubKey app bip44Path name password st
      = (throw (Error "Must provide password to sign in to vault"), st)) /\
   (forall privateKey meta,
      createPrivateKeyKeyRing privateKey meta name password st
      = (throw (Error "Must provide password to sign in to vault"), st))) /\
  (forall bip44Path e,
     validateBIP44Path bip44Path = throw e ->
     forall r st',
       (exists mnemonic,
          createMnemonicKeyRing mnemonic bip44Path name password st = (r, st')) \/
       (exists pubKey app,
          createLedgerKeyRing pubKey app bip44Path name password st = (r, st')) ->
       is_thrown r = true /\
       getVaults (vaultService st') "keyRing"
       = getVaults (vaultService st) "keyRing" /\
       _selectedVaultId st' = _selectedVaultId st /\
       dispatched st' = dispatched st).
Proof.
  split.
  - intros Hsu Hpw.
    assert (Hthrow : signUpIfNeeded password st
                     = (throw (Error "Must provide password to sign in to vault"), st)).
    { unfold signUpIfNeeded. run_eff. rewrite Hsu. cbn [negb].
      by destruct Hpw as [-> | ->]. }
    refine (conj _ (conj _ _)); intros;
      [ unfold createMnemonicKeyRing | unfold createLedgerKeyRing
      | unfold createPrivateKeyKeyRing ];
      unfold bind at 1; by rewrite Hthrow.
  - intros bip44Path e Hpath r st' Hrun. unfold throw in Hpath.
    assert (Hcases :
      (r, st') = (throw (Error "Must provide password to sign in to vault"), st)
      \/ (r, st') = (throw e, afterSignUp st password)).
    { destruct (signUpIfNeeded_outcome password st) as [Hsu | Hsu];
        destruct Hrun as [[mnemonic <-] | (pubKey & app & <-)];
        [ left; unfold createMnemonicKeyRing
        | left; unfold createLedgerKeyRing
        | right; unfold createMnemonicKeyRing
        | right; unfold createLedgerKeyRing ];
        unfold bind at 1; rewrite Hsu; try reflexivity;
        unfold bind at 1; unfold liftResult at 1; by rewrite Hpath. }
    destruct Hcases as [E | E]; inversion E; subst; [done|].
    split; [reflexivity|]. apply afterSignUp_frame.
Qed.

Lemma createMnemonicKeyRing_inv (mnemonic : string) (bip44Path : BIP44HDPath)
    (name : string) (password : option string) (vaultId : string)
    (st st' : State) :
  createMnemonicKeyRing mnemonic bip44Path name password st = (ok vaultId, st') ->
  exists keyRing vaultData,
    signUpIfNeeded password st = (ok tt, afterSignUp st password) /\
    validateBIP44Path bip44Path = ok tt /\
    List.find (fun k => String.eqb "mnemonic" (supportedKeyRingType k)) keyRings
    = Some keyRing /\
    createKeyRingVault keyRing (MnemonicSecret mnemonic bip44Path) = ok vaultData.
Proof.
  intros Hrun.
  destruct (signUpIfNeeded_outcome password st) as [Hsu | Hsu].
  { revert Hrun. unfold createMnemonicKeyRing. unfold bind at 1.
    rewrite Hsu. discriminate. }
  revert Hrun. unfold createMnemonicKeyRing, getKeyRing. unfold ok in *. run_eff.
  rewrite Hsu.
  destruct (validateBIP44Path bip44Path) as [e|[]]; [discriminate|].
  destruct (List.find _ keyRings) as [keyRing|]; [|discriminate].
  destruct (createKeyRingVault keyRing (MnemonicSecret mnemonic bip44Path))
    as [e|vaultData] eqn:Hcv; [discriminate|].
  intros _. exists keyRing, vaultData. by repeat split.
Qed.

(** X21. Single-choice chains are committed at creation: after
    [createMnemonicKeyRing] returned a new id that no earlier entry
    carried, and with the key ring unlocked, for every chain without
    alternative coin types (all of them with a non-zero coin type)
    [needMnemonicKeyCoinTypeFinalize] returns [false] and
    [finalizeMnemonicKeyCoinType] throws for every coin type and writes
    nothing. *)
Theorem created_mnemonic_is_prefinalized `{ChainsService}
    (mnemonic : string) (bip44Path : BIP44HDPath) (name : string)
    (password : option string) (vaultId : string) (st st' : State) :
  createMnemonicKeyRing mnemonic bip44Path name password st = (ok vaultId, st') ->
  getVault (vaultService st) "keyRing" vaultId = None ->
  isLocked (vaultService st') = false ->
  (forall ci, In ci getChainInfos -> hasNoAlternatives ci = true ->
              Number.truthy (coinType (bip44 ci)) = true) ->
  forall ci, In ci getChainInfos -> hasNoAlternatives ci = true ->
    needMnemonicKeyCoinTypeFinalize vaultId (chainId ci) st' = (ok false, st') /\
    (forall c, exists e,
       finalizeMnemonicKeyCoinType vaultId (chainId ci) c st' = (throw e, st')).
Proof.
  intros Hrun Hfresh Hl Hnz ci Hin Hno.
  destruct (createMnemonicKeyRing_inv _ _ _ _ _ _ _ Hrun)
    as (keyRing & vaultData & Hsu & Hpath & Hf & Hcv).
  destruct (isLocked (vaultService (afterSignUp st password))) eqn:Hla.
  { rewrite (createMnemonicKeyRing_locked mnemonic bip44Path name password
               keyRing vaultData st Hsu Hpath Hf Hcv Hla) in Hrun.
    discriminate. }
  destruct (createMnemonicKeyRing_eq mnemonic bip44Path name password
              keyRing vaultData st Hsu Hpath Hf Hcv Hla)
    as (ins & Heq & Hty & _ & Htags & _).
  rewrite Heq in Hrun. unfold ok in Hrun. injection Hrun as Hid Hst.
  symmetry in Hid, Hst. clear Heq.
  destruct (Htags ci Hin Hno) as (ci' & Hin' & Hno' & _ & Htag).
  assert (Hfin : finalizedFor st' vaultId (coinTypeTag (chainId ci))).
  { exists ins. split; [|split].
    - unfold insensitiveOf, getVault. rewrite Hst. unfold afterAdd.
      cbn [vaultService]. rewrite getVaults_setVaults.
      destruct (afterSignUp_frame st password) as (Hvs & _).
      rewrite Hvs. unfold getVault in Hfresh.
      rewrite find_app_None by exact Hfresh.
      cbn [List.find id]. rewrite <- Hid, String.eqb_refl. reflexivity.
    - unfold prop. by rewrite Hty.
    - unfold prop. rewrite Htag. cbn [default truthy]. by apply Hnz. }
  split; [apply need_finalize_false; [exact Hl | exact Hfin]|].
  intros c.
  destruct (finalize_outcome vaultId (chainId ci) c st')
    as [[e He] | (x & _ & Hv & _ & Hfalsy & _)]; [eauto|].
  exfalso. destruct Hfin as (ins' & Hins' & _ & Htruthy).
  unfold insensitiveOf in Hins'. rewrite Hv in Hins'.
  cbn [fmap option_fmap option_map] in Hins'. inversion Hins'; subst ins'.
  congruence.
Qed.

End Creation.

(** ** Creation run on the small wallet *)

Lemma createMnemonicKeyRing_returns_witness :
  fst (@createMnemonicKeyRing wholeId threeStrategies forgingCreation chainList
         fixedStorage "abandon ability" goodPath "second" None wallet)
  = ok "v3" /\
  @createMnemonicKeyRing wholeId threeStrategies forgingCreation chainList
    fixedStorage "abandon ability" goodPath "second" None lockedWallet
  = (throw (Error "Vault is not unlocked"), lockedWallet).
Proof.
  split.
  - destruct (@createMnemonicKeyRing_returns wholeId threeStrategies
                forgingCreation chainList fixedStorage
                "abandon ability" goodPath "second" None mnemonicStrategy
                {| vaultData_insensitive :=
                     <["keyRingType" := JString "forged"]>
                     {[ "bip44Path" := JNull ]};
                   vaultData_sensitive := ∅ |}
                wallet eq_refl eq_refl eq_refl eq_refl) as [_ Hunlocked].
    destruct (Hunlocked eq_refl) as (ins & Hrun & _).
    rewrite Hrun. reflexivity.
  - destruct (@createMnemonicKeyRing_returns wholeId threeStrategies
                forgingCreation chainList fixedStorage
                "abandon ability" goodPath "second" None mnemonicStrategy
                {| vaultData_insensitive :=
                     <["keyRingType" := JString "forged"]>
                     {[ "bip44Path" := JNull ]};
                   vaultData_sensitive := ∅ |}
                lockedWallet eq_refl eq_refl eq_refl eq_refl) as [Hlocked _].
    exact (Hlocked eq_refl).
Defined.

Lemma createLedger_createPrivateKey_return_witness :
  fst (@createLedgerKeyRing threeStrategies forgingCreation fixedStorage
         [Byte.x02] "Cosmos" goodPath "cold two" None wallet)
  = ok "v3" /\
  @createLedgerKeyRing threeStrategies forgingCreation fixedStorage
    [Byte.x02] "Cosmos" goodPath "cold two" None lockedWallet
  = (throw (Error "Vault is not unlocked"), lockedWallet).
Proof.
  split.
  - destruct (@createLedger_createPrivateKey_return threeStrategies
                forgingCreation fixedStorage "cold two" None
                {| supportedKeyRingType := "ledger";
                   keyRing_sign := fun _ _ _ _ _ =>
                     throw (Error "device not connected") |}
                {| vaultData_insensitive :=
                     <["keyRingType" := JString "forged"]>
                     {[ "bip44Path" := JNull ]};
                   vaultData_sensitive := ∅ |}
                wallet eq_refl) as [Hledger _].
    destruct (Hledger [Byte.x02] "Cosmos" goodPath eq_refl eq_refl eq_refl)
      as [_ Hunlocked].
    destruct (Hunlocked eq_refl) as (ins & Hrun & _).
    rewrite Hrun. reflexivity.
  - destruct (@createLedger_createPrivateKey_return threeStrategies
                forgingCreation fixedStorage "cold two" None
                {| supportedKeyRingType := "ledger";
                   keyRing_sign := fun _ _ _ _ _ =>
                     throw (Error "device not connected") |}
                {| vaultData_insensitive :=
                     <["keyRingType" := JString "forged"]>
                     {[ "bip44Path" := JNull ]};
                   vaultData_sensitive := ∅ |}
                lockedWallet eq_refl) as [Hledger _].
    destruct (Hledger [Byte.x02] "Cosmos" goodPath eq_refl eq_refl eq_refl)
      as [Hlocked _].
    exact (Hlocked eq_refl).
Defined.

Lemma creation_refused_witness :
  let run :=
    @createLedgerKeyRing threeStrategies forgingCreation fixedStorage
      [Byte.x02] "Cosmos" badPath "cold two" None wallet in
  is_thrown (fst run) = true /\
  getVaults (vaultService (snd run)) "keyRing"
  = getVaults (vaultService wallet) "keyRing" /\
  _selectedVaultId (snd run) = _selectedVaultId wallet /\
  dispatched (snd run) = dispatched wallet.
Proof.
  intros run.
  destruct (@creation_refused wholeId threeStrategies forgingCreation chainList
              fixedStorage "cold two" None wallet) as [_ Hpath].
  apply (Hpath badPath (Error "Invalid account in hd path") eq_refl
           (fst run) (snd run)).
  right. exists [Byte.x02], "Cosmos". apply surjective_pairing.
Defined.

Lemma created_mnemonic_is_prefinalized_witness :
  let created :=
    @createMnemonicKeyRing wholeId threeStrategies forgingCreation chainList
      fixedStorage "abandon ability" goodPath "second" None wallet in
  @needMnemonicKeyCoinTypeFinalize wholeId "v3" (chainId osmosis) (snd created)
  = (ok false, snd created) /\
  (forall c, exists e,
     @finalizeMnemonicKeyCoinType twoChains wholeId "v3" (chainId osmosis) c
       (snd created) = (throw e, snd created)).
Proof.
  apply (@created_mnemonic_is_prefinalized wholeId threeStrategies forgingCreation
           chainList fixedStorage twoChains
           "abandon ability" goodPath "second" None "v3" wallet).
  - reflexivity.
  - reflexivity.
  - reflexivity.
  - intros ci [<- | [<- | []]]; [discriminate | reflexivity].
  - right. left. reflexivity.
  - reflexivity.
Defined.

(** The new entry of the run above: the forged type tag is overwritten,
    the single-choice chain is committed, the multi-choice chain is not,
    and the getter resolves to the new id. *)
Example createMnemonicKeyRing_run :
  let st' :=
    snd (@createMnemonicKeyRing wholeId threeStrategies forgingCreation chainList
           fixedStorage "abandon ability" goodPath "second" None wallet) in
  let field (k : string) :=
    (fun ins : PlainObject => ins !! k) <$> insensitiveOf st' "v3" in
  field "keyRingType" = Some (Some (JString "mnemonic")) /\
  field "keyRingName" = Some (Some (JString "second")) /\
  field "keyRing-osmosis-1-coinType" = Some (Some (JNumber (Number.of_Z 118))) /\
  field "keyRing-cosmoshub-4-coinType" = Some None /\
  field "bip44Path" = Some (Some JNull) /\
  fst (selectedVaultId st') = ok "v3" /\
  dispatched st' = [keystoreChanged].
Proof. vm_compute. repeat split. Qed.

(** * Further properties of the Starknet adapter *)

(** ** Hexadecimal text of bytes *)

Lemma hexDigit_inj (m n : N) :
  (m < 16)%N -> (n < 16)%N -> hexDigit m = hexDigit n -> m = n.
Proof.
  intros Hm Hn E. apply (f_equal hexDigitValue) in E.
  rewrite !hexDigitValue_hexDigit in E by assumption. by inversion E.
Qed.

Lemma byte_to_N_inj (a b : Byte.byte) : Byte.to_N a = Byte.to_N b -> a = b.
Proof.
  intros E. apply (f_equal Byte.of_N) in E.
  rewrite !Byte.of_to_N in E. by inversion E.
Qed.

Lemma toHexString_inj (a b : list Byte.byte) :
  toHexString a = toHexString b -> a = b.
Proof.
  revert b. induction a as [|x a IH]; intros [|y b] E; try discriminate;
    [reflexivity|].
  cbn [toHexString] in E. inversion E as [[Hhi Hlo Hrest]].
  pose proof (byte_to_N_lt x) as Hx. pose proof (byte_to_N_lt y) as Hy.
  apply hexDigit_inj in Hhi;
    [| apply N.Div0.div_lt_upper_bound; lia
     | apply N.Div0.div_lt_upper_bound; lia ].
  apply hexDigit_inj in Hlo; [| apply N.mod_lt; lia | apply N.mod_lt; lia ].
  f_equal; [|by apply IH].
  apply byte_to_N_inj.
  rewrite (N.div_mod (Byte.to_N x) 16), (N.div_mod (Byte.to_N y) 16) by lia.
  by rewrite Hhi, Hlo.
Qed.

Lemma toHexString_length (bytes : list Byte.byte) :
  String.length (toHexString bytes) = (2 * length bytes)%nat.
Proof.
  induction bytes as [|b rest IH]; [reflexivity|].
  cbn [toHexString String.length length]. rewrite IH. lia.
Qed.

(** ** Resolving the key *)

Ltac run_adapter :=
  cbv [bind get ret raise liftResult request throw ok].

Section AdapterKey.
Context `{StarknetCollaborators}.

Lemma getStarknetKey_outcome (vaultId chainId : string) (sent : list Call) :
  (exists e, getStarknetKey vaultId chainId sent = (inl e, sent)) \/
  (exists e, getStarknetKey vaultId chainId sent
             = (inl e, (sent ++ [KeyRingGetPubKey chainId vaultId])%list)) \/
  (exists pk,
     keyRingService_getPubKey chainId vaultId = inr pk /\
     getStarknetKey vaultId chainId sent
     = (inr {| hexAddress :=
                 "0x" +:+ toHexString
                   (getStarknetAddress pk starknetSalt starknetClassHash);
               pubKey := toBytes pk;
               address := getStarknetAddress pk starknetSalt starknetClassHash |},
        (sent ++ [KeyRingGetPubKey chainId vaultId])%list)).
Proof.
  unfold getStarknetKey. run_adapter.
  destruct (getModularChainInfoOrThrow chainId) as [e|chainInfo]; [left; eauto|].
  destruct (negb (hasStarknet chainInfo)); [left; eauto|].
  destruct (keyRingService_getPubKey chainId vaultId) as [e|pk];
    [right; left; eauto|].
  right; right. exists pk. split; reflexivity.
Qed.

(** X22. [getStarknetKey]: an unknown chain throws what the chain lookup
    throws and a chain without the "starknet" section throws "Chain is not a
    starknet chain", both before the key ring is asked for anything; a
    failing key ring throws its error after the one public-key request.
    Otherwise the address is the one the public key derives from the fixed
    salt and class hash, [pubKey] is the key's bytes and [hexAddress] is
    [0x] followed by two lower-case digits per address byte. *)
Theorem getStarknetKey_spec (vaultId chainId : string) (sent : list Call) :
  (forall e,
     getModularChainInfoOrThrow chainId = throw e ->
     getStarknetKey vaultId chainId sent = (throw e, sent)) /\
  (forall chainInfo,
     getModularChainInfoOrThrow chainId = ok chainInfo ->
     hasStarknet chainInfo = false ->
     getStarknetKey vaultId chainId sent
     = (throw (Error "Chain is not a starknet chain"), sent)) /\
  (forall chainInfo e,
     getModularChainInfoOrThrow chainId = ok chainInfo ->
     hasStarknet chainInfo = true ->
     keyRingService_getPubKey chainId vaultId = throw e ->
     getStarknetKey vaultId chainId sent
     = (throw e, (sent ++ [KeyRingGetPubKey chainId vaultId])%list)) /\
  (forall key sent',
     getStarknetKey vaultId chainId sent = (ok key, sent') ->
     exists pk,
       keyRingService_getPubKey chainId vaultId = ok pk /\
       address key = getStarknetAddress pk starknetSalt starknetClassHash /\
       pubKey key = toBytes pk /\
       hexAddress key = "0x" +:+ toHexString (address key) /\
       String.length (hexAddress key) = (2 + 2 * length (address key))%nat).
Proof.
  refine (conj _ (conj _ (conj _ _))).
  - intros e E. unfold getStarknetKey. run_adapter. unfold throw in E.
    by rewrite E.
  - intros chainInfo E Hs. unfold getStarknetKey. run_adapter. unfold ok in E.
    by rewrite E, Hs.
  - intros chainInfo e E Hs Hpk. unfold getStarknetKey. run_adapter.
    unfold ok in E. unfold throw in Hpk. by rewrite E, Hs, Hpk.
  - intros key sent' Hrun.
    destruct (getStarknetKey_outcome vaultId chainId sent)
      as [[e He] | [[e He] | (pk & Hpk & Hok)]];
      try (rewrite He in Hrun; discriminate).
    rewrite Hok in Hrun. unfold ok in Hrun. injection Hrun as <- _.
    exists pk. cbn [address pubKey hexAddress].
    repeat split; [exact Hpk|].
    rewrite append_0x. cbn [String.length]. by rewrite toHexString_length.
Qed.

(** X23. The signer check compares text, and the text identifies the
    address: two resolved keys have the same [hexAddress] exactly when
    their address bytes are the same, and [signStarknetMessage] gets past
    the check exactly for the signer [0x<lower-case hex of the address>];
    a signer spelled in upper case or without the prefix is refused. *)
Theorem hexAddress_identifies_address (vaultId chainId : string)
    (key : StarknetKey) (sent sent' : list Call) :
  getStarknetKey vaultId chainId sent = (ok key, sent') ->
  (forall vaultId2 chainId2 key2 sent2 sent2',
     getStarknetKey vaultId2 chainId2 sent2 = (ok key2, sent2') ->
     (hexAddress key = hexAddress key2 <-> address key = address key2)) /\
  (forall signer typedData,
     signStarknetMessage vaultId chainId signer typedData sent
     = (throw (Error "Invalid signer"), sent')
     <-> signer <> "0x" +:+ toHexString (address key)).
Proof.
  intros Hrun.
  assert (Hhex : forall v c k s s',
            getStarknetKey v c s = (ok k, s') ->
            hexAddress k = "0x" +:+ toHexString (address k)).
  { intros v c k s s' Hk.
    destruct (getStarknetKey_outcome v c s)
      as [[e He] | [[e He] | (pk & Hpk & Hok)]];
      try (rewrite He in Hk; discriminate).
    rewrite Hok in Hk. unfold ok in Hk. by injection Hk as <- _. }
  split.
  - intros v2 c2 key2 s2 s2' Hrun2.
    rewrite (Hhex _ _ _ _ _ Hrun), (Hhex _ _ _ _ _ Hrun2). split.
    + intros E. rewrite !append_0x in E. inversion E as [E'].
      by apply toHexString_inj.
    + by intros ->.
  - intros signer typedData. rewrite <- (Hhex _ _ _ _ _ Hrun).
    unfold signStarknetMessage, signDigest. unfold ok in Hrun. run_adapter.
    rewrite Hrun.
    destruct (String.eqb_spec (hexAddress key) signer) as [E|E]; cbn [negb].
    + split; [|congruence].
      destruct (getMessageHash typedData signer) as [e|msgHash].
      * intros E'. inversion E' as [[He Hs]].
        exfalso. revert Hs. clear. intros Hs.
        apply (f_equal (@length Call)) in Hs. rewrite length_app in Hs.
        cbn [length] in Hs. lia.
      * destruct (keyRingService_sign _ _ _ _) as [e|sig].
        { intros E'. inversion E' as [[He Hs]].
          exfalso. revert Hs. clear. intros Hs.
          apply (f_equal (@length Call)) in Hs. rewrite !length_app in Hs.
          cbn [length] in Hs. lia. }
        intros E'. inversion E' as [[He Hs]].
        exfalso. revert Hs. clear. intros Hs.
        apply (f_equal (@length Call)) in Hs. rewrite !length_app in Hs.
        cbn [length] in Hs. lia.
    + split; [congruence | reflexivity].
Qed.

End AdapterKey.

(** ** The order of requests *)

Section AdapterOrder.
Context `{StarknetCollaborators}.

Lemma signDigest_outcome (chainId vaultId msgHash : string) (sent : list Call) :
  exists r,
    signDigest chainId vaultId msgHash sent
    = (r, (sent ++ [KeyRingSign chainId vaultId
                      (Buffer_from_hex (replace0x msgHash)) keccak256])%list).
Proof.
  unfold signDigest. run_adapter.
  destruct (keyRingService_sign _ _ _ _) as [e|sig]; eauto.
Qed.

(** After the key was resolved: a digest request, then signing. *)
Lemma hash_then_sign (chainId vaultId : string) (sent : list Call)
    (h : Call) (answer : result string) :
  isHashRequest h = true ->
  followsSigningTrace chainId vaultId sent
    (bind (request h answer) (signDigest chainId vaultId)
       (sent ++ [KeyRingGetPubKey chainId vaultId])%list).
Proof.
  intros Hh. unfold followsSigningTrace. unfold bind, request.
  destruct answer as [e|msgHash].
  - exists [KeyRingGetPubKey chainId vaultId; h]. cbn [fst snd].
    split; [by rewrite <- app_assoc|]. split; [by constructor | discriminate].
  - destruct (signDigest_outcome chainId vaultId msgHash
                ((sent ++ [KeyRingGetPubKey chainId vaultId]) ++ [h])%list)
      as [r ->].
    eexists. cbn [fst snd]. split; [by rewrite <- !app_assoc|].
    split; [by constructor | eauto].
Qed.

Lemma thrown_follows (chainId vaultId : string) (sent added : list Call)
    (e : JsError) :
  SigningTrace chainId vaultId added ->
  followsSigningTrace chainId vaultId sent (inl e, (sent ++ added)%list).
Proof.
  intros Ht. exists added. cbn [fst snd]. split; [reflexivity|].
  split; [exact Ht | discriminate].
Qed.

(** X24. Every signing entry point follows one order of requests: nothing
    is sent before the public-key request, a digest routine is called at
    most once and only after the key was resolved, the key ring is asked to
    sign at most once, only after the digest was computed, for the same
    chain and vault and always with the keccak convention; a call that
    returns has sent exactly these three requests. *)
Theorem signing_request_order (vaultId chainId signer : string)
    (sent : list Call) :
  (forall typedData,
     followsSigningTrace chainId vaultId sent
       (signStarknetMessage vaultId chainId signer typedData sent)) /\
  (forall transactions details,
     followsSigningTrace chainId vaultId sent
       (signStarknetTransaction vaultId chainId signer transactions details sent)) /\
  (forall details,
     followsSigningTrace chainId vaultId sent
       (signStarknetDeployAccountTransaction vaultId chainId signer details sent)) /\
  (forall details,
     followsSigningTrace chainId vaultId sent
       (signStarknetDeclareTransactionn vaultId chainId signer details sent)).
Proof.
  assert (Hnil : forall e,
            followsSigningTrace chainId vaultId sent (inl e, sent)).
  { intros e. rewrite <- (app_nil_r sent) at 2.
    apply thrown_follows. constructor. }
  assert (Hkey : forall e,
            followsSigningTrace chainId vaultId sent
              (inl e, (sent ++ [KeyRingGetPubKey chainId vaultId])%list)).
  { intros e. apply thrown_follows. constructor. }
  refine (conj _ (conj _ (conj _ _))); intros.
  - unfold signStarknetMessage. unfold bind at 1.
    destruct (getStarknetKey_outcome vaultId chainId sent)
      as [[e ->] | [[e ->] | (pk & _ & ->)]]; [apply Hnil | apply Hkey |].
    cbn [hexAddress]. destruct (negb _); [apply Hkey|].
    by apply hash_then_sign.
  - unfold signStarknetTransaction. unfold bind at 1.
    destruct (getStarknetKey_outcome vaultId chainId sent)
      as [[e ->] | [[e ->] | (pk & _ & ->)]]; [apply Hnil | apply Hkey |].
    cbn [hexAddress]. destruct (negb _); [apply Hkey|].
    unfold bind at 1, liftResult at 1.
    destruct (getExecuteCalldata _ _) as [e|compiled]; [apply Hkey|].
    destruct (includes ETransactionVersion2 _); [by apply hash_then_sign|].
    destruct (includes ETransactionVersion3 _).
    + unfold bind at 2, liftResult at 1.
      destruct (withDAModes _ _) as [e|args3].
      * unfold bind. apply Hkey.
      * by apply hash_then_sign.
    + unfold bind, raise. apply Hkey.
  - unfold signStarknetDeployAccountTransaction. unfold bind at 1.
    destruct (getStarknetKey_outcome vaultId chainId sent)
      as [[e ->] | [[e ->] | (pk & _ & ->)]]; [apply Hnil | apply Hkey |].
    cbn [hexAddress]. destruct (negb _); [apply Hkey|].
    unfold bind at 1, liftResult at 1.
    destruct (CallData_compile _) as [e|compiled]; [apply Hkey|].
    destruct (includes ETransactionVersion2 _); [by apply hash_then_sign|].
    destruct (includes ETransactionVersion3 _).
    + unfold bind at 2, liftResult at 1.
      destruct (withDAModes _ _) as [e|args3].
      * unfold bind. apply Hkey.
      * by apply hash_then_sign.
    + unfold bind, raise. apply Hkey.
  - unfold signStarknetDeclareTransactionn. unfold bind at 1.
    destruct (getStarknetKey_outcome vaultId chainId sent)
      as [[e ->] | [[e ->] | (pk & _ & ->)]]; [apply Hnil | apply Hkey |].
    cbn [hexAddress]. destruct (negb _); [apply Hkey|].
    destruct (includes ETransactionVersion2 _); [by apply hash_then_sign|].
    destruct (includes ETransactionVersion3 _).
    + unfold bind at 2, liftResult at 1.
      destruct (withDAModes _ _) as [e|args3].
      * unfold bind. apply Hkey.
      * by apply hash_then_sign.
    + unfold bind, raise. apply Hkey.
Qed.

End AdapterOrder.

(** ** Refusals before a digest is computed *)

Lemma includes_V3_not_V2 (version : JsValue) :
  includes ETransactionVersion3 version = true ->
  includes ETransactionVersion2 version = false.
Proof.
  intros Hv. apply ruleSetOf_V3 in Hv. unfold ruleSetOf in Hv.
  by destruct (includes ETransactionVersion2 version).
Qed.

Lemma withDAModes_refused (details args : PlainObject) :
  (prop details "nonceDataAvailabilityMode" <> JString "L1" /\
   prop details "nonceDataAvailabilityMode" <> JString "L2") \/
  (prop details "feeDataAvailabilityMode" <> JString "L1" /\
   prop details "feeDataAvailabilityMode" <> JString "L2") ->
  withDAModes details args = throw (Error "EDAM conversion").
Proof.
  intros Hbad. unfold withDAModes.
  destruct Hbad as [[H1 H2] | [H1 H2]].
  - by rewrite intDAM_other.
  - rewrite (intDAM_other (prop details "feeDataAvailabilityMode")) by done.
    unfold intDAM.
    by destruct
      (strictEqString (prop details "nonceDataAvailabilityMode") "L1"),
      (strictEqString (prop details "nonceDataAvailabilityMode") "L2").
Qed.

Section AdapterGuards.
Context `{StarknetCollaborators}.

(** X25. With the signer accepted, the three transaction entry points
    refuse before any digest routine is called: a version in neither
    enumeration gives "unsupported sign...Transaction version" with the
    name of the kind, and a v3-style version whose nonce or fee
    data-availability mode is neither "L1" nor "L2" gives "EDAM
    conversion". The calldata is compiled before the version is looked at,
    so its throw comes first; the only request sent is the one for the
    public key. *)
Theorem refused_before_hashing (vaultId chainId signer : string)
    (details : PlainObject) (key : StarknetKey) (sent sent' : list Call) :
  getStarknetKey vaultId chainId sent = (ok key, sent') ->
  hexAddress key = signer ->
  let version := prop details "version" in
  let refusals (invoke deploy declare : JsError) :=
    (forall transactions,
       signStarknetTransaction vaultId chainId signer transactions details sent
       = (refusedWith
            (getExecuteCalldata transactions (prop details "cairoVersion"))
            invoke, sent')) /\
    signStarknetDeployAccountTransaction vaultId chainId signer details sent
    = (refusedWith (CallData_compile (prop details "constructorCalldata"))
         deploy, sent') /\
    signStarknetDeclareTransactionn vaultId chainId signer details sent
    = (inl declare, sent') in
  sent' = (sent ++ [KeyRingGetPubKey chainId vaultId])%list /\
  (includes ETransactionVersion2 version = false ->
   includes ETransactionVersion3 version = false ->
   refusals (Error "unsupported signTransaction version")
            (Error "unsupported signDeployAccountTransaction version")
            (Error "unsupported signDeclareTransaction version")) /\
  (includes ETransactionVersion3 version = true ->
   (prop details "nonceDataAvailabilityMode" <> JString "L1" /\
    prop details "nonceDataAvailabilityMode" <> JString "L2") \/
   (prop details "feeDataAvailabilityMode" <> JString "L1" /\
    prop details "feeDataAvailabilityMode" <> JString "L2") ->
   refusals (Error "EDAM conversion") (Error "EDAM conversion")
            (Error "EDAM conversion")).
Proof.
  intros Hkey Hsigner version refusals.
  assert (Heq : String.eqb (hexAddress key) signer = true)
    by (by apply String.eqb_eq).
  split; [by eapply getStarknetKey_sent|].
  unfold ok in Hkey. subst version refusals. cbv beta.
  split.
  - intros H2 H3. refine (conj _ (conj _ _)); intros.
    + unfold signStarknetTransaction. run_adapter. rewrite Hkey, Heq. cbn [negb].
      destruct (getExecuteCalldata _ _) as [e|compiled]; [done|].
      by rewrite H2, H3.
    + unfold signStarknetDeployAccountTransaction. run_adapter.
      rewrite Hkey, Heq. cbn [negb].
      destruct (CallData_compile _) as [e|compiled]; [done|].
      by rewrite H2, H3.
    + unfold signStarknetDeclareTransactionn. run_adapter.
      rewrite Hkey, Heq. cbn [negb]. by rewrite H2, H3.
  - intros H3 Hbad. pose proof (includes_V3_not_V2 _ H3) as H2.
    refine (conj _ (conj _ _)); intros.
    + unfold signStarknetTransaction. run_adapter. rewrite Hkey, Heq. cbn [negb].
      destruct (getExecuteCalldata _ _) as [e|compiled]; [done|].
      rewrite H2, H3. by rewrite withDAModes_refused.
    + unfold signStarknetDeployAccountTransaction. run_adapter.
      rewrite Hkey, Heq. cbn [negb].
      destruct (CallData_compile _) as [e|compiled]; [done|].
      rewrite H2, H3. by rewrite withDAModes_refused.
    + unfold signStarknetDeclareTransactionn. run_adapter.
      rewrite Hkey, Heq. cbn [negb].
      rewrite H2, H3. by rewrite withDAModes_refused.
Qed.

End AdapterGuards.

(** ** The object literals handed to the digest routines *)

Section AdapterLiterals.
Context `{StarknetCollaborators}.

(** X26. The version branch of [signStarknetTransaction], once the signer
    matched and the calldata compiled. A v2-style version hashes
    [{...details, senderAddress, compiledCalldata, version}]; a v3-style
    version hashes the same literal with the two data-availability modes
    as numbers, 0 for "L1" and 1 for "L2". In both, [senderAddress] is the
    [walletAddress] of [details] and [compiledCalldata] the compiled
    calldata whatever [details] held under these two keys, every other
    field of [details] reaches the digest routine unchanged, and the
    digest is then signed. *)
Theorem invoke_branch (vaultId chainId signer : string)
    (transactions compiled : JsValue) (details : PlainObject)
    (key : StarknetKey) (sent sent' : list Call) :
  getStarknetKey vaultId chainId sent = (ok key, sent') ->
  hexAddress key = signer ->
  getExecuteCalldata transactions (prop details "cairoVersion") = ok compiled ->
  let version := prop details "version" in
  let withModes (nonceMode feeMode : Z) (args : PlainObject) : PlainObject :=
    <["feeDataAvailabilityMode" := JNumber (Number.of_Z feeMode)]>
    (<["nonceDataAvailabilityMode" := JNumber (Number.of_Z nonceMode)]> args) in
  let hashed (args : PlainObject) :=
    bind (request (CalculateInvokeTransactionHash args)
                  (calculateInvokeTransactionHash args))
         (signDigest chainId vaultId) sent' in
  let v2 :=
    <["version" := version]>
    (<["compiledCalldata" := compiled]>
     (<["senderAddress" := prop details "walletAddress"]> details)) in
  (includes ETransactionVersion2 version = true ->
   signStarknetTransaction vaultId chainId signer transactions details sent
   = hashed v2) /\
  (forall nonceMode feeMode,
     includes ETransactionVersion3 version = true ->
     intDAM (prop details "nonceDataAvailabilityMode") = ok nonceMode ->
     intDAM (prop details "feeDataAvailabilityMode") = ok feeMode ->
     signStarknetTransaction vaultId chainId signer transactions details sent
     = hashed (withModes nonceMode feeMode v2) /\
     (nonceMode = 0 /\ prop details "nonceDataAvailabilityMode" = JString "L1" \/
      nonceMode = 1 /\ prop details "nonceDataAvailabilityMode" = JString "L2") /\
     (feeMode = 0 /\ prop details "feeDataAvailabilityMode" = JString "L1" \/
      feeMode = 1 /\ prop details "feeDataAvailabilityMode" = JString "L2")) /\
  v2 !! "senderAddress" = Some (prop details "walletAddress") /\
  v2 !! "compiledCalldata" = Some compiled /\
  (forall k,
     k <> "version" -> k <> "compiledCalldata" -> k <> "senderAddress" ->
     v2 !! k = details !! k).
Proof.
  intros Hkey Hsigner Hcd version withModes hashed v2.
  pose proof (signStarknetTransaction_branch vaultId chainId signer transactions
                compiled details key sent sent' Hkey Hsigner Hcd) as Hbranch.
  cbv zeta in Hbranch. subst version withModes hashed v2. cbv beta.
  assert (Hmode : forall dam mode,
            intDAM dam = ok mode ->
            mode = 0 /\ dam = JString "L1" \/ mode = 1 /\ dam = JString "L2").
  { intros dam mode. unfold intDAM.
    destruct (strictEqString dam "L1") eqn:E1.
    - apply strictEqString_true in E1. intros E. left. by inversion E.
    - destruct (strictEqString dam "L2") eqn:E2; [|discriminate].
      apply strictEqString_true in E2. intros E. right. by inversion E. }
  refine (conj _ (conj _ (conj _ (conj _ _)))).
  - intros H2. unfold ruleSetOf in Hbranch. by rewrite H2 in Hbranch.
  - intros nonceMode feeMode H3 Hn Hf.
    rewrite (ruleSetOf_V3 _ H3) in Hbranch.
    split; [by apply Hbranch|]. split; by apply Hmode.
  - rewrite !lookup_insert_ne by discriminate. apply lookup_insert_eq.
  - rewrite lookup_insert_ne by discriminate. apply lookup_insert_eq.
  - intros k Hv Hc Hs. by rewrite !lookup_insert_ne by congruence.
Qed.

(** X27. The version branch of the deploy-account and declare entry
    points, once the signer matched. Deploy-account: a v2-style version
    hashes [{...details, salt, constructorCalldata, version}] with the
    compiled calldata under [constructorCalldata]; a v3-style version
    hashes the literal that carries the compiled calldata under
    [compiledConstructorCalldata], keeps the uncompiled
    [constructorCalldata] of [details] and holds the two data-availability
    modes as numbers. Declare: the details with [version], and for a
    v3-style version the two modes as numbers. Every other field of
    [details] reaches the digest routine unchanged, and the digest is then
    signed. *)
Theorem deploy_declare_branch (vaultId chainId signer : string)
    (details : PlainObject) (key : StarknetKey) (sent sent' : list Call) :
  getStarknetKey vaultId chainId sent = (ok key, sent') ->
  hexAddress key = signer ->
  let version := prop details "version" in
  let withModes (nonceMode feeMode : Z) (args : PlainObject) : PlainObject :=
    <["feeDataAvailabilityMode" := JNumber (Number.of_Z feeMode)]>
    (<["nonceDataAvailabilityMode" := JNumber (Number.of_Z nonceMode)]> args) in
  let hashed (c : Call) (answer : result string) :=
    bind (request c answer) (signDigest chainId vaultId) sent' in
  (forall compiled,
     CallData_compile (prop details "constructorCalldata") = ok compiled ->
     let v2 :=
       <["version" := version]>
       (<["constructorCalldata" := compiled]>
        (<["salt" := prop details "addressSalt"]> details)) in
     let v3 :=
       <["version" := version]>
       (<["compiledConstructorCalldata" := compiled]>
        (<["salt" := prop details "addressSalt"]> details)) in
     (includes ETransactionVersion2 version = true ->
      signStarknetDeployAccountTransaction vaultId chainId signer details sent
      = hashed (CalculateDeployAccountTransactionHash v2)
               (calculateDeployAccountTransactionHash v2)) /\
     (forall nonceMode feeMode,
        includes ETransactionVersion3 version = true ->
        intDAM (prop details "nonceDataAvailabilityMode") = ok nonceMode ->
        intDAM (prop details "feeDataAvailabilityMode") = ok feeMode ->
        signStarknetDeployAccountTransaction vaultId chainId signer details sent
        = hashed (CalculateDeployAccountTransactionHash
                    (withModes nonceMode feeMode v3))
                 (calculateDeployAccountTransactionHash
                    (withModes nonceMode feeMode v3)) /\
        withModes nonceMode feeMode v3 !! "compiledConstructorCalldata"
        = Some compiled /\
        withModes nonceMode feeMode v3 !! "constructorCalldata"
        = details !! "constructorCalldata") /\
     v2 !! "constructorCalldata" = Some compiled /\
     (forall k,
        k <> "version" -> k <> "salt" -> k <> "constructorCalldata" ->
        v2 !! k = details !! k)) /\
  (let v2 := <["version" := version]> details in
   (includes ETransactionVersion2 version = true ->
    signStarknetDeclareTransactionn vaultId chainId signer details sent
    = hashed (CalculateDeclareTransactionHash v2)
             (calculateDeclareTransactionHash v2)) /\
   (forall nonceMode feeMode,
      includes ETransactionVersion3 version = true ->
      intDAM (prop details "nonceDataAvailabilityMode") = ok nonceMode ->
      intDAM (prop details "feeDataAvailabilityMode") = ok feeMode ->
      signStarknetDeclareTransactionn vaultId chainId signer details sent
      = hashed (CalculateDeclareTransactionHash (withModes nonceMode feeMode v2))
               (calculateDeclareTransactionHash (withModes nonceMode feeMode v2))) /\
   (forall k, k <> "version" -> v2 !! k = details !! k)).
Proof.
  intros Hkey Hsigner version withModes hashed.
  assert (Heq : String.eqb (hexAddress key) signer = true)
    by (by apply String.eqb_eq).
  unfold ok in Hkey. subst version withModes hashed. cbv beta.
  split.
  - intros compiled Hcd v2 v3. unfold ok in Hcd. subst v2 v3.
    refine (conj _ (conj _ (conj _ _))).
    + intros H2. unfold signStarknetDeployAccountTransaction. run_adapter.
      by rewrite Hkey, Heq, Hcd, H2.
    + intros nonceMode feeMode H3 Hn Hf.
      pose proof (includes_V3_not_V2 _ H3) as H2.
      refine (conj _ (conj _ _)).
      * unfold signStarknetDeployAccountTransaction, withDAModes. run_adapter.
        rewrite Hkey, Heq, Hcd, H2, H3. cbn [negb].
        unfold ok in Hn, Hf. by rewrite Hn, Hf.
      * rewrite !lookup_insert_ne by discriminate. apply lookup_insert_eq.
      * by rewrite !lookup_insert_ne by discriminate.
    + rewrite lookup_insert_ne by discriminate. apply lookup_insert_eq.
    + intros k Hv Hs Hc. by rewrite !lookup_insert_ne by congruence.
  - refine (conj _ (conj _ _)).
    + intros H2. unfold signStarknetDeclareTransactionn. run_adapter.
      by rewrite Hkey, Heq, H2.
    + intros nonceMode feeMode H3 Hn Hf.
      pose proof (includes_V3_not_V2 _ H3) as H2.
      unfold signStarknetDeclareTransactionn, withDAModes. run_adapter.
      rewrite Hkey, Heq, H2, H3. cbn [negb].
      unfold ok in Hn, Hf. by rewrite Hn, Hf.
    + intros k Hv. by rewrite lookup_insert_ne by congruence.
Qed.

End AdapterLiterals.

(** ** Reading the re-encoded signature back *)

Lemma parseHexDigits_of_hex_uint_acc (d : Hexadecimal.uint) (acc : positive) :
  parseHexDigits (N.pos acc) (HexadecimalString.NilEmpty.string_of_uint d)
  = Some (N.pos (Pos.of_hex_uint_acc d acc)).
Proof.
  revert acc.
  induction d as [|d IH|d IH|d IH|d IH|d IH|d IH|d IH|d IH|d IH|d IH|d IH
                  |d IH|d IH|d IH|d IH|d IH]; intros acc;
    [reflexivity|..];
    cbn [HexadecimalString.NilEmpty.string_of_uint parseHexDigits
         Pos.of_hex_uint_acc];
    rewrite <- IH;
    match goal with
    | |- context [hexDigitValue ?c] =>
        let v := eval vm_compute in (hexDigitValue c) in
        change (hexDigitValue c) with v
    end;
    cbv beta iota; f_equal; lia.
Qed.

Lemma parseHexDigits_of_hex_uint (d : Hexadecimal.uint) :
  parseHexDigits 0 (HexadecimalString.NilEmpty.string_of_uint d)
  = Some (N.of_hex_uint d).
Proof.
  unfold N.of_hex_uint.
  induction d as [|d IH|d IH|d IH|d IH|d IH|d IH|d IH|d IH|d IH|d IH|d IH
                  |d IH|d IH|d IH|d IH|d IH];
    [reflexivity | exact IH | ..];
    cbn [HexadecimalString.NilEmpty.string_of_uint parseHexDigits Pos.of_hex_uint];
    rewrite <- parseHexDigits_of_hex_uint_acc;
    match goal with
    | |- context [hexDigitValue ?c] =>
        let v := eval vm_compute in (hexDigitValue c) in
        change (hexDigitValue c) with v
    end;
    reflexivity.
Qed.

(** [BigInt("0x" + n.toString(16))] is [n] again, for [n >= 0]. *)
Lemma BigInt_toString16 (n : Z) :
  0 <= n -> BigInt ("0x" +:+ toString16 n) = ok n.
Proof.
  intros Hn.
  assert (Hs : toString16 n
               = HexadecimalString.NilZero.string_of_uint
                   (N.to_hex_uint (Z.to_N n))).
  { destruct n; [reflexivity | reflexivity | lia]. }
  rewrite Hs. clear Hs.
  pose proof (HexadecimalN.Unsigned.of_to (Z.to_N n)) as Hof.
  pose proof (parseHexDigits_of_hex_uint (N.to_hex_uint (Z.to_N n))) as Hp.
  rewrite Hof in Hp.
  unfold BigInt. rewrite append_0x.
  destruct (N.to_hex_uint (Z.to_N n)) eqn:Hd;
    cbn [HexadecimalString.NilZero.string_of_uint
         HexadecimalString.NilEmpty.string_of_uint] in *;
    cbv beta iota;
    try (rewrite Hp; unfold ok; do 2 f_equal; lia).
  cbn in Hof. unfold ok. do 2 f_equal. cbn. lia.
Qed.

(** X28. The re-encoding loses nothing: for [r] and [s] of 1 to 32 bytes
    and a recovery indicator that is not negative, each of the five fields
    reads back with [BigInt] as a number, the two limbs of [r] and of [s]
    are below [2^128], [low + 2^128 * high] is the integer the bytes spell,
    and the last field is the indicator. *)
Theorem formatEthSignature_reads_back (r s : list Byte.byte) (v : Z) :
  r <> [] -> s <> [] -> (length r <= 32)%nat -> (length s <= 32)%nat ->
  0 <= v ->
  exists rLow rHigh sLow sHigh vText,
    formatEthSignature {| sig_r := r; sig_s := s; sig_v := Some v |}
    = ok [rLow; rHigh; sLow; sHigh; vText] /\
    exists a b c d,
      BigInt rLow = ok a /\ BigInt rHigh = ok b /\
      BigInt sLow = ok c /\ BigInt sHigh = ok d /\
      BigInt vText = ok v /\
      0 <= a < 2 ^ 128 /\ 0 <= b < 2 ^ 128 /\
      0 <= c < 2 ^ 128 /\ 0 <= d < 2 ^ 128 /\
      a + 2 ^ 128 * b = Z.of_N (bigEndian r) /\
      c + 2 ^ 128 * d = Z.of_N (bigEndian s).
Proof.
  intros Hr Hs Hlr Hls Hv.
  assert (Hbound : forall bytes : list Byte.byte,
            (length bytes <= 32)%nat ->
            0 <= Z.of_N (bigEndian bytes) < 2 ^ 256).
  { intros bytes Hlen. pose proof (bigEndian_lt bytes) as Hlt.
    assert (Hpow : (256 ^ N.of_nat (length bytes) <= 256 ^ 32)%N)
      by (apply N.pow_le_mono_r; lia).
    assert (Hmax : (256 ^ 32)%N = Z.to_N (2 ^ 256)) by reflexivity.
    lia. }
  pose proof (Hbound r Hlr) as Hbr. pose proof (Hbound s Hls) as Hbs.
  remember (Z.of_N (bigEndian r)) as R eqn:HR.
  remember (Z.of_N (bigEndian s)) as S eqn:HS.
  assert (Hsplit : (2 ^ 256 = 2 ^ 128 * 2 ^ 128)%Z) by reflexivity.
  pose proof (Z.mod_pos_bound R (2 ^ 128) ltac:(lia)) as HRm.
  pose proof (Z.mod_pos_bound S (2 ^ 128) ltac:(lia)) as HSm.
  pose proof (Z.div_mod R (2 ^ 128) ltac:(lia)) as HRd.
  pose proof (Z.div_mod S (2 ^ 128) ltac:(lia)) as HSd.
  assert (HRq : 0 <= R / 2 ^ 128 < 2 ^ 128).
  { split; [apply Z.div_pos; lia | apply Z.div_lt_upper_bound; lia]. }
  assert (HSq : 0 <= S / 2 ^ 128 < 2 ^ 128).
  { split; [apply Z.div_pos; lia | apply Z.div_lt_upper_bound; lia]. }
  do 5 eexists. split; [by apply formatEthSignature_limbs|].
  rewrite <- HR, <- HS.
  exists (R mod 2 ^ 128), (R / 2 ^ 128), (S mod 2 ^ 128), (S / 2 ^ 128).
  rewrite !BigInt_toString16 by lia.
  refine (conj eq_refl (conj eq_refl (conj eq_refl (conj eq_refl
           (conj eq_refl _))))).
  lia.
Qed.

Lemma formatEthSignature_reads_back_witness :
  exists rLow rHigh sLow sHigh vText,
    formatEthSignature
      {| sig_r := [Byte.xff; Byte.x00]; sig_s := paddedByte Byte.x02;
         sig_v := Some 27 |}
    = ok [rLow; rHigh; sLow; sHigh; vText] /\
    exists a b c d,
      BigInt rLow = ok a /\ BigInt rHigh = ok b /\
      BigInt sLow = ok c /\ BigInt sHigh = ok d /\
      BigInt vText = ok 27 /\
      0 <= a < 2 ^ 128 /\ 0 <= b < 2 ^ 128 /\
      0 <= c < 2 ^ 128 /\ 0 <= d < 2 ^ 128 /\
      a + 2 ^ 128 * b = 65280 /\
      c + 2 ^ 128 * d = 2.
Proof.
  apply (formatEthSignature_reads_back
           [Byte.xff; Byte.x00] (paddedByte Byte.x02) 27).
  - discriminate.
  - discriminate.
  - simpl. lia.
  - simpl. lia.
  - lia.
Defined.

(** ** The request entry point *)

Section AdapterRequest.
Context `{StarknetCollaborators} `{StarknetFrontCollaborators}.

(** X29. [request]: an internal message without a chain id is refused at
    once. A call returns only for the types
    [keplr_initStarknetProviderState] and [keplr_enableStarknetProvider]:
    either no chain is known (none permitted for the origin, none passed),
    the type is the init one and both fields are [null] with nothing asked
    of the key ring; or the chain is the one permitted for the origin, and
    only without one the chain passed, and [selectedAddress] is the hex
    address of the selected vault's key on that chain. With a chain known
    the key is resolved before the type is looked at, so any other type is
    refused only after the public-key request went out. *)
Theorem request_spec (isInternalMsg : bool) (origin type : string)
    (chainId : option string) (sent : list Call) :
  let run := request_ isInternalMsg origin type chainId sent in
  let resolved (c : string) :=
    getCurrentChainIdForStarknet origin = Some c \/
    (getCurrentChainIdForStarknet origin = None /\ chainId = Some c) in
  (isInternalMsg = true -> chainId = None ->
   run = (throw (Error "The chain id must be provided for the internal message."),
          sent)) /\
  (forall value sent',
     run = (ok value, sent') ->
     (type = "keplr_initStarknetProviderState" \/
      type = "keplr_enableStarknetProvider") /\
     ((type = "keplr_initStarknetProviderState" /\
       isInternalMsg = false /\
       getCurrentChainIdForStarknet origin = None /\ chainId = None /\
       value = JObject [("currentChainId", JNull); ("selectedAddress", JNull)] /\
       sent' = sent) \/
      (exists c vaultId key,
         resolved c /\
         keyRingService_selectedVaultId = ok vaultId /\
         getStarknetKey vaultId c sent = (ok key, sent') /\
         sent' = (sent ++ [KeyRingGetPubKey c vaultId])%list /\
         value = JObject [("currentChainId", JString c);
                          ("selectedAddress", JString (hexAddress key))]))) /\
  (forall c vaultId key sent',
     resolved c ->
     (isInternalMsg = true -> chainId <> None) ->
     keyRingService_selectedVaultId = ok vaultId ->
     getStarknetKey vaultId c sent = (ok key, sent') ->
     type <> "keplr_initStarknetProviderState" ->
     type <> "keplr_enableStarknetProvider" ->
     run = (throw (Error ("The type " +:+ doubleQuote +:+ type +:+ doubleQuote
                          +:+ " is not supported.")),
            (sent ++ [KeyRingGetPubKey c vaultId])%list)).
Proof.
  intros run resolved. subst run resolved. cbv beta.
  refine (conj _ (conj _ _)).
  - intros -> ->. reflexivity.
  - intros value sent'. unfold request_, getStarknetKeySelected.
    destruct (isInternalMsg && negb (isDefined chainId)) eqn:Hint;
      [discriminate|].
    destruct (getCurrentChainIdForStarknet origin) as [c|] eqn:Hperm.
    + run_adapter.
      destruct keyRingService_selectedVaultId as [e|vaultId] eqn:Hsel;
        [discriminate|].
      destruct (getStarknetKey vaultId c sent) as [[e|key] sent1] eqn:Hkey;
        [discriminate|].
      destruct (String.eqb_spec type "keplr_initStarknetProviderState") as [Ei|Ei];
        [|destruct (String.eqb_spec type "keplr_enableStarknetProvider")
            as [Ee|Ee]]; cbn [orb]; try discriminate.
      * intros E. injection E as <- <-. split; [by left|]. right.
        exists c, vaultId, key. split; [by left|].
        split; [done|]. split; [done|]. split; [|done].
        by eapply getStarknetKey_sent.
      * intros E. injection E as <- <-. split; [by right|]. right.
        exists c, vaultId, key. split; [by left|].
        split; [done|]. split; [done|]. split; [|done].
        by eapply getStarknetKey_sent.
    + destruct chainId as [c|].
      * run_adapter.
        destruct keyRingService_selectedVaultId as [e|vaultId] eqn:Hsel;
          [discriminate|].
        destruct (getStarknetKey vaultId c sent) as [[e|key] sent1] eqn:Hkey;
          [discriminate|].
        destruct (String.eqb_spec type "keplr_initStarknetProviderState")
          as [Ei|Ei];
          [|destruct (String.eqb_spec type "keplr_enableStarknetProvider")
              as [Ee|Ee]]; cbn [orb]; try discriminate.
        -- intros E. injection E as <- <-. split; [by left|]. right.
           exists c, vaultId, key. split; [by right|].
           split; [done|]. split; [done|]. split; [|done].
           by eapply getStarknetKey_sent.
        -- intros E. injection E as <- <-. split; [by right|]. right.
           exists c, vaultId, key. split; [by right|].
           split; [done|]. split; [done|]. split; [|done].
           by eapply getStarknetKey_sent.
      * destruct (String.eqb_spec type "keplr_initStarknetProviderState")
          as [Ei|Ei]; [|discriminate].
        run_adapter. intros E. injection E as <- <-. split; [by left|]. left.
        destruct isInternalMsg; [discriminate|]. done.
  - intros c vaultId key sent' Hres Hint Hsel Hkey Hni Hne.
    assert (Hguard : isInternalMsg && negb (isDefined chainId) = false).
    { destruct isInternalMsg; [|done]. destruct chainId; [done|].
      by destruct Hint. }
    assert (Hchain : match getCurrentChainIdForStarknet origin with
                     | Some c' => Some c'
                     | None => chainId
                     end = Some c).
    { by destruct Hres as [-> | [-> ->]]. }
    pose proof (getStarknetKey_sent _ _ _ _ _ Hkey) as ->.
    unfold request_, getStarknetKeySelected. rewrite Hguard, Hchain.
    unfold ok in Hsel, Hkey. run_adapter. rewrite Hsel, Hkey.
    apply String.eqb_neq in Hni, Hne. by rewrite Hni, Hne.
Qed.

End AdapterRequest.

(** * Further properties of derivation-path validation *)

(** A number that [===] an integer is an integer, with the integer's sign. *)
Lemma strictEq_of_Z_integer (x : number) (z : Z) :
  Number.strictEq x (Number.of_Z z) = true ->
  Number.isInteger x = true /\ Number.ltZero x = (z <? 0)%Z.
Proof.
  destruct x as [q| |neg]; cbn [Number.strictEq Number.of_Z]; try discriminate.
  intros E. apply Qeq_bool_iff in E. split.
  - unfold Number.isInteger.
    rewrite (Qred_complete _ _ E), Qred_identity; [reflexivity|].
    simpl. apply Z.gcd_1_r.
  - unfold Number.ltZero. unfold Qeq, inject_Z in E. cbn [Qnum Qden] in E.
    destruct (Z.ltb_spec (Qnum q) 0), (Z.ltb_spec z 0); try reflexivity; nia.
Qed.

(** An integer number [===] some integer. *)
Lemma isInteger_strictEq_of_Z (x : number) :
  Number.isInteger x = true ->
  exists z : Z, Number.strictEq x (Number.of_Z z) = true.
Proof.
  destruct x as [q| |neg]; cbn [Number.isInteger]; try discriminate.
  intros Hden. exists (Qnum (Qred q)).
  cbn [Number.strictEq Number.of_Z]. apply Qeq_bool_iff.
  rewrite <- (Qred_correct q) at 1.
  destruct (Qred q) as [n d]. cbn [Qnum Qden] in *.
  apply Z.eqb_eq in Hden. injection Hden as ->. reflexivity.
Qed.

(** X30. [validateBIP44Path] returns exactly for the paths whose account
    is a non-negative integer, whose change is 0 or 1 and whose address
    index is a non-negative integer; a fraction, [NaN] or an infinity in
    any field is refused. *)
Theorem validateBIP44Path_returns_iff (p : BIP44HDPath) :
  validateBIP44Path p = ok tt <->
  exists a c i : Z,
    0 <= a /\ (c = 0 \/ c = 1) /\ 0 <= i /\
    Number.strictEq (account p) (Number.of_Z a) = true /\
    Number.strictEq (change p) (Number.of_Z c) = true /\
    Number.strictEq (addressIndex p) (Number.of_Z i) = true.
Proof.
  rewrite validateBIP44Path_ok_iff. split.
  - intros (Ha & Ha0 & _ & Hc & Hi & Hi0).
    destruct (isInteger_strictEq_of_Z _ Ha) as [a Ea].
    destruct (isInteger_strictEq_of_Z _ Hi) as [i Ei].
    destruct (strictEq_of_Z_integer _ _ Ea) as [_ Hsa].
    destruct (strictEq_of_Z_integer _ _ Ei) as [_ Hsi].
    rewrite Ha0 in Hsa. rewrite Hi0 in Hsi.
    symmetry in Hsa, Hsi. apply Z.ltb_ge in Hsa, Hsi.
    destruct Hc as [Hc | Hc].
    + exists a, 0, i. auto 10.
    + exists a, 1, i. auto 10.
  - intros (a & c & i & Ha & Hc & Hi & Ea & Ec & Ei).
    destruct (strictEq_of_Z_integer _ _ Ea) as [-> ->].
    destruct (strictEq_of_Z_integer _ _ Ec) as [-> _].
    destruct (strictEq_of_Z_integer _ _ Ei) as [-> ->].
    apply Z.ltb_ge in Ha, Hi.
    refine (conj eq_refl (conj Ha (conj eq_refl (conj _ (conj eq_refl Hi))))).
    destruct Hc as [-> | ->]; [by left | by right].
Qed.

(** One and a half, [NaN] and minus infinity are no account numbers. *)
Example validateBIP44Path_not_integers :
  List.map
    (fun a => validateBIP44Path
                {| account := a; change := Number.of_Z 0;
                   addressIndex := Number.of_Z 0 |})
    [Number.Finite (3 # 2); Number.NaN; Number.Infinity true]
  = [throw (Error "Invalid account in hd path");
     throw (Error "Invalid account in hd path");
     throw (Error "Invalid account in hd path")].
Proof. reflexivity. Qed.

(** * The adapter run against the fixed collaborators, continued *)

Lemma hexAddress_identifies_address_witness :
  (forall vaultId2 chainId2 key2 sent2 sent2',
     @getStarknetKey fixedCollaborators vaultId2 chainId2 sent2
     = (ok key2, sent2') ->
     (hexAddress fixedKey = hexAddress key2 <-> address fixedKey = address key2)) /\
  (forall signer typedData,
     @signStarknetMessage fixedCollaborators "v1" "SN_MAIN" signer typedData []
     = (throw (Error "Invalid signer"), [KeyRingGetPubKey "SN_MAIN" "v1"])
     <-> signer <> "0x0abc").
Proof.
  apply (@hexAddress_identifies_address fixedCollaborators "v1" "SN_MAIN"
           fixedKey [] [KeyRingGetPubKey "SN_MAIN" "v1"]).
  reflexivity.
Defined.

Lemma refused_before_hashing_witness :
  (forall transactions,
     @signStarknetTransaction fixedCollaborators "v1" "SN_MAIN" "0x0abc"
       transactions badModeDetails []
     = (throw (Error "EDAM conversion"), [KeyRingGetPubKey "SN_MAIN" "v1"])) /\
  @signStarknetDeployAccountTransaction fixedCollaborators "v1" "SN_MAIN" "0x0abc"
    badModeDetails []
  = (throw (Error "EDAM conversion"), [KeyRingGetPubKey "SN_MAIN" "v1"]) /\
  @signStarknetDeclareTransactionn fixedCollaborators "v1" "SN_MAIN" "0x0abc"
    badModeDetails []
  = (throw (Error "EDAM conversion"), [KeyRingGetPubKey "SN_MAIN" "v1"]).
Proof.
  destruct (@refused_before_hashing fixedCollaborators "v1" "SN_MAIN" "0x0abc"
              badModeDetails fixedKey [] [KeyRingGetPubKey "SN_MAIN" "v1"]
              eq_refl eq_refl) as (_ & _ & Hmode).
  apply Hmode.
  - vm_compute. reflexivity.
  - left. split; vm_compute; discriminate.
Defined.

Lemma invoke_branch_witness :
  let args3 :=
    <["feeDataAvailabilityMode" := JNumber (Number.of_Z 1)]>
    (<["nonceDataAvailabilityMode" := JNumber (Number.of_Z 0)]>
     (<["version" := prop v3Details "version"]>
      (<["compiledCalldata" := JArray []]>
       (<["senderAddress" := prop v3Details "walletAddress"]> v3Details)))) in
  @signStarknetTransaction fixedCollaborators "v1" "SN_MAIN" "0x0abc"
    (JArray []) v3Details []
  = bind (request (CalculateInvokeTransactionHash args3) (ok "0xaa"))
         (@signDigest fixedCollaborators "SN_MAIN" "v1")
         [KeyRingGetPubKey "SN_MAIN" "v1"].
Proof.
  destruct (@invoke_branch fixedCollaborators "v1" "SN_MAIN" "0x0abc"
              (JArray []) (JArray []) v3Details fixedKey []
              [KeyRingGetPubKey "SN_MAIN" "v1"] eq_refl eq_refl eq_refl)
    as (_ & Hv3 & _).
  apply (Hv3 0 1); vm_compute; reflexivity.
Defined.

Lemma deploy_declare_branch_witness :
  let declared :=
    <["feeDataAvailabilityMode" := JNumber (Number.of_Z 1)]>
    (<["nonceDataAvailabilityMode" := JNumber (Number.of_Z 0)]>
     (<["version" := prop v3Details "version"]> v3Details)) in
  @signStarknetDeclareTransactionn fixedCollaborators "v1" "SN_MAIN" "0x0abc"
    v3Details []
  = bind (request (CalculateDeclareTransactionHash declared) (ok "0xcc"))
         (@signDigest fixedCollaborators "SN_MAIN" "v1")
         [KeyRingGetPubKey "SN_MAIN" "v1"].
Proof.
  destruct (@deploy_declare_branch fixedCollaborators "v1" "SN_MAIN" "0x0abc"
              v3Details fixedKey [] [KeyRingGetPubKey "SN_MAIN" "v1"]
              eq_refl eq_refl) as (_ & _ & Hv3 & _).
  apply (Hv3 0 1); vm_compute; reflexivity.
Defined.

(** The request entry point on the fixed collaborators: a permitted origin
    gets the permitted chain even when another one is passed; an origin
    without permission and without a chain gets two nulls for the init
    type and is refused otherwise; an unknown type is refused after the key
    was resolved. *)
Example request_run :
  @request_ fixedCollaborators fixedFront false "https://app.example"
    "keplr_enableStarknetProvider" (Some "SN_SEPOLIA") []
  = (ok (JObject [("currentChainId", JString "SN_MAIN");
                  ("selectedAddress", JString "0x0abc")]),
     [KeyRingGetPubKey "SN_MAIN" "v1"]) /\
  @request_ fixedCollaborators fixedFront false "https://other.example"
    "keplr_initStarknetProviderState" None []
  = (ok (JObject [("currentChainId", JNull); ("selectedAddress", JNull)]), []) /\
  @request_ fixedCollaborators fixedFront false "https://other.example"
    "keplr_enableStarknetProvider" None []
  = (throw (Error "https://other.example is not permitted. Please disconnect and reconnect to the website."),
     []) /\
  @request_ fixedCollaborators fixedFront true "https://app.example"
    "wallet_switchChain" (Some "SN_MAIN") []
  = (throw (Error (String.concat ""
       ["The type "; doubleQuote; "wallet_switchChain"; doubleQuote;
        " is not supported."])),
     [KeyRingGetPubKey "SN_MAIN" "v1"]).
Proof. vm_compute. auto. Qed.
